(** * WebSocket++ session engine (websocket_session.hpp)

    A shallow embedding of [websocketpp::session]: the opening handshake
    validator and responder, the frame dispatcher and message assembler, the
    close handshake and the public send / ping / pong / close operations.

    The session is a record; every member function is a computation in a
    state-and-exception monad over that record.  C++ exceptions keep the
    mutations made before the throw, so a computation returns the final
    session together with either a value or the exception in flight.
    Everything the session does to the outside world (callbacks into the
    connection handler, log lines, asynchronous operations, timer and
    socket calls) is appended to the [trace] field in program order.

    Code that the session header only includes (the frame parser, the close
    status catalogue, the UTF-8 decoder, the endpoint, the connection
    handler, SHA-1 and base64) is either a field of the [endpoint_policy]
    class or a definition whose comment starts with "Modelled from the
    spec". *)

From Stdlib Require Import ZArith Lia.
From Stdlib.Strings Require Import String Ascii Byte.
From stdpp Require Import base strings list gmap pretty.

Local Open Scope string_scope.

(** ** Enumerations *)

Module state.
Inductive value := CONNECTING | OPEN | CLOSING | CLOSED.
#[global] Instance value_eq_dec : EqDecision value.
Proof. solve_decision. Defined.
Definition eqb (a b : value) : bool :=
  match a, b with
  | CONNECTING, CONNECTING | OPEN, OPEN | CLOSING, CLOSING | CLOSED, CLOSED => true
  | _, _ => false
  end.
End state.

(** [frame::opcode::value].  The header that declares it is not part of the
    session file; the six opcodes the session names are constructors and
    every other 4-bit value is [RESERVED]. *)
Module opcode.
Inductive value :=
| CONTINUATION | TEXT | BINARY | CLOSE | PING | PONG | RESERVED (n : Z).
#[global] Instance value_eq_dec : EqDecision value.
Proof. solve_decision. Defined.
Definition eqb (a b : value) : bool :=
  match a, b with
  | CONTINUATION, CONTINUATION | TEXT, TEXT | BINARY, BINARY
  | CLOSE, CLOSE | PING, PING | PONG, PONG => true
  | RESERVED n, RESERVED m => (n =? m)%Z
  | _, _ => false
  end.
(** Modelled from the spec: the numeric value streamed by [operator<<]
    (RFC 6455 section 5.2 opcodes). *)
Definition to_Z (o : value) : Z :=
  match o with
  | CONTINUATION => 0 | TEXT => 1 | BINARY => 2
  | CLOSE => 8 | PING => 9 | PONG => 10 | RESERVED n => n
  end%Z.
End opcode.

(** [frame::error::value]: the codes of [frame::exception]. *)
Module error.
Inductive value :=
| FATAL_SESSION_ERROR | SOFT_SESSION_ERROR | PROTOCOL_VIOLATION
| PAYLOAD_VIOLATION | INTERNAL_SERVER_ERROR | OTHER (n : Z).
#[global] Instance value_eq_dec : EqDecision value.
Proof. solve_decision. Defined.
Definition eqb (a b : value) : bool :=
  match a, b with
  | FATAL_SESSION_ERROR, FATAL_SESSION_ERROR | SOFT_SESSION_ERROR, SOFT_SESSION_ERROR
  | PROTOCOL_VIOLATION, PROTOCOL_VIOLATION | PAYLOAD_VIOLATION, PAYLOAD_VIOLATION
  | INTERNAL_SERVER_ERROR, INTERNAL_SERVER_ERROR => true
  | OTHER n, OTHER m => (n =? m)%Z
  | _, _ => false
  end.
End error.

(** Modelled from the spec: [close::status] constants (section 4.7, the
    close-code catalogue); the enumeration lives in websocketpp.hpp. *)
Module close_status.
Definition NORMAL : Z := 1000.
Definition GOING_AWAY : Z := 1001.
Definition PROTOCOL_ERROR : Z := 1002.
Definition UNSUPPORTED_DATA : Z := 1003.
Definition NO_STATUS : Z := 1005.
Definition ABNORMAL_CLOSE : Z := 1006.
Definition INVALID_PAYLOAD : Z := 1007.
Definition POLICY_VIOLATION : Z := 1008.
Definition MESSAGE_TOO_BIG : Z := 1009.
Definition EXTENSION_REQUIRED : Z := 1010.
Definition INTERNAL_ENDPOINT_ERROR : Z := 1011.
End close_status.

(** [boost::system::error_code] values the handlers distinguish. *)
Inductive error_code :=
| ec_success | ec_eof | ec_operation_aborted | ec_not_connected
| ec_other (n : Z).

#[global] Instance error_code_eq_dec : EqDecision error_code.
Proof. solve_decision. Defined.

(** [if (error)]: any value but success. *)
Definition is_error (e : error_code) : bool := negb (bool_decide (e = ec_success)).

Inductive log_level := LOG_DEBUG | LOG_WARN | LOG_ERROR.

Inductive alog_level :=
| ALOG_HANDSHAKE | ALOG_FRAME | ALOG_MISC_CONTROL | ALOG_DISCONNECT.

(** The completion handlers a [deadline_timer] wait can be bound to. *)
Inductive timer_handler := handshake_expired | close_expired.

(** ** Frames as the session sees them *)

(** [m_read_frame]: what the parser's accessors return. *)
Record in_frame := {
  ready : bool;
  get_bytes_needed : Z;
  get_fin : bool;
  get_opcode : opcode.value;
  get_payload : list byte;
  get_close_status : Z;
  get_close_msg : string
}.

(** Modelled from the spec: [m_read_frame.reset()] puts the parser back in
    its first state, READ_SMALL_HEADER, which needs 2 bytes (section 4.2). *)
Definition reset (f : in_frame) : in_frame :=
  {| ready := false; get_bytes_needed := 2;
     get_fin := get_fin f; get_opcode := get_opcode f;
     get_payload := get_payload f; get_close_status := get_close_status f;
     get_close_msg := get_close_msg f |}.

(** What has been stored in [m_write_frame]: either raw payload bytes
    ([set_payload]) or a close status with its reason ([set_status]). *)
Inductive body :=
| payload_bytes (p : list byte)
| payload_status (code : Z) (reason : string).

Record out_frame := {
  w_fin : bool;
  w_opcode : opcode.value;
  w_masked : bool;
  w_body : body
}.

Definition set_fin (b : bool) (f : out_frame) : out_frame :=
  {| w_fin := b; w_opcode := w_opcode f; w_masked := w_masked f; w_body := w_body f |}.
Definition set_opcode (o : opcode.value) (f : out_frame) : out_frame :=
  {| w_fin := w_fin f; w_opcode := o; w_masked := w_masked f; w_body := w_body f |}.
Definition set_masked (b : bool) (f : out_frame) : out_frame :=
  {| w_fin := w_fin f; w_opcode := w_opcode f; w_masked := b; w_body := w_body f |}.
Definition set_payload (p : list byte) (f : out_frame) : out_frame :=
  {| w_fin := w_fin f; w_opcode := w_opcode f; w_masked := w_masked f;
     w_body := payload_bytes p |}.
Definition set_status (code : Z) (reason : string) (f : out_frame) : out_frame :=
  {| w_fin := w_fin f; w_opcode := w_opcode f; w_masked := w_masked f;
     w_body := payload_status code reason |}.

(** Modelled from the spec: the frame decoder of websocket_frame.hpp, "a
    resumable state machine that consumes bytes from a buffer" (section
    4.2).  One call of [m_read_frame.consume(s)] on the bytes at the head
    of [m_buf] takes [chunk_size] bytes and either leaves the parser with
    the accessor values [f] (a whole frame when [ready f]), or throws a
    [frame::exception]. *)
Inductive consume_result :=
| consumed (f : in_frame)
| consume_throws (what : string) (code : error.value).

Record chunk := { chunk_size : positive; chunk_result : consume_result }.

Definition buf_size (b : list chunk) : Z :=
  foldr (fun c n => Z.pos (chunk_size c) + n)%Z 0%Z b.

(** The socket: closed, open and connected, or open with its calls
    reporting a system error (not_connected when the peer is already
    gone). *)
Inductive socket_status :=
| sock_closed | sock_connected | sock_failing (e : error_code).

(** ** Observable effects *)

Inductive effect :=
| Elog (msg : string) (level : log_level)
| Eaccess_log (msg : string) (level : alog_level)
| Evalidate_host (h : string)
| Evalidate
| Eon_open
| Eon_message_text (msg : string)
| Eon_message_binary (msg : list byte)
| Eon_close
| Easync_read_until
| Easync_write_handshake (raw : string)
| Easync_read
| Easync_write_frame (f : out_frame)
| Etimer_expires_from_now (ms : Z)
| Etimer_async_wait (h : timer_handler)
| Etimer_cancel
| Esocket_shutdown
| Esocket_close.

(** ** The session record *)

(** Client and server halves of the opening handshake. *)
Record handshake_record := {
  m_raw_client_handshake : string;
  m_client_http_request : string;
  m_resource : string;
  m_client_origin : string;
  m_client_headers : gmap string string;
  m_version : Z;
  m_raw_server_handshake : string;
  m_server_headers : gmap string string;
  m_server_http_code : Z;
  m_server_http_string : string
}.

Record close_record := {
  m_local_close_code : Z;
  m_local_close_msg : string;
  m_remote_close_code : Z;
  m_remote_close_msg : string;
  m_was_clean : bool;
  m_closed_by_me : bool;
  m_dropped_by_me : bool
}.

(** "current message state" in the class. *)
Record message_record := {
  m_utf8_state : Z;
  m_utf8_codepoint : Z;
  m_current_message : list byte;
  m_fragmented : bool;
  m_current_opcode : opcode.value;
  m_error : bool
}.

Record session := {
  m_state : state.value;
  m_writing : bool;
  m_handshake : handshake_record;
  m_close : close_record;
  m_message : message_record;
  m_socket : socket_status;
  m_local_interface : bool;          (* is a connection handler attached *)
  m_timer : option timer_handler;     (* the pending wait, if any *)
  m_buf : list chunk;
  m_read_frame : in_frame;
  m_write_frame : out_frame;
  trace : list effect
}.

(** *** Field updates *)

Definition with_client (raw req : string) (hdrs : gmap string string)
    (h : handshake_record) : handshake_record :=
  {| m_raw_client_handshake := raw; m_client_http_request := req;
     m_resource := m_resource h; m_client_origin := m_client_origin h;
     m_client_headers := hdrs; m_version := m_version h;
     m_raw_server_handshake := m_raw_server_handshake h;
     m_server_headers := m_server_headers h;
     m_server_http_code := m_server_http_code h;
     m_server_http_string := m_server_http_string h |}.

Definition with_resource (r : string) (h : handshake_record) : handshake_record :=
  {| m_raw_client_handshake := m_raw_client_handshake h;
     m_client_http_request := m_client_http_request h;
     m_resource := r; m_client_origin := m_client_origin h;
     m_client_headers := m_client_headers h; m_version := m_version h;
     m_raw_server_handshake := m_raw_server_handshake h;
     m_server_headers := m_server_headers h;
     m_server_http_code := m_server_http_code h;
     m_server_http_string := m_server_http_string h |}.

Definition with_origin (o : string) (h : handshake_record) : handshake_record :=
  {| m_raw_client_handshake := m_raw_client_handshake h;
     m_client_http_request := m_client_http_request h;
     m_resource := m_resource h; m_client_origin := o;
     m_client_headers := m_client_headers h; m_version := m_version h;
     m_raw_server_handshake := m_raw_server_handshake h;
     m_server_headers := m_server_headers h;
     m_server_http_code := m_server_http_code h;
     m_server_http_string := m_server_http_string h |}.

Definition with_version (v : Z) (h : handshake_record) : handshake_record :=
  {| m_raw_client_handshake := m_raw_client_handshake h;
     m_client_http_request := m_client_http_request h;
     m_resource := m_resource h; m_client_origin := m_client_origin h;
     m_client_headers := m_client_headers h; m_version := v;
     m_raw_server_handshake := m_raw_server_handshake h;
     m_server_headers := m_server_headers h;
     m_server_http_code := m_server_http_code h;
     m_server_http_string := m_server_http_string h |}.

Definition with_raw_server (raw : string) (h : handshake_record) : handshake_record :=
  {| m_raw_client_handshake := m_raw_client_handshake h;
     m_client_http_request := m_client_http_request h;
     m_resource := m_resource h; m_client_origin := m_client_origin h;
     m_client_headers := m_client_headers h; m_version := m_version h;
     m_raw_server_handshake := raw;
     m_server_headers := m_server_headers h;
     m_server_http_code := m_server_http_code h;
     m_server_http_string := m_server_http_string h |}.

Definition with_server_headers (hdrs : gmap string string)
    (h : handshake_record) : handshake_record :=
  {| m_raw_client_handshake := m_raw_client_handshake h;
     m_client_http_request := m_client_http_request h;
     m_resource := m_resource h; m_client_origin := m_client_origin h;
     m_client_headers := m_client_headers h; m_version := m_version h;
     m_raw_server_handshake := m_raw_server_handshake h;
     m_server_headers := hdrs;
     m_server_http_code := m_server_http_code h;
     m_server_http_string := m_server_http_string h |}.

Definition with_server_http (code : Z) (str : string)
    (h : handshake_record) : handshake_record :=
  {| m_raw_client_handshake := m_raw_client_handshake h;
     m_client_http_request := m_client_http_request h;
     m_resource := m_resource h; m_client_origin := m_client_origin h;
     m_client_headers := m_client_headers h; m_version := m_version h;
     m_raw_server_handshake := m_raw_server_handshake h;
     m_server_headers := m_server_headers h;
     m_server_http_code := code;
     m_server_http_string := str |}.

Definition with_local_close (code : Z) (msg : string) (c : close_record) : close_record :=
  {| m_local_close_code := code; m_local_close_msg := msg;
     m_remote_close_code := m_remote_close_code c;
     m_remote_close_msg := m_remote_close_msg c;
     m_was_clean := m_was_clean c; m_closed_by_me := m_closed_by_me c;
     m_dropped_by_me := m_dropped_by_me c |}.

Definition with_remote_close (code : Z) (msg : string) (c : close_record) : close_record :=
  {| m_local_close_code := m_local_close_code c;
     m_local_close_msg := m_local_close_msg c;
     m_remote_close_code := code; m_remote_close_msg := msg;
     m_was_clean := m_was_clean c; m_closed_by_me := m_closed_by_me c;
     m_dropped_by_me := m_dropped_by_me c |}.

Definition with_was_clean (b : bool) (c : close_record) : close_record :=
  {| m_local_close_code := m_local_close_code c;
     m_local_close_msg := m_local_close_msg c;
     m_remote_close_code := m_remote_close_code c;
     m_remote_close_msg := m_remote_close_msg c;
     m_was_clean := b; m_closed_by_me := m_closed_by_me c;
     m_dropped_by_me := m_dropped_by_me c |}.

Definition with_closed_by_me (b : bool) (c : close_record) : close_record :=
  {| m_local_close_code := m_local_close_code c;
     m_local_close_msg := m_local_close_msg c;
     m_remote_close_code := m_remote_close_code c;
     m_remote_close_msg := m_remote_close_msg c;
     m_was_clean := m_was_clean c; m_closed_by_me := b;
     m_dropped_by_me := m_dropped_by_me c |}.

Definition with_dropped_by_me (b : bool) (c : close_record) : close_record :=
  {| m_local_close_code := m_local_close_code c;
     m_local_close_msg := m_local_close_msg c;
     m_remote_close_code := m_remote_close_code c;
     m_remote_close_msg := m_remote_close_msg c;
     m_was_clean := m_was_clean c; m_closed_by_me := m_closed_by_me c;
     m_dropped_by_me := b |}.

Definition with_utf8 (st cp : Z) (m : message_record) : message_record :=
  {| m_utf8_state := st; m_utf8_codepoint := cp;
     m_current_message := m_current_message m; m_fragmented := m_fragmented m;
     m_current_opcode := m_current_opcode m; m_error := m_error m |}.

Definition with_current_message (p : list byte) (m : message_record) : message_record :=
  {| m_utf8_state := m_utf8_state m; m_utf8_codepoint := m_utf8_codepoint m;
     m_current_message := p; m_fragmented := m_fragmented m;
     m_current_opcode := m_current_opcode m; m_error := m_error m |}.

Definition with_fragmented (b : bool) (m : message_record) : message_record :=
  {| m_utf8_state := m_utf8_state m; m_utf8_codepoint := m_utf8_codepoint m;
     m_current_message := m_current_message m; m_fragmented := b;
     m_current_opcode := m_current_opcode m; m_error := m_error m |}.

Definition with_current_opcode (o : opcode.value) (m : message_record) : message_record :=
  {| m_utf8_state := m_utf8_state m; m_utf8_codepoint := m_utf8_codepoint m;
     m_current_message := m_current_message m; m_fragmented := m_fragmented m;
     m_current_opcode := o; m_error := m_error m |}.

Definition with_error (b : bool) (m : message_record) : message_record :=
  {| m_utf8_state := m_utf8_state m; m_utf8_codepoint := m_utf8_codepoint m;
     m_current_message := m_current_message m; m_fragmented := m_fragmented m;
     m_current_opcode := m_current_opcode m; m_error := b |}.

Definition with_state (v : state.value) (s : session) : session :=
  {| m_state := v; m_writing := m_writing s; m_handshake := m_handshake s;
     m_close := m_close s; m_message := m_message s; m_socket := m_socket s;
     m_local_interface := m_local_interface s; m_timer := m_timer s;
     m_buf := m_buf s; m_read_frame := m_read_frame s;
     m_write_frame := m_write_frame s; trace := trace s |}.

Definition with_writing (b : bool) (s : session) : session :=
  {| m_state := m_state s; m_writing := b; m_handshake := m_handshake s;
     m_close := m_close s; m_message := m_message s; m_socket := m_socket s;
     m_local_interface := m_local_interface s; m_timer := m_timer s;
     m_buf := m_buf s; m_read_frame := m_read_frame s;
     m_write_frame := m_write_frame s; trace := trace s |}.

Definition upd_handshake (f : handshake_record -> handshake_record) (s : session) : session :=
  {| m_state := m_state s; m_writing := m_writing s; m_handshake := f (m_handshake s);
     m_close := m_close s; m_message := m_message s; m_socket := m_socket s;
     m_local_interface := m_local_interface s; m_timer := m_timer s;
     m_buf := m_buf s; m_read_frame := m_read_frame s;
     m_write_frame := m_write_frame s; trace := trace s |}.

Definition upd_close (f : close_record -> close_record) (s : session) : session :=
  {| m_state := m_state s; m_writing := m_writing s; m_handshake := m_handshake s;
     m_close := f (m_close s); m_message := m_message s; m_socket := m_socket s;
     m_local_interface := m_local_interface s; m_timer := m_timer s;
     m_buf := m_buf s; m_read_frame := m_read_frame s;
     m_write_frame := m_write_frame s; trace := trace s |}.

Definition upd_message (f : message_record -> message_record) (s : session) : session :=
  {| m_state := m_state s; m_writing := m_writing s; m_handshake := m_handshake s;
     m_close := m_close s; m_message := f (m_message s); m_socket := m_socket s;
     m_local_interface := m_local_interface s; m_timer := m_timer s;
     m_buf := m_buf s; m_read_frame := m_read_frame s;
     m_write_frame := m_write_frame s; trace := trace s |}.

Definition with_socket (k : socket_status) (s : session) : session :=
  {| m_state := m_state s; m_writing := m_writing s; m_handshake := m_handshake s;
     m_close := m_close s; m_message := m_message s; m_socket := k;
     m_local_interface := m_local_interface s; m_timer := m_timer s;
     m_buf := m_buf s; m_read_frame := m_read_frame s;
     m_write_frame := m_write_frame s; trace := trace s |}.

Definition with_timer (t : option timer_handler) (s : session) : session :=
  {| m_state := m_state s; m_writing := m_writing s; m_handshake := m_handshake s;
     m_close := m_close s; m_message := m_message s; m_socket := m_socket s;
     m_local_interface := m_local_interface s; m_timer := t;
     m_buf := m_buf s; m_read_frame := m_read_frame s;
     m_write_frame := m_write_frame s; trace := trace s |}.

Definition with_buf (b : list chunk) (s : session) : session :=
  {| m_state := m_state s; m_writing := m_writing s; m_handshake := m_handshake s;
     m_close := m_close s; m_message := m_message s; m_socket := m_socket s;
     m_local_interface := m_local_interface s; m_timer := m_timer s;
     m_buf := b; m_read_frame := m_read_frame s;
     m_write_frame := m_write_frame s; trace := trace s |}.

Definition upd_read_frame (f : in_frame -> in_frame) (s : session) : session :=
  {| m_state := m_state s; m_writing := m_writing s; m_handshake := m_handshake s;
     m_close := m_close s; m_message := m_message s; m_socket := m_socket s;
     m_local_interface := m_local_interface s; m_timer := m_timer s;
     m_buf := m_buf s; m_read_frame := f (m_read_frame s);
     m_write_frame := m_write_frame s; trace := trace s |}.

Definition upd_write_frame (f : out_frame -> out_frame) (s : session) : session :=
  {| m_state := m_state s; m_writing := m_writing s; m_handshake := m_handshake s;
     m_close := m_close s; m_message := m_message s; m_socket := m_socket s;
     m_local_interface := m_local_interface s; m_timer := m_timer s;
     m_buf := m_buf s; m_read_frame := m_read_frame s;
     m_write_frame := f (m_write_frame s); trace := trace s |}.

Definition record (e : effect) (s : session) : session :=
  {| m_state := m_state s; m_writing := m_writing s; m_handshake := m_handshake s;
     m_close := m_close s; m_message := m_message s; m_socket := m_socket s;
     m_local_interface := m_local_interface s; m_timer := m_timer s;
     m_buf := m_buf s; m_read_frame := m_read_frame s;
     m_write_frame := m_write_frame s; trace := trace s ++ [e] |}.

(** ** Exceptions and the session monad *)

Inductive exn :=
| frame_exception (what : string) (code : error.value)
| handshake_error (m_msg : string) (m_http_error_code : Z) (m_http_error_msg : string)
| system_error (code : error_code).

Inductive outcome (A : Type) :=
| Ret (a : A)
| Raise (e : exn).
Arguments Ret {A} a.
Arguments Raise {A} e.

Definition M (A : Type) : Type := session -> outcome A * session.

Definition ret {A} (a : A) : M A := fun s => (Ret a, s).
Definition throw {A} (e : exn) : M A := fun s => (Raise e, s).
Definition bind {A B} (m : M A) (k : A -> M B) : M B :=
  fun s => match m s with
           | (Ret a, s') => k a s'
           | (Raise e, s') => (Raise e, s')
           end.
Definition get : M session := fun s => (Ret s, s).
Definition modify (f : session -> session) : M unit := fun s => (Ret tt, f s).
Definition emit (e : effect) : M unit := modify (record e).

(** [try { body } catch (...)]: [handler] says which exceptions the catch
    clause takes ([None]: the exception propagates). *)
Definition try_catch {A} (body : M A) (handler : exn -> option (M A)) : M A :=
  fun s => match body s with
           | (Ret a, s') => (Ret a, s')
           | (Raise e, s') =>
               match handler e with
               | Some h => h s'
               | None => (Raise e, s')
               end
           end.

Declare Scope session_scope.
Delimit Scope session_scope with session.
Notation "x <- m ;; k" := (bind m (fun x => k))
  (at level 100, m at next level, right associativity) : session_scope.
Notation "m ;; k" := (bind m (fun _ => k))
  (at level 100, right associativity) : session_scope.
Local Open Scope session_scope.

Definition when (b : bool) (m : M unit) : M unit := if b then m else ret tt.

(** The final session and the value of a computation. *)
Definition exec {A} (m : M A) (s : session) : session := snd (m s).
Definition result {A} (m : M A) (s : session) : outcome A := fst (m s).

(** ** Strings *)

Definition CR : ascii := "013"%char.
Definition LF : ascii := "010"%char.
Definition NUL : ascii := "000"%char.
Definition CRLF : string := String CR (String LF EmptyString).
Definition dquote : string := String "034"%char EmptyString.

(** [s.find(pat, pos)] for a non-empty [pat]; [None] is [npos]. *)
Definition find (pat : string) (pos : nat) (s : string) : option nat := index pos pat s.

(** [s.substr(pos, len)]; every call in the session has [pos <= s.size()]. *)
Definition substr (s : string) (pos len : nat) : string := substring pos len s.

(** [s.substr(pos)] *)
Definition substr_from (s : string) (pos : nat) : string :=
  substring pos (String.length s - pos) s.

Definition to_lower (c : ascii) : ascii :=
  let n := nat_of_ascii c in
  if (65 <=? n)%nat && (n <=? 90)%nat then ascii_of_nat (n + 32) else c.

(** [boost::iequals] in the classic locale. *)
Fixpoint iequals (a b : string) : bool :=
  match a, b with
  | EmptyString, EmptyString => true
  | String x a', String y b' => Ascii.eqb (to_lower x) (to_lower y) && iequals a' b'
  | _, _ => false
  end.

Fixpoint istarts_with (s pat : string) : bool :=
  match pat, s with
  | EmptyString, _ => true
  | String y pat', String x s' => Ascii.eqb (to_lower x) (to_lower y) && istarts_with s' pat'
  | String _ _, EmptyString => false
  end.

(** [boost::ifind_first(s, pat)] converted to [bool]: is there a match. *)
Fixpoint ifind_first (s pat : string) : bool :=
  istarts_with s pat ||
  match s with
  | EmptyString => false
  | String _ s' => ifind_first s' pat
  end.

(** [atoi] as the C library does it, [(int) strtol (s, NULL, 10)] with a
    64-bit [long]: leading white space, an optional sign, then decimal
    digits up to the first other character (so up to the terminator of
    the C string); a value outside [long] saturates at LONG_MIN or
    LONG_MAX, and the conversion to [int] keeps the low 32 bits. *)
Definition isspace (c : ascii) : bool :=
  let n := nat_of_ascii c in (n =? 32)%nat || ((9 <=? n)%nat && (n <=? 13)%nat).

Definition digit_value (c : ascii) : option Z :=
  let n := nat_of_ascii c in
  if (48 <=? n)%nat && (n <=? 57)%nat then Some (Z.of_nat (n - 48)) else None.

Fixpoint skip_spaces (s : string) : string :=
  match s with
  | String c s' => if isspace c then skip_spaces s' else s
  | EmptyString => EmptyString
  end.

Fixpoint atoi_digits (s : string) (acc : Z) : Z :=
  match s with
  | String c s' =>
      match digit_value c with
      | Some d => atoi_digits s' (10 * acc + d)%Z
      | None => acc
      end
  | EmptyString => acc
  end.

Definition LONG_MAX : Z := (2 ^ 63 - 1)%Z.
Definition LONG_MIN : Z := (- 2 ^ 63)%Z.

(** The value of the digits, saturated to [long]. *)
Definition strtol (s : string) : Z :=
  let v :=
    match skip_spaces s with
    | String "-"%char s' => (- atoi_digits s' 0)%Z
    | String "+"%char s' => atoi_digits s' 0
    | s' => atoi_digits s' 0
    end in
  Z.max LONG_MIN (Z.min LONG_MAX v).

(** Conversion of a [long] to [int]: the low 32 bits, read as signed. *)
Definition to_int (x : Z) : Z := ((x + 2 ^ 31) mod 2 ^ 32 - 2 ^ 31)%Z.

Definition atoi (s : string) : Z := to_int (strtol s).

(** Conversion of an [int] to [unsigned int], and to [uint16_t]. *)
Definition to_unsigned (x : Z) : Z := (x mod 2 ^ 32)%Z.
Definition to_uint16 (x : Z) : Z := (x mod 2 ^ 16)%Z.

(** [s.c_str()] read as a C string: the characters before the first NUL. *)
Fixpoint c_str (s : string) : string :=
  match s with
  | EmptyString => EmptyString
  | String c s' => if Ascii.eqb c NUL then EmptyString else String c (c_str s')
  end.

(** The loop that cuts [m_raw_client_handshake] at every CRLF; text after
    the last CRLF is in no token.  [fuel] bounds the number of iterations. *)
Fixpoint tokenize (fuel : nat) (raw : string) (start : nat) : list string :=
  match fuel with
  | O => []
  | S fuel' =>
      match find CRLF start raw with
      | Some end_ => substr raw start (end_ - start) :: tokenize fuel' raw (end_ + 2)
      | None => []
      end
  end.

Definition tokens_of (raw : string) : list string :=
  tokenize (S (String.length raw)) raw 0.

(** [std::map<std::string,std::string>] lookups as [get_header] does them:
    a missing key reads as the empty string. *)
Definition get_header (key : string) (headers : gmap string string) : string :=
  default EmptyString (headers !! key).

(** The body of the loop over the tokens that fills [m_client_headers]. *)
Definition add_header_line (headers : gmap string string) (token : string)
    : gmap string string :=
  match find ": " 0 token with
  | Some end_ =>
      let h := substr token 0 end_ in
      if String.eqb (get_header h headers) EmptyString then
        <[h := substr_from token (end_ + 2)]> headers
      else
        <[h := get_header h headers +:+ ", " +:+ substr_from token (end_ + 2)]> headers
  | None => headers
  end.

(** Keys in the order [std::map] iterates them: bytewise lexicographic. *)
Fixpoint string_ltb (a b : string) : bool :=
  match a, b with
  | _, EmptyString => false
  | EmptyString, String _ _ => true
  | String x a', String y b' =>
      (nat_of_ascii x <? nat_of_ascii y)%nat
      || ((nat_of_ascii x =? nat_of_ascii y)%nat && string_ltb a' b')
  end.

Fixpoint insert_by_key (kv : string * string) (l : list (string * string))
    : list (string * string) :=
  match l with
  | [] => [kv]
  | kv' :: l' =>
      if string_ltb (fst kv) (fst kv') then kv :: l else kv' :: insert_by_key kv l'
  end.

Definition in_key_order (headers : gmap string string) : list (string * string) :=
  foldr insert_by_key [] (map_to_list headers).

(** ** SHA-1 and base64 *)

Definition byte_values (s : string) : list Z :=
  map (fun c => Z.of_nat (nat_of_ascii c)) (list_ascii_of_string s).

Module SHA1.

Definition w32 (x : Z) : Z := (x mod 2 ^ 32)%Z.
Definition rotl (n x : Z) : Z := w32 (Z.lor (Z.shiftl x n) (Z.shiftr x (32 - n))).

(** Big-endian bytes of the 64-bit bit count. *)
Definition length_bytes (bits : Z) : list Z :=
  map (fun i => (Z.shiftr bits (8 * (7 - Z.of_nat i)) mod 256)%Z) (seq 0 8).

(** The message, the 0x80 marker, zeros up to 56 modulo 64, the length. *)
Definition pad (msg : list Z) : list Z :=
  let n := Z.of_nat (length msg) in
  let zeros := Z.to_nat ((55 - n) mod 64) in
  msg ++ [128%Z] ++ replicate zeros 0%Z ++ length_bytes (8 * n).

Fixpoint words (bytes : list Z) : list Z :=
  match bytes with
  | a :: b :: c :: d :: rest =>
      (a * 2 ^ 24 + b * 2 ^ 16 + c * 2 ^ 8 + d)%Z :: words rest
  | _ => []
  end.

(** The message schedule, latest word first: [n] more words from the ones
    in [ws]. *)
Fixpoint extend (n : nat) (ws : list Z) : list Z :=
  match n with
  | O => ws
  | S n' =>
      let w := rotl 1 (Z.lxor (Z.lxor (nth 2 ws 0%Z) (nth 7 ws 0%Z))
                              (Z.lxor (nth 13 ws 0%Z) (nth 15 ws 0%Z))) in
      extend n' (w :: ws)
  end.

Definition schedule (block : list Z) : list Z := rev (extend 64 (rev block)).

Definition H5 : Type := Z * Z * Z * Z * Z.

Definition f (t : nat) (b c d : Z) : Z :=
  if (t <? 20)%nat then Z.lor (Z.land b c) (Z.land (Z.lxor b (2 ^ 32 - 1)) d)
  else if (t <? 40)%nat then Z.lxor (Z.lxor b c) d
  else if (t <? 60)%nat then Z.lor (Z.lor (Z.land b c) (Z.land b d)) (Z.land c d)
  else Z.lxor (Z.lxor b c) d.

Definition K (t : nat) : Z :=
  if (t <? 20)%nat then 0x5A827999
  else if (t <? 40)%nat then 0x6ED9EBA1
  else if (t <? 60)%nat then 0x8F1BBCDC
  else 0xCA62C1D6.

Fixpoint rounds (t : nat) (ws : list Z) (v : H5) : H5 :=
  match ws with
  | [] => v
  | w :: ws' =>
      let '(a, b, c, d, e) := v in
      let temp := w32 (rotl 5 a + f t b c d + e + w + K t) in
      rounds (S t) ws' (temp, a, rotl 30 b, c, d)
  end.

Definition process_block (h : H5) (block : list Z) : H5 :=
  let '(h0, h1, h2, h3, h4) := h in
  let '(a, b, c, d, e) := rounds 0 (schedule block) h in
  (w32 (h0 + a), w32 (h1 + b), w32 (h2 + c), w32 (h3 + d), w32 (h4 + e)).

Fixpoint blocks (fuel : nat) (ws : list Z) : list (list Z) :=
  match fuel, ws with
  | S fuel', _ :: _ => take 16 ws :: blocks fuel' (drop 16 ws)
  | _, _ => []
  end.

Definition initial : H5 :=
  (0x67452301, 0xEFCDAB89, 0x98BADCFE, 0x10325476, 0xC3D2E1F0)%Z.

(** Modelled from the spec: the SHA-1 primitive (FIPS 180-1), declared in
    sha1/sha1.h.  The digest as the five 32-bit words the class hands to
    [Result]. *)
Definition digest (msg : list Z) : list Z :=
  let ws := words (pad msg) in
  let '(h0, h1, h2, h3, h4) := foldl process_block initial (blocks (length ws) ws) in
  [h0; h1; h2; h3; h4].

(** Modelled from the spec: [Reset], [operator<<] on a C string and
    [Result].  [Result] reports failure when the message is too long for
    SHA-1, that is 2^64 bits or more. *)
Definition Result (cstr : string) : option (list Z) :=
  let msg := byte_values cstr in
  if (8 * Z.of_nat (length msg) <? 2 ^ 64)%Z then Some (digest msg) else None.

End SHA1.

(** Modelled from the spec: the base64 primitive, declared in
    base64/base64.h (RFC 4648 alphabet, padded with '='). *)
Definition base64_chars : string :=
  "ABCDEFGHIJKLMNOPQRSTUVWXYZabcdefghijklmnopqrstuvwxyz0123456789+/".

Definition base64_char (n : Z) : ascii :=
  default "="%char (String.get (Z.to_nat n) base64_chars).

Fixpoint base64_encode (bytes : list Z) : string :=
  match bytes with
  | [] => EmptyString
  | [a] =>
      String (base64_char (a / 4)) (String (base64_char (a mod 4 * 16)) "==")
  | [a; b] =>
      String (base64_char (a / 4))
        (String (base64_char (a mod 4 * 16 + b / 16))
           (String (base64_char (b mod 16 * 4)) "="))
  | a :: b :: c :: rest =>
      String (base64_char (a / 4))
        (String (base64_char (a mod 4 * 16 + b / 16))
           (String (base64_char (b mod 16 * 4 + c / 64))
              (String (base64_char (c mod 64)) (base64_encode rest))))
  end%Z.

(** The 20 bytes of the digest in network byte order. *)
Definition big_endian_bytes (w : Z) : list Z :=
  [w / 2 ^ 24 mod 256; w / 2 ^ 16 mod 256; w / 2 ^ 8 mod 256; w mod 256]%Z.

Definition GUID : string := "258EAFA5-E914-47DA-95CA-C5AB0DC85B11".

(** ** What the session takes from the rest of the library

    The endpoint policy (a template parameter in the source), the
    connection handler and the helpers declared in headers the session only
    includes.  Every theorem below holds for all instances. *)
Class endpoint_policy := {
  (** [endpoint_type::is_server] *)
  is_server : bool;
  (** [m_endpoint->validate_host(h)] *)
  validate_host : string -> bool;
  (** [m_local_interface->validate(session)]: [None] when it returns, or
      the exception it throws to reject the handshake *)
  handler_validate : session -> option exn;
  (** [close::status::invalid] and [close::status::reserved] *)
  invalid : Z -> bool;
  reserved : Z -> bool;
  (** [utf8_validator]: its two named states and one step of [decode] on
      (state, codepoint, byte) *)
  UTF8_ACCEPT : Z;
  UTF8_REJECT : Z;
  decode : Z -> Z -> byte -> Z * Z;
  (** the message of the exception [validate_utf8] throws *)
  utf8_what : string;
  (** the code of a [frame::exception] built from a message alone *)
  default_code : error.value;
  (** [frame::parser::print_frame] *)
  print_frame : out_frame -> string;
  (** how [this], [m_socket.remote_endpoint()] and an error code print *)
  this_ptr : string;
  remote_endpoint : string;
  show_error_code : error_code -> string;
  (** [lookup_http_error_string] *)
  lookup_http_error_string : Z -> string;
  (** byte order of the host, for [htonl] and the digest's memory image *)
  little_endian_host : bool
}.

Section Session.
Context `{endpoint_policy}.

(** *** Logging *)

Definition log (msg : string) (level : log_level) : M unit := emit (Elog msg level).
Definition access_log (msg : string) (level : alog_level) : M unit :=
  emit (Eaccess_log msg level).

Definition log_error (msg : string) (e : error_code) : M unit :=
  log ("[Connection " +:+ this_ptr +:+ "] " +:+ msg +:+ " (" +:+ show_error_code e +:+ ")")
      LOG_ERROR.

(** *** Timer and socket *)

(** [expires_from_now] drops any pending wait; [async_wait] arms one. *)
Definition timer_expires_from_now (ms : Z) : M unit :=
  modify (with_timer None);; emit (Etimer_expires_from_now ms).
Definition timer_async_wait (h : timer_handler) : M unit :=
  modify (with_timer (Some h));; emit (Etimer_async_wait h).
Definition timer_cancel : M unit :=
  modify (with_timer None);; emit Etimer_cancel.

(** [m_socket.remote_endpoint()]: the address of the peer while the
    socket is connected.  On a closed socket the call throws
    [system_error] with bad_descriptor, and on a socket whose peer is gone
    with the error the socket reports. *)
Definition ec_bad_descriptor : error_code := ec_other 9.

Definition socket_remote_endpoint : M string :=
  s <- get;;
  match m_socket s with
  | sock_connected => ret remote_endpoint
  | sock_closed => throw (system_error ec_bad_descriptor)
  | sock_failing e => throw (system_error e)
  end.

(** [if (m_socket.is_open()) { shutdown(shutdown_both); close(); }] *)
Definition socket_shutdown_and_close : M unit :=
  s <- get;;
  match m_socket s with
  | sock_closed => ret tt
  | sock_connected =>
      emit Esocket_shutdown;; emit Esocket_close;; modify (with_socket sock_closed)
  | sock_failing e => throw (system_error e)
  end.

Definition drop_tcp (dropped_by_me : bool) : M unit :=
  timer_cancel;;
  try_catch socket_shutdown_and_close
    (fun e => match e with
              | system_error c =>
                  Some (if bool_decide (c = ec_not_connected) then ret tt else throw e)
              | _ => None
              end);;
  modify (upd_close (with_dropped_by_me dropped_by_me));;
  modify (with_state state.CLOSED).

(** *** Writing frames *)

(** [m_write_frame.process_payload()] and the header and payload buffers
    belong to the frame codec; the write is recorded with the frame's
    fields as the session set them. *)
Definition write_frame : M unit :=
  when (negb is_server) (modify (upd_write_frame (set_masked true)));;
  s <- get;;
  log ("Write Frame: " +:+ print_frame (m_write_frame s)) LOG_DEBUG;;
  modify (with_writing true);;
  emit (Easync_write_frame (m_write_frame s)).

Definition handle_write_frame (error : error_code) : M unit :=
  when (is_error error)
    (log_error "Error writing frame data" error;; drop_tcp false);;
  access_log "handle_write_frame complete" ALOG_FRAME;;
  modify (with_writing false).

(** *** Session interface: send, ping, pong, close *)

Definition send (msg : string) : M unit :=
  s <- get;;
  if negb (state.eqb (m_state s) state.OPEN) then
    log "Tried to send a message from a session that wasn't open" LOG_WARN
  else
    modify (upd_write_frame (set_fin true));;
    modify (upd_write_frame (set_opcode opcode.TEXT));;
    modify (upd_write_frame (set_payload (list_byte_of_string msg)));;
    write_frame.

Definition send_data (data : list byte) : M unit :=
  s <- get;;
  if negb (state.eqb (m_state s) state.OPEN) then
    log "Tried to send a message from a session that wasn't open" LOG_WARN
  else
    modify (upd_write_frame (set_fin true));;
    modify (upd_write_frame (set_opcode opcode.BINARY));;
    modify (upd_write_frame (set_payload data));;
    write_frame.

Definition ping (msg : string) : M unit :=
  s <- get;;
  if negb (state.eqb (m_state s) state.OPEN) then
    log "Tried to send a ping from a session that wasn't open" LOG_WARN
  else
    modify (upd_write_frame (set_fin true));;
    modify (upd_write_frame (set_opcode opcode.PING));;
    modify (upd_write_frame (set_payload (list_byte_of_string msg)));;
    write_frame.

Definition pong (msg : string) : M unit :=
  s <- get;;
  if negb (state.eqb (m_state s) state.OPEN) then
    log "Tried to send a pong from a session that wasn't open" LOG_WARN
  else
    modify (upd_write_frame (set_fin true));;
    modify (upd_write_frame (set_opcode opcode.PONG));;
    modify (upd_write_frame (set_payload (list_byte_of_string msg)));;
    write_frame.

Definition validate_app_close_status (status : Z) : bool :=
  if (status =? close_status.NORMAL)%Z then true
  else if ((4000 <=? status) && (status <? 5000))%Z then true
  else false.

(** The argument [send_close] gives to [m_write_frame.set_status]. *)
Definition close_frame_status (status : Z) (reason : string) : Z * string :=
  if (status =? close_status.NO_STATUS)%Z then (close_status.NORMAL, "")
  else if (status =? close_status.ABNORMAL_CLOSE)%Z then
    (close_status.POLICY_VIOLATION, reason)
  else if invalid status then (close_status.PROTOCOL_ERROR, "Status code is invalid")
  else if reserved status then (close_status.PROTOCOL_ERROR, "Status code is reserved")
  else (status, reason).

Definition send_close (status : Z) (reason : string) : M unit :=
  s <- get;;
  if negb (state.eqb (m_state s) state.OPEN) then
    log "Tried to disconnect a session that wasn't open" LOG_WARN
  else
    modify (with_state state.CLOSING);;
    timer_expires_from_now 1000;;
    timer_async_wait close_expired;;
    modify (upd_close (with_local_close status reason));;
    modify (upd_write_frame (set_fin true));;
    modify (upd_write_frame (set_opcode opcode.CLOSE));;
    (if (status =? close_status.NO_STATUS)%Z then
       modify (upd_write_frame (set_status close_status.NORMAL ""))
     else if (status =? close_status.ABNORMAL_CLOSE)%Z then
       modify (upd_write_frame (set_status close_status.POLICY_VIOLATION reason))
     else if invalid status then
       modify (upd_write_frame (set_status close_status.PROTOCOL_ERROR "Status code is invalid"))
     else if reserved status then
       modify (upd_write_frame (set_status close_status.PROTOCOL_ERROR "Status code is reserved"))
     else
       modify (upd_write_frame (set_status status reason)));;
    write_frame.

(** The result of [validate_app_close_status] is not used. *)
Definition close (status : Z) (reason : string) : M unit :=
  let _ := validate_app_close_status status in
  send_close status reason.

(** *** Message assembly *)

Definition reset_message : M unit :=
  modify (upd_message (with_error false));;
  modify (upd_message (with_fragmented false));;
  modify (upd_message (with_current_message []));;
  modify (upd_message (with_utf8 UTF8_ACCEPT 0)).

Definition extract_payload : M unit :=
  modify (fun s =>
    upd_message
      (with_current_message
         (m_current_message (m_message s) ++ get_payload (m_read_frame s))) s).

(** Modelled from the spec: [frame::parser::validate_utf8], declared in
    websocket_frame.hpp.  Every payload byte is fed to the validator
    through the two pointers; the frame is failed with PAYLOAD_VIOLATION as
    soon as the validator is in its REJECT state (section 4.3, "early
    rejection", and section 7, PayloadViolation). *)
Fixpoint validate_utf8_bytes (payload : list byte) (st cp : Z) : Z * Z * bool :=
  match payload with
  | [] => (st, cp, true)
  | b :: rest =>
      let '(st', cp') := decode st cp b in
      if (st' =? UTF8_REJECT)%Z then (st', cp', false)
      else validate_utf8_bytes rest st' cp'
  end.

Definition validate_utf8 : M unit :=
  s <- get;;
  let '(st, cp, ok) :=
    validate_utf8_bytes (get_payload (m_read_frame s))
      (m_utf8_state (m_message s)) (m_utf8_codepoint (m_message s)) in
  modify (upd_message (with_utf8 st cp));;
  if ok then ret tt
  else throw (frame_exception utf8_what error.PAYLOAD_VIOLATION).

Definition deliver_message : M unit :=
  s <- get;;
  if negb (m_local_interface s) then ret tt
  else
    match m_current_opcode (m_message s) with
    | opcode.BINARY =>
        if m_fragmented (m_message s) then
          emit (Eon_message_binary (m_current_message (m_message s)))
        else
          emit (Eon_message_binary (get_payload (m_read_frame s)))
    | opcode.TEXT =>
        if negb (m_utf8_state (m_message s) =? UTF8_ACCEPT)%Z then
          throw (frame_exception "Invalid UTF-8 Data" error.PAYLOAD_VIOLATION)
        else
          let msg :=
            if m_fragmented (m_message s) then
              string_of_list_byte (m_current_message (m_message s))
            else
              string_of_list_byte (get_payload (m_read_frame s)) in
          emit (Eon_message_text msg)
    | o =>
        throw (frame_exception
                 ("Attempted to deliver a message of unsupported opcode "
                    +:+ pretty (opcode.to_Z o))
                 error.SOFT_SESSION_ERROR)
    end.

Definition process_binary : M unit :=
  s <- get;;
  if m_fragmented (m_message s) then
    throw (frame_exception "Got a new message before the previous was finished."
             error.PROTOCOL_VIOLATION)
  else
    modify (upd_message (with_current_opcode (get_opcode (m_read_frame s))));;
    if get_fin (m_read_frame s) then
      deliver_message;; reset_message
    else
      modify (upd_message (with_fragmented true));;
      extract_payload.

Definition process_text : M unit :=
  validate_utf8;;
  process_binary.

Definition process_continuation : M unit :=
  s <- get;;
  if negb (m_fragmented (m_message s)) then
    throw (frame_exception "Got a continuation frame without an outstanding message."
             error.PROTOCOL_VIOLATION)
  else
    when (opcode.eqb (m_current_opcode (m_message s)) opcode.TEXT) validate_utf8;;
    extract_payload;;
    when (get_fin (m_read_frame s)) (deliver_message;; reset_message).

Definition process_ping : M unit :=
  access_log "Ping" ALOG_MISC_CONTROL;;
  s <- get;;
  modify (upd_write_frame (set_fin true));;
  modify (upd_write_frame (set_opcode opcode.PONG));;
  modify (upd_write_frame (set_payload (get_payload (m_read_frame s))));;
  write_frame.

Definition process_pong : M unit :=
  access_log "Pong" ALOG_MISC_CONTROL.

Definition process_close : M unit :=
  modify (fun s =>
    upd_close (with_remote_close (get_close_status (m_read_frame s))
                                 (get_close_msg (m_read_frame s))) s);;
  s <- get;;
  match m_state s with
  | state.OPEN =>
      log "process_close sending ack" LOG_DEBUG;;
      modify (upd_close (with_closed_by_me false));;
      send_close (m_remote_close_code (m_close s)) (m_remote_close_msg (m_close s))
  | state.CLOSING =>
      log "process_close got ack" LOG_DEBUG;;
      modify (upd_close (with_closed_by_me true))
  | _ =>
      throw (frame_exception "process_closed called from wrong state" default_code)
  end;;
  modify (upd_close (with_was_clean true));;
  modify (with_state state.CLOSED).

Definition process_frame : M unit :=
  log "process_frame" LOG_DEBUG;;
  s <- get;;
  match m_state s with
  | state.OPEN =>
      match get_opcode (m_read_frame s) with
      | opcode.CONTINUATION => process_continuation
      | opcode.TEXT => process_text
      | opcode.BINARY => process_binary
      | opcode.CLOSE => log "process_close" LOG_DEBUG;; process_close
      | opcode.PING => process_ping
      | opcode.PONG => process_pong
      | opcode.RESERVED _ =>
          throw (frame_exception "Invalid Opcode" error.PROTOCOL_VIOLATION)
      end
  | state.CLOSING =>
      if opcode.eqb (get_opcode (m_read_frame s)) opcode.CLOSE then process_close
      else log "ignoring this frame" LOG_DEBUG
  | _ =>
      throw (frame_exception "process_frame called from invalid state" default_code)
  end;;
  modify (upd_read_frame reset).

(** *** Reading frames *)

Definition log_close_result : M unit :=
  s <- get;;
  let c := m_close s in
  access_log
    ("[Connection " +:+ this_ptr +:+ "] "
       +:+ (if m_was_clean c then "Clean " else "Unclean ")
       +:+ "close local:[" +:+ pretty (m_local_close_code c)
       +:+ (if String.eqb (m_local_close_msg c) "" then "" else "," +:+ m_local_close_msg c)
       +:+ "] remote:[" +:+ pretty (m_remote_close_code c)
       +:+ (if String.eqb (m_remote_close_msg c) "" then "" else "," +:+ m_remote_close_msg c)
       +:+ "]")
    ALOG_DISCONNECT.

Definition consume (c : chunk) : M unit :=
  match chunk_result c with
  | consumed f => modify (upd_read_frame (fun _ => f))
  | consume_throws what code => throw (frame_exception what code)
  end.

(** The [try] block of the read loop, for the chunk [c] at the head of the
    buffer; [rest] is what [consume] leaves in [m_buf]. *)
Definition read_frame_body (c : chunk) (rest : list chunk) : M unit :=
  s <- get;;
  if (get_bytes_needed (m_read_frame s) =? 0)%Z then
    throw (frame_exception "have bytes that no frame needs" error.FATAL_SESSION_ERROR)
  else
    modify (with_buf rest);;
    consume c;;
    s' <- get;;
    when (ready (m_read_frame s'))
      (log ("processing frame " +:+ pretty (buf_size (m_buf s'))) LOG_DEBUG;;
       timer_cancel;;
       process_frame).

Inductive loop_control := loop_continue | loop_break.

(** The [catch (const frame::exception& e)] block of the read loop. *)
Definition catch_frame_exception (what : string) (code : error.value) : M loop_control :=
  access_log what ALOG_FRAME;;
  log ("Caught frame exception: " +:+ what) LOG_ERROR;;
  s <- get;;
  when (ready (m_read_frame s)) (modify (upd_read_frame reset));;
  if error.eqb code error.PROTOCOL_VIOLATION then
    send_close close_status.PROTOCOL_ERROR what;; ret loop_break
  else if error.eqb code error.PAYLOAD_VIOLATION then
    send_close close_status.INVALID_PAYLOAD what;; ret loop_break
  else if error.eqb code error.INTERNAL_SERVER_ERROR then
    send_close close_status.ABNORMAL_CLOSE what;; ret loop_break
  else if error.eqb code error.SOFT_SESSION_ERROR then
    ret loop_continue
  else
    log "Dropping TCP due to unrecoverable exception" LOG_DEBUG;;
    drop_tcp true;; ret loop_break.

(** [while (m_buf.size() > 0 && m_state != state::CLOSED)].  An iteration
    that goes on to the next one has consumed its chunk: the only throw
    that leaves the buffer untouched is the fatal one, which breaks. *)
Fixpoint read_loop (buf : list chunk) : M unit :=
  match buf with
  | [] => ret tt
  | c :: rest =>
      s <- get;;
      if state.eqb (m_state s) state.CLOSED then ret tt
      else
        ctl <- try_catch (read_frame_body c rest;; ret loop_continue)
                 (fun e => match e with
                           | frame_exception what code =>
                               Some (catch_frame_exception what code)
                           | _ => None
                           end);;
        match ctl with
        | loop_continue => read_loop rest
        | loop_break => ret tt
        end
  end.

Definition handle_read_frame (error : error_code) : M unit :=
  s <- get;;
  if negb (state.eqb (m_state s) state.OPEN) && negb (state.eqb (m_state s) state.CLOSING)
  then log "handle_read_frame called in invalid state" LOG_ERROR
  else if is_error error && bool_decide (error = ec_operation_aborted) then ret tt
  else
    (if negb (is_error error) then ret tt
     else if bool_decide (error = ec_eof) then log_error "Recieved EOF" error
     else log_error "Error reading frame" error;; modify (with_state state.CLOSED));;
    s1 <- get;;
    read_loop (m_buf s1);;
    when (bool_decide (error = ec_eof)) (modify (with_state state.CLOSED));;
    s2 <- get;;
    if (state.eqb (m_state s2) state.OPEN || state.eqb (m_state s2) state.CLOSING)
       && (0 <? get_bytes_needed (m_read_frame s2))%Z
    then
      log ("starting async read for " +:+ pretty (get_bytes_needed (m_read_frame s2))
             +:+ " bytes.") LOG_DEBUG;;
      emit Easync_read
    else if state.eqb (m_state s2) state.CLOSED then
      log_close_result;;
      when (m_local_interface s2) (emit Eon_close);;
      timer_cancel
    else
      log "handle_read_frame called in invalid state" LOG_ERROR.

Definition read_frame : M unit := handle_read_frame ec_success.

(** *** Timer completions *)

Definition handle_handshake_expired (error : error_code) : M unit :=
  if is_error error then
    when (negb (bool_decide (error = ec_operation_aborted)))
      (log "Unexpected handshake timer error." LOG_DEBUG;; drop_tcp true)
  else
    log "Handshake timed out" LOG_DEBUG;; drop_tcp true.

Definition handle_close_expired (error : error_code) : M unit :=
  if is_error error then
    if bool_decide (error = ec_operation_aborted) then log "timer was aborted" LOG_DEBUG
    else log "Unexpected close timer error." LOG_DEBUG;; drop_tcp false
  else
    s <- get;;
    when (negb (state.eqb (m_state s) state.CLOSED))
      (log "close timed out" LOG_DEBUG;; drop_tcp false).

(** *** Opening handshake *)

Definition get_client_header (key : string) (s : session) : string :=
  get_header key (m_client_headers (m_handshake s)).

Definition get_server_header (key : string) (s : session) : string :=
  get_header key (m_server_headers (m_handshake s)).

Definition set_header (key val : string) : M unit :=
  modify (upd_handshake (fun h => with_server_headers (<[key := val]> (m_server_headers h)) h)).

Definition log_open_result : M unit :=
  s <- get;;
  remote_endpoint <- socket_remote_endpoint;;
  access_log
    ("[Connection " +:+ this_ptr +:+ "] " +:+ remote_endpoint
       +:+ " v" +:+ pretty (m_version (m_handshake s)) +:+ " "
       +:+ (if String.eqb (get_client_header "User-Agent" s) "" then "NULL"
            else get_client_header "User-Agent" s)
       +:+ " " +:+ m_resource (m_handshake s)
       +:+ " " +:+ pretty (m_server_http_code (m_handshake s)))
    ALOG_HANDSHAKE.

(** "check the method" and "check the HTTP version"; on success the
    resource is recorded. *)
Definition check_request_line : M unit :=
  s <- get;;
  let req := m_client_http_request (m_handshake s) in
  if negb (String.eqb (substr req 0 4) "GET ") then
    throw (handshake_error ("Websocket handshake has invalid method: " +:+ substr req 0 4)
             400 "")
  else
    match find " HTTP/1.1" 4 req with
    | None => throw (handshake_error "Websocket handshake has invalid HTTP version" 400 "")
    | Some end_ => modify (upd_handshake (with_resource (substr req 4 (end_ - 4))))
    end.

Definition check_host : M unit :=
  s <- get;;
  let h := get_client_header "Host" s in
  if String.eqb h "" then
    throw (handshake_error "Required Host header is missing" 400 "")
  else
    emit (Evalidate_host h);;
    if negb (validate_host h) then
      throw (handshake_error ("Host " +:+ h +:+ " is not one of this server's names.") 400 "")
    else ret tt.

Definition check_upgrade : M unit :=
  s <- get;;
  let h := get_client_header "Upgrade" s in
  if String.eqb h "" then
    throw (handshake_error "Required Upgrade header is missing" 400 "")
  else if negb (iequals h "websocket") then
    throw (handshake_error
             ("Upgrade header was " +:+ h +:+ " instead of " +:+ dquote +:+ "websocket" +:+ dquote)
             400 "")
  else ret tt.

Definition check_connection : M unit :=
  s <- get;;
  let h := get_client_header "Connection" s in
  if String.eqb h "" then
    throw (handshake_error "Required Connection header is missing" 400 "")
  else if negb (ifind_first h "upgrade") then
    throw (handshake_error
             ("Connection header, " +:+ dquote +:+ h +:+ dquote
                +:+ ", does not contain required token " +:+ dquote +:+ "upgrade" +:+ dquote)
             400 "")
  else ret tt.

Definition check_key : M unit :=
  s <- get;;
  if String.eqb (get_client_header "Sec-WebSocket-Key" s) "" then
    throw (handshake_error "Required Sec-WebSocket-Key header is missing" 400 "")
  else ret tt.

Definition check_version : M unit :=
  s <- get;;
  let h := get_client_header "Sec-WebSocket-Version" s in
  if String.eqb h "" then
    throw (handshake_error "Required Sec-WebSocket-Version header is missing" 400 "")
  else
    let v := to_unsigned (atoi (c_str h)) in
    modify (upd_handshake (with_version v));;
    if negb (v =? 7)%Z && negb (v =? 8)%Z && negb (v =? 13)%Z then
      throw (handshake_error
               ("This server doesn't support WebSocket protocol version " +:+ pretty v)
               400 "")
    else ret tt.

Definition record_origin : M unit :=
  s <- get;;
  let h :=
    if (m_version (m_handshake s) <? 13)%Z then get_client_header "Sec-WebSocket-Origin" s
    else get_client_header "Origin" s in
  if negb (String.eqb h "") then modify (upd_handshake (with_origin h)) else ret tt.

(** "optional headers (delegated to the local interface)" *)
Definition delegate_validate : M unit :=
  s <- get;;
  if m_local_interface s then
    emit Evalidate;;
    match handler_validate s with
    | Some e => throw e
    | None => ret tt
    end
  else ret tt.

(** The [try] block of [handle_read_handshake]. *)
Definition handshake_checks : M unit :=
  check_request_line;;
  check_host;;
  check_upgrade;;
  check_connection;;
  check_key;;
  check_version;;
  record_origin;;
  delegate_validate;;
  modify (upd_handshake (with_server_http 101 "Switching Protocols")).

Definition htonl (x : Z) : Z :=
  if little_endian_host then
    (x mod 256 * 2 ^ 24 + x / 2 ^ 8 mod 256 * 2 ^ 16 + x / 2 ^ 16 mod 256 * 2 ^ 8
       + x / 2 ^ 24 mod 256)%Z
  else x.

(** The bytes of a [uint32_t] in address order, as [reinterpret_cast] to
    [const unsigned char*] reads them. *)
Definition memory_bytes (x : Z) : list Z :=
  if little_endian_host then
    [x mod 256; x / 2 ^ 8 mod 256; x / 2 ^ 16 mod 256; x / 2 ^ 24 mod 256]%Z
  else big_endian_bytes x.

Definition write_handshake : M unit :=
  s <- get;;
  (if (m_server_http_code (m_handshake s) =? 101)%Z then
     let server_key := get_client_header "Sec-WebSocket-Key" s +:+ GUID in
     match SHA1.Result (c_str server_key) with
     | Some message_digest =>
         let message_digest := map htonl message_digest in
         let server_key := base64_encode (concat (map memory_bytes message_digest)) in
         set_header "Sec-WebSocket-Accept" server_key;;
         set_header "Upgrade" "websocket";;
         set_header "Connection" "Upgrade"
     | None =>
         log "Error computing handshake sha1 hash." LOG_ERROR;;
         modify (upd_handshake (with_server_http 500 ""))
     end
   else ret tt);;
  set_header "Server" "WebSocket++/2011-09-25";;
  s <- get;;
  let hs := m_handshake s in
  let raw :=
    "HTTP/1.1 " +:+ pretty (m_server_http_code hs) +:+ " "
      +:+ (if negb (String.eqb (m_server_http_string hs) "") then m_server_http_string hs
           else lookup_http_error_string (m_server_http_code hs))
      +:+ CRLF
      +:+ foldr (fun kv acc => fst kv +:+ ": " +:+ snd kv +:+ CRLF +:+ acc) CRLF
            (in_key_order (m_server_headers hs)) in
  modify (upd_handshake (with_raw_server raw));;
  emit (Easync_write_handshake raw).

(** [incoming] is what [m_buf] holds when the read completes; the handler
    moves all of it to [m_raw_client_handshake], cuts it into lines and
    fills [m_client_http_request] and [m_client_headers]. *)
Definition parse_handshake (incoming : string) : M unit :=
  s <- get;;
  let raw := m_raw_client_handshake (m_handshake s) +:+ incoming in
  access_log raw ALOG_HANDSHAKE;;
  let tokens := tokens_of raw in
  let request :=
    match tokens with
    | t :: _ => t
    | [] => m_client_http_request (m_handshake s)
    end in
  let headers := foldl add_header_line (m_client_headers (m_handshake s)) tokens in
  modify (upd_handshake (with_client raw request headers)).

(** [handshake_error::what()] returns [m_msg.c_str()]: what the catch
    block reads from it is the message up to its first NUL character. *)
Definition handshake_what (m_msg : string) : string := c_str m_msg.

(** "handshake error checking": the [try] block and its [catch]. *)
Definition validate_handshake : M unit :=
  try_catch handshake_checks
    (fun e => match e with
              | handshake_error m_msg code str =>
                  Some (access_log (handshake_what m_msg) ALOG_HANDSHAKE;;
                        log ("Caught handshake exception: " +:+ handshake_what m_msg)
                            LOG_ERROR;;
                        modify (upd_handshake (with_server_http (to_uint16 code) str)))
              | _ => None
              end).

Definition handle_read_handshake (incoming : string) : M unit :=
  parse_handshake incoming;;
  validate_handshake;;
  write_handshake.

Definition handle_write_handshake (error : error_code) : M unit :=
  if is_error error then
    log_error "Error writing handshake response" error;;
    drop_tcp true
  else
    log_open_result;;
    s <- get;;
    let hs := m_handshake s in
    if negb (m_server_http_code hs =? 101)%Z then
      log ("Handshake ended with HTTP error: " +:+ pretty (m_server_http_code hs) +:+ " "
             +:+ (if negb (String.eqb (m_server_http_string hs) "") then m_server_http_string hs
                  else lookup_http_error_string (m_server_http_code hs)))
          LOG_ERROR;;
      drop_tcp true
    else
      modify (with_state state.OPEN);;
      timer_cancel;;
      when (m_local_interface s) (emit Eon_open);;
      reset_message;;
      read_frame.

Definition read_handshake : M unit :=
  timer_expires_from_now 5000;;
  timer_async_wait handshake_expired;;
  emit Easync_read_until.

Definition on_connect : M unit := read_handshake.

(** *** Events

    What the io_service and the application do to a session: completion
    handlers run with the data that arrived, and the public operations are
    called. *)
Inductive event :=
| connected
| handshake_read (incoming : string)
| handshake_written (error : error_code)
| frames_read (error : error_code) (incoming : list chunk)
| frame_written (error : error_code)
| handshake_timer (error : error_code)
| close_timer (error : error_code)
| app_send (msg : string)
| app_send_data (data : list byte)
| app_ping (msg : string)
| app_pong (msg : string)
| app_close (status : Z) (reason : string).

Definition step (ev : event) : M unit :=
  match ev with
  | connected => on_connect
  | handshake_read incoming => handle_read_handshake incoming
  | handshake_written error => handle_write_handshake error
  | frames_read error incoming =>
      modify (fun s => with_buf (m_buf s ++ incoming) s);;
      handle_read_frame error
  | frame_written error => handle_write_frame error
  | handshake_timer error => handle_handshake_expired error
  | close_timer error => handle_close_expired error
  | app_send msg => send msg
  | app_send_data data => send_data data
  | app_ping msg => ping msg
  | app_pong msg => pong msg
  | app_close status reason => close status reason
  end.

Fixpoint run (evs : list event) : M unit :=
  match evs with
  | [] => ret tt
  | ev :: evs' => step ev;; run evs'
  end.

(** *** Construction

    The constructor's initialiser list.  [m_version], [m_server_http_code],
    [m_fragmented], [m_current_opcode] and [m_error] are not in it: they
    start with whatever values [junk] has.  The two parsers start as
    their own constructor leaves them. *)
Record uninitialised := {
  junk_version : Z;
  junk_http_code : Z;
  junk_fragmented : bool;
  junk_opcode : opcode.value;
  junk_error : bool
}.

(** Modelled from the spec: a parser is constructed in its first state,
    READ_SMALL_HEADER (section 4.2). *)
Definition new_parser : in_frame :=
  {| ready := false; get_bytes_needed := 2; get_fin := false;
     get_opcode := opcode.CONTINUATION; get_payload := [];
     get_close_status := close_status.NO_STATUS; get_close_msg := "" |}.

Definition new_writer : out_frame :=
  {| w_fin := false; w_opcode := opcode.CONTINUATION; w_masked := false;
     w_body := payload_bytes [] |}.

Definition new_session (defc : bool) (junk : uninitialised) : session :=
  {| m_state := state.CONNECTING;
     m_writing := false;
     m_handshake :=
       {| m_raw_client_handshake := ""; m_client_http_request := "";
          m_resource := ""; m_client_origin := ""; m_client_headers := ∅;
          m_version := junk_version junk;
          m_raw_server_handshake := ""; m_server_headers := ∅;
          m_server_http_code := junk_http_code junk; m_server_http_string := "" |};
     m_close :=
       {| m_local_close_code := close_status.NO_STATUS; m_local_close_msg := "";
          m_remote_close_code := close_status.NO_STATUS; m_remote_close_msg := "";
          m_was_clean := false; m_closed_by_me := false; m_dropped_by_me := false |};
     m_message :=
       {| m_utf8_state := UTF8_ACCEPT; m_utf8_codepoint := 0;
          m_current_message := []; m_fragmented := junk_fragmented junk;
          m_current_opcode := junk_opcode junk; m_error := junk_error junk |};
     m_socket := sock_connected;
     m_local_interface := defc;
     m_timer := None;
     m_buf := [];
     m_read_frame := new_parser;
     m_write_frame := new_writer;
     trace := [] |}.

End Session.

(** ** Projections of a trace *)

(** The messages handed to [on_message], in order. *)
Definition is_message (e : effect) : bool :=
  match e with
  | Eon_message_text _ | Eon_message_binary _ => true
  | _ => false
  end.

Definition messages (t : list effect) : list effect := filter is_message t.

(** The frames given to [async_write], in order. *)
Definition frames_written (t : list effect) : list out_frame :=
  omap (fun e => match e with Easync_write_frame f => Some f | _ => None end) t.

Definition is_on_open (e : effect) : bool :=
  match e with Eon_open => true | _ => false end.

Definition is_on_close (e : effect) : bool :=
  match e with Eon_close => true | _ => false end.

Definition count_on_open (t : list effect) : nat := length (filter is_on_open t).

Definition count_on_close (t : list effect) : nat := length (filter is_on_close t).

(** ** A concrete endpoint, for running the session *)

(** Modelled from the spec: the "incremental DFA" of [utf8_validator]
    (section 2), here Hoehrmann's table-driven decoder with states
    ACCEPT = 0 and REJECT = 1. *)
Definition utf8d : list Z :=
  concat
    [ replicate 128 0; replicate 16 1; replicate 16 9; replicate 32 7;
      [8; 8]; replicate 30 2;
      [10; 3; 3; 3; 3; 3; 3; 3; 3; 3; 3; 3; 3; 4; 3; 3];
      [11; 6; 6; 6; 5; 8; 8; 8; 8; 8; 8; 8; 8; 8; 8; 8];
      [0; 1; 2; 3; 5; 8; 7; 1; 1; 1; 4; 6; 1; 1; 1; 1];
      [1; 1; 1; 1; 1; 1; 1; 1; 1; 1; 1; 1; 1; 1; 1; 1];
      [1; 0; 1; 1; 1; 1; 1; 0; 1; 0; 1; 1; 1; 1; 1; 1];
      [1; 2; 1; 1; 1; 1; 1; 2; 1; 2; 1; 1; 1; 1; 1; 1];
      [1; 1; 1; 1; 1; 1; 1; 2; 1; 1; 1; 1; 1; 1; 1; 1];
      [1; 2; 1; 1; 1; 1; 1; 1; 1; 2; 1; 1; 1; 1; 1; 1];
      [1; 1; 1; 1; 1; 1; 1; 3; 1; 3; 1; 1; 1; 1; 1; 1];
      [1; 3; 1; 1; 1; 1; 1; 3; 1; 3; 1; 1; 1; 1; 1; 1];
      [1; 3; 1; 1; 1; 1; 1; 1; 1; 1; 1; 1; 1; 1; 1; 1] ]%Z.

Definition utf8_decode (st cp : Z) (b : byte) : Z * Z :=
  let v := Z.of_N (Byte.to_N b) in
  let type := nth (Z.to_nat v) utf8d 0%Z in
  let cp' :=
    if (st =? 0)%Z then Z.land (Z.shiftr 255 type) v
    else (Z.lor (Z.land v 63) (Z.shiftl cp 6) mod 2 ^ 32)%Z in
  (nth (Z.to_nat (256 + st * 16 + type)) utf8d 1%Z, cp').

(** Modelled from the spec: section 4.7, "invalid on wire" and
    "reserved-by-protocol" (the application range 4000-4999 left out). *)
Definition catalogue_invalid (c : Z) : bool :=
  ((c =? 1005) || (c =? 1006) || (c <? 0) || (65535 <? c))%Z.

Definition catalogue_reserved (c : Z) : bool :=
  (((0 <=? c) && (c <=? 999)) || ((1015 <=? c) && (c <=? 3999)) || (5000 <=? c))%Z.

Definition example_policy : endpoint_policy :=
  {| is_server := true;
     validate_host := fun h => String.eqb h "server.example.com";
     handler_validate := fun _ => None;
     invalid := catalogue_invalid;
     reserved := catalogue_reserved;
     UTF8_ACCEPT := 0;
     UTF8_REJECT := 1;
     decode := utf8_decode;
     utf8_what := "Invalid UTF-8 Data";
     default_code := error.FATAL_SESSION_ERROR;
     print_frame := fun _ => "frame";
     this_ptr := "0x0";
     remote_endpoint := "127.0.0.1:50000";
     show_error_code := fun _ => "system:0";
     lookup_http_error_string := fun c => if (c =? 400)%Z then "Bad Request" else "Unknown";
     little_endian_host := true |}.

Definition example_junk : uninitialised :=
  {| junk_version := 0; junk_http_code := 0; junk_fragmented := true;
     junk_opcode := opcode.RESERVED 15; junk_error := true |}.

(** The request of the handshake scenario (section 8, a). *)
Definition canonical_request : string :=
  "GET /chat HTTP/1.1" +:+ CRLF
  +:+ "Host: server.example.com" +:+ CRLF
  +:+ "Upgrade: websocket" +:+ CRLF
  +:+ "Connection: Upgrade" +:+ CRLF
  +:+ "Sec-WebSocket-Key: dGhlIHNhbXBsZSBub25jZQ==" +:+ CRLF
  +:+ "Origin: http://example.com" +:+ CRLF
  +:+ "Sec-WebSocket-Version: 13" +:+ CRLF
  +:+ CRLF.

(** A session of [example_policy] with a handler attached ([true]) or not,
    after the events [evs]. *)
Definition example_run (defc : bool) (evs : list event) : session :=
  exec (@run example_policy evs) (@new_session example_policy defc example_junk).

Definition opening : list event :=
  [connected; handshake_read canonical_request; handshake_written ec_success].

(** A session that has completed the canonical handshake. *)
Definition open_session : session := example_run true opening.

(** A decoded frame, as [consume] leaves the parser. *)
Definition decoded (fin : bool) (op : opcode.value) (payload : list byte) : in_frame :=
  {| ready := true; get_bytes_needed := 0; get_fin := fin; get_opcode := op;
     get_payload := payload; get_close_status := close_status.NO_STATUS;
     get_close_msg := "" |}.

Definition decoded_close (code : Z) (reason : string) : in_frame :=
  {| ready := true; get_bytes_needed := 0; get_fin := true; get_opcode := opcode.CLOSE;
     get_payload := []; get_close_status := code; get_close_msg := reason |}.

Definition arrives (f : in_frame) : chunk :=
  {| chunk_size := 2; chunk_result := consumed f |}.

(** ** Vocabulary of the properties *)

(** What may arrive between the first and the last frame of a fragmented
    message: a further fragment (CONTINUATION with fin = 0) or a PING or
    PONG control frame. *)
Inductive interleaved :=
| fragment (payload : list byte)
| ping_frame (payload : list byte)
| pong_frame (payload : list byte).

Definition interleaved_frame (b : interleaved) : in_frame :=
  match b with
  | fragment p => decoded false opcode.CONTINUATION p
  | ping_frame p => decoded true opcode.PING p
  | pong_frame p => decoded true opcode.PONG p
  end.

Definition fragment_bytes (b : interleaved) : list byte :=
  match b with
  | fragment p => p
  | _ => []
  end.

(** A data message as frames in wire order: one frame with fin = 1, or a
    first frame with fin = 0, what is interleaved, and the CONTINUATION
    frame with fin = 1. *)
Inductive wire_message :=
| whole (payload : list byte)
| in_fragments (first : list byte) (middle : list interleaved) (last : list byte).

Definition message_frames (op : opcode.value) (m : wire_message) : list in_frame :=
  match m with
  | whole p => [decoded true op p]
  | in_fragments first middle last =>
      decoded false op first
        :: (map interleaved_frame middle ++ [decoded true opcode.CONTINUATION last])%list
  end.

(** The payloads of the data frames, concatenated in wire order. *)
Definition message_bytes (m : wire_message) : list byte :=
  match m with
  | whole p => p
  | in_fragments first middle last =>
      (first ++ concat (map fragment_bytes middle) ++ last)%list
  end.

(** The [on_message] call that hands [bytes] to the handler. *)
Definition delivery (op : opcode.value) (bytes : list byte) : effect :=
  match op with
  | opcode.TEXT => Eon_message_text (string_of_list_byte bytes)
  | _ => Eon_message_binary bytes
  end.

(** A fragmented message of opcode [op] is in progress in an open session
    whose handler is attached or not, as [li] says: [acc] has been
    collected, the validator is at [(st, cp)] and [d] has been delivered. *)
Definition gathering (li : bool) (op : opcode.value) (acc : list byte) (st cp : Z)
    (d : list effect) (s : session) : Prop :=
  m_state s = state.OPEN /\ m_local_interface s = li /\
  m_fragmented (m_message s) = true /\ m_current_opcode (m_message s) = op /\
  m_current_message (m_message s) = acc /\
  m_utf8_state (m_message s) = st /\ m_utf8_codepoint (m_message s) = cp /\
  (0 < get_bytes_needed (m_read_frame s))%Z /\ messages (trace s) = d.

(** A chunk that the read loop gets through without an exception of the
    parser: it completes a frame, or it leaves the parser waiting for more
    bytes of the frame. *)
Definition feeds (c : chunk) : bool :=
  match chunk_result c with
  | consumed g => ready g || (0 <? get_bytes_needed g)%Z
  | consume_throws _ _ => false
  end.

(** The frames that the chunks complete, in order. *)
Definition completed (c : chunk) : option in_frame :=
  match chunk_result c with
  | consumed g => if ready g then Some g else None
  | consume_throws _ _ => None
  end.

Definition frames_in (cs : list chunk) : list in_frame := omap completed cs.

(** The reads bring the frames [fs] and nothing else, in any number of
    reads and with any number of calls of the parser for each frame. *)
Definition arrive (reads : list (list chunk)) (fs : list in_frame) : Prop :=
  forallb feeds (concat reads) = true /\ frames_in (concat reads) = fs.

(** The session as the read loop hands it to [process_frame] when the
    frame [f] has been decoded and [rest] is left in the buffer. *)
Definition arrival (f : in_frame) (rest : list chunk) (s : session) : session :=
  record Etimer_cancel
    (with_timer None
       (record (Elog ("processing frame " +:+ pretty (buf_size rest)) LOG_DEBUG)
          (upd_read_frame (fun _ => f) (with_buf rest s)))).

(** [process_frame] has thrown with the session still in OPEN, the frame
    still in the parser, and [d] delivered so far. *)
Definition thrown_in_open (d : list effect) (s : session) : Prop :=
  m_state s = state.OPEN /\ ready (m_read_frame s) = true /\ messages (trace s) = d.

(** The session has answered a payload violation: it is in CLOSING, its
    local close code is INVALID_PAYLOAD, the last frame written is a CLOSE
    frame carrying that code, and [d] is all that was ever delivered. *)
Definition closing_invalid_payload (d : list effect) (s : session) : Prop :=
  m_state s = state.CLOSING
  /\ m_local_close_code (m_close s) = close_status.INVALID_PAYLOAD
  /\ messages (trace s) = d
  /\ (0 < get_bytes_needed (m_read_frame s))%Z
  /\ exists f what,
       last (frames_written (trace s)) = Some f
       /\ w_fin f = true /\ w_opcode f = opcode.CLOSE
       /\ w_body f = payload_status close_status.INVALID_PAYLOAD what.

(** What a check that passes leaves unchanged: the request and its
    headers, the server half of the handshake and the handler. *)
Definition same_request (s s' : session) : Prop :=
  m_client_http_request (m_handshake s') = m_client_http_request (m_handshake s)
  /\ m_client_headers (m_handshake s') = m_client_headers (m_handshake s)
  /\ m_server_headers (m_handshake s') = m_server_headers (m_handshake s)
  /\ m_local_interface s' = m_local_interface s.

(** The five words of a SHA-1 state are 32-bit values. *)
Definition words_in_range (h : SHA1.H5) : Prop :=
  let '(a, b, c, d, e) := h in
  Forall (fun w => 0 <= w < 2 ^ 32)%Z [a; b; c; d; e].

Section Vocabulary.
Context `{endpoint_policy}.

(** An open session, its handler attached or not as [li] says, with no
    message in progress, as [reset_message] leaves it, its parser waiting
    for a frame header. *)
Definition waiting (li : bool) (s : session) : Prop :=
  m_state s = state.OPEN /\ m_local_interface s = li /\
  m_fragmented (m_message s) = false /\ m_current_message (m_message s) = [] /\
  m_utf8_state (m_message s) = UTF8_ACCEPT /\ m_utf8_codepoint (m_message s) = 0%Z /\
  (0 < get_bytes_needed (m_read_frame s))%Z.

(** The same with a handler attached. *)
Definition between_messages (s : session) : Prop := waiting true s.

(** What the validator has seen of a message of opcode [op] after the
    payload [p] of one more data frame: only TEXT is validated. *)
Definition validated (op : opcode.value) (p : list byte) (st cp : Z) : Z * Z * bool :=
  match op with
  | opcode.TEXT => validate_utf8_bytes p st cp
  | _ => (st, cp, true)
  end.

(** Where the assembler of a session stands, seen from the frames it has
    been given: no message in progress; a message of opcode [op] in
    progress, with the bytes collected and the validator's state; or the
    session has answered a payload violation and waits for the peer's
    CLOSE frame. *)
Inductive phase :=
| awaiting
| collecting (op : opcode.value) (acc : list byte) (st cp : Z)
| refused.

Definition in_phase (li : bool) (d : list effect) (ph : phase) (s : session) : Prop :=
  match ph with
  | awaiting => waiting li s /\ messages (trace s) = d
  | collecting op acc st cp =>
      (op = opcode.TEXT \/ op = opcode.BINARY) /\ gathering li op acc st cp d s
  | refused => closing_invalid_payload d s
  end.

(** The end of a message whose bytes [acc] left the validator in [st]:
    with a handler attached it is delivered, unless it is TEXT and the
    validator is not in ACCEPT; with none it is dropped unchecked. *)
Definition completion (li : bool) (op : opcode.value) (acc : list byte) (st : Z)
    : phase * list effect :=
  if li then
    if opcode.eqb op opcode.BINARY || (st =? UTF8_ACCEPT)%Z
    then (awaiting, [delivery op acc])
    else (refused, [])
  else (awaiting, []).

(** One more data frame with payload [p] of a message of opcode [op],
    [acc] collected so far and the validator at [(st, cp)]. *)
Definition data_step (li : bool) (op : opcode.value) (acc p : list byte) (st cp : Z)
    (fin : bool) : phase * list effect :=
  match validated op p st cp with
  | (st', cp', true) =>
      if fin then completion li op (acc ++ p) st'
      else (collecting op (acc ++ p) st' cp', [])
  | _ => (refused, [])
  end.

(** The phase after the frame [f] and what is delivered for it; [None]
    for a frame that is not part of a message or a PING or PONG among its
    frames. *)
Definition frame_step (li : bool) (ph : phase) (f : in_frame)
    : option (phase * list effect) :=
  match ph with
  | awaiting =>
      match get_opcode f with
      | opcode.TEXT => Some (data_step li opcode.TEXT [] (get_payload f) UTF8_ACCEPT 0 (get_fin f))
      | opcode.BINARY => Some (data_step li opcode.BINARY [] (get_payload f) UTF8_ACCEPT 0 (get_fin f))
      | opcode.PING | opcode.PONG => Some (awaiting, [])
      | _ => None
      end
  | collecting op acc st cp =>
      match get_opcode f with
      | opcode.CONTINUATION => Some (data_step li op acc (get_payload f) st cp (get_fin f))
      | opcode.PING | opcode.PONG => Some (ph, [])
      | _ => None
      end
  | refused =>
      match get_opcode f with
      | opcode.CLOSE => None
      | _ => Some (refused, [])
      end
  end.

Fixpoint feed (li : bool) (ph : phase) (fs : list in_frame) : option (phase * list effect) :=
  match fs with
  | [] => Some (ph, [])
  | f :: fs' =>
      match frame_step li ph f with
      | Some (ph1, d1) =>
          match feed li ph1 fs' with
          | Some (ph2, d2) => Some (ph2, (d1 ++ d2)%list)
          | None => None
          end
      | None => None
      end
  end.

(** The frame that takes the assembler from [ph] to [ph'] is refused:
    the read loop answers it and stops. *)
Definition breaks (ph ph' : phase) : bool :=
  match ph, ph' with
  | refused, _ => false
  | _, refused => true
  | _, _ => false
  end.

(** The session is on its way to the phase [target] with [total]
    delivered: it is in some phase with some of it delivered, and the
    frames in its buffer followed by the frames [future] take it from
    there to [target] and deliver the rest. *)
Definition heading (li : bool) (target : phase) (total : list effect)
    (future : list in_frame) (s : session) : Prop :=
  exists ph d more,
    in_phase li d ph s
    /\ forallb feeds (m_buf s) = true
    /\ feed li ph (frames_in (m_buf s) ++ future) = Some (target, more)
    /\ total = (d ++ more)%list.

(** Between two reads the buffer is empty, unless the read loop has
    stopped at a frame that it refused. *)
Definition drained (s : session) : Prop :=
  m_buf s = [] \/ m_state s = state.CLOSING.

(** The six checks of the handshake, as conditions on the parsed request. *)
Definition request_line_ok (s : session) : bool :=
  let req := m_client_http_request (m_handshake s) in
  String.eqb (substr req 0 4) "GET " && bool_decide (is_Some (find " HTTP/1.1" 4 req)).

Definition host_ok (s : session) : bool :=
  negb (String.eqb (get_client_header "Host" s) "")
  && validate_host (get_client_header "Host" s).

Definition upgrade_ok (s : session) : bool :=
  negb (String.eqb (get_client_header "Upgrade" s) "")
  && iequals (get_client_header "Upgrade" s) "websocket".

Definition connection_ok (s : session) : bool :=
  negb (String.eqb (get_client_header "Connection" s) "")
  && ifind_first (get_client_header "Connection" s) "upgrade".

Definition key_ok (s : session) : bool :=
  negb (String.eqb (get_client_header "Sec-WebSocket-Key" s) "").

Definition requested_version (s : session) : Z :=
  to_unsigned (atoi (c_str (get_client_header "Sec-WebSocket-Version" s))).

Definition version_ok (s : session) : bool :=
  negb (String.eqb (get_client_header "Sec-WebSocket-Version" s) "")
  && bool_decide (requested_version s ∈ [7; 8; 13]%Z).

(** The number (1 to 6) of the first check that fails, if any. *)
Definition first_failed_check (s : session) : option nat :=
  if negb (request_line_ok s) then Some 1%nat
  else if negb (host_ok s) then Some 2%nat
  else if negb (upgrade_ok s) then Some 3%nat
  else if negb (connection_ok s) then Some 4%nat
  else if negb (key_ok s) then Some 5%nat
  else if negb (version_ok s) then Some 6%nat
  else None.

(** The text the failed check gives [handshake_error]. *)
Definition failure_text (k : nat) (s : session) : string :=
  let req := m_client_http_request (m_handshake s) in
  match k with
  | 1%nat =>
      if String.eqb (substr req 0 4) "GET " then
        "Websocket handshake has invalid HTTP version"
      else "Websocket handshake has invalid method: " +:+ substr req 0 4
  | 2%nat =>
      if String.eqb (get_client_header "Host" s) "" then "Required Host header is missing"
      else "Host " +:+ get_client_header "Host" s +:+ " is not one of this server's names."
  | 3%nat =>
      if String.eqb (get_client_header "Upgrade" s) "" then
        "Required Upgrade header is missing"
      else "Upgrade header was " +:+ get_client_header "Upgrade" s +:+ " instead of "
             +:+ dquote +:+ "websocket" +:+ dquote
  | 4%nat =>
      if String.eqb (get_client_header "Connection" s) "" then
        "Required Connection header is missing"
      else "Connection header, " +:+ dquote +:+ get_client_header "Connection" s +:+ dquote
             +:+ ", does not contain required token " +:+ dquote +:+ "upgrade" +:+ dquote
  | 5%nat => "Required Sec-WebSocket-Key header is missing"
  | _ =>
      if String.eqb (get_client_header "Sec-WebSocket-Version" s) "" then
        "Required Sec-WebSocket-Version header is missing"
      else "This server doesn't support WebSocket protocol version "
             +:+ pretty (requested_version s)
  end.

(** The calls to the endpoint's [validate_host] made up to the failure of
    check [k]: one, unless the request line was bad or there is no Host. *)
Definition host_consulted (k : nat) (s : session) : list effect :=
  if (2 <=? k)%nat && negb (String.eqb (get_client_header "Host" s) "") then
    [Evalidate_host (get_client_header "Host" s)]
  else [].

End Vocabulary.

(** ** Concrete sessions *)

Definition hel : list byte := list_byte_of_string "Hel".

(** The canonical session after the application called [close]. *)
Definition closing_session : session :=
  example_run true (opening ++ [app_close close_status.NORMAL "bye"])%list.

(** The canonical session with the first fragment of a TEXT message in. *)
Definition mid_message : session :=
  example_run true
    (opening ++ [frames_read ec_success [arrives (decoded false opcode.TEXT hel)]])%list.

(** The canonical session of an endpoint that has no handler. *)
Definition headless_session : session := example_run false opening.

(** The canonical session when the peer never answers the CLOSE frame and
    the close timer runs out; then the read that was pending completes
    with operation_aborted. *)
Definition timed_out_session : session :=
  example_run true
    (opening ++ [app_close close_status.NORMAL "bye"; close_timer ec_success])%list.

Definition timed_out_then_aborted : session :=
  example_run true
    (opening ++ [app_close close_status.NORMAL "bye"; close_timer ec_success;
                 frames_read ec_operation_aborted []])%list.

(** [mid_message] with a TEXT frame of payload C0 AF in the parser. *)
Definition text_on_top : session :=
  arrival (decoded true opcode.TEXT [xc0; xaf]) [] mid_message.

(** The same two frames arriving in one read. *)
Definition text_on_top_run : session :=
  example_run true
    (opening ++ [frames_read ec_success
                   [arrives (decoded false opcode.TEXT hel);
                    arrives (decoded true opcode.TEXT [xc0; xaf])]])%list.

(** The handler-less session after a single-frame TEXT message whose
    payload, the byte C3, stops inside a two-byte code point. *)
Definition headless_incomplete : session :=
  example_run false
    (opening ++ [frames_read ec_success [arrives (decoded true opcode.TEXT [xc3])]])%list.

(** "Hel", a PING, "lo, " and "World" as a fragmented TEXT message. *)
Definition hello_world : wire_message :=
  in_fragments hel
    [ping_frame (list_byte_of_string "x"); fragment (list_byte_of_string "lo, ")]
    (list_byte_of_string "World").

(** A chunk with the first byte of a frame header and no more: the
    parser has no frame yet and needs the second byte. *)
Definition header_byte : chunk :=
  {| chunk_size := 1;
     chunk_result :=
       consumed {| ready := false; get_bytes_needed := 1; get_fin := false;
                   get_opcode := opcode.CONTINUATION; get_payload := [];
                   get_close_status := close_status.NO_STATUS; get_close_msg := "" |} |}.

(** The frames of [hello_world] arriving in four reads, three of the
    frame headers in two pieces. *)
Definition hello_world_reads : list (list chunk) :=
  [ [header_byte; arrives (decoded false opcode.TEXT hel);
     arrives (decoded true opcode.PING (list_byte_of_string "x"))];
    [header_byte];
    [arrives (decoded false opcode.CONTINUATION (list_byte_of_string "lo, ")); header_byte];
    [arrives (decoded true opcode.CONTINUATION (list_byte_of_string "World"))] ].

(** The same reads on the session of an endpoint that has no handler. *)
Definition headless_hello_world : session :=
  example_run false (opening ++ map (frames_read ec_success) hello_world_reads)%list.

(** A fragmented TEXT message with a CLOSE frame between its two
    fragments. *)
Definition close_among_fragments : session :=
  example_run true
    (opening ++ [frames_read ec_success
                   [arrives (decoded false opcode.TEXT hel);
                    arrives (decoded_close close_status.NORMAL "");
                    arrives (decoded true opcode.CONTINUATION
                               (list_byte_of_string "lo"))]])%list.

(** The two bytes C3 A9 of one code point, one in each fragment of a TEXT
    message, the fragments in two reads. *)
Definition split_code_point : wire_message := in_fragments [xc3] [] [xa9].

Definition split_code_point_reads : list (list chunk) :=
  [ [arrives (decoded false opcode.TEXT [xc3])];
    [header_byte; arrives (decoded true opcode.CONTINUATION [xa9])] ].

(** The canonical session when its request has been parsed and validated
    and the response is about to be written. *)
Definition validated_session : session :=
  exec (parse_handshake canonical_request;; @validate_handshake example_policy)
    (exec on_connect (@new_session example_policy true example_junk)).

(** A request without the Upgrade header and with an unsupported version:
    the third check is the first to fail. *)
Definition no_upgrade_request : string :=
  "GET /chat HTTP/1.1" +:+ CRLF
  +:+ "Host: server.example.com" +:+ CRLF
  +:+ "Connection: Upgrade" +:+ CRLF
  +:+ "Sec-WebSocket-Version: 12" +:+ CRLF
  +:+ CRLF.

(** A request whose version does not fit a [long]: [atoi] reads it as -1,
    which is 4294967295 in [m_version]. *)
Definition saturating_version_request : string :=
  "GET /chat HTTP/1.1" +:+ CRLF
  +:+ "Host: server.example.com" +:+ CRLF
  +:+ "Upgrade: websocket" +:+ CRLF
  +:+ "Connection: Upgrade" +:+ CRLF
  +:+ "Sec-WebSocket-Key: dGhlIHNhbXBsZSBub25jZQ==" +:+ CRLF
  +:+ "Sec-WebSocket-Version: 18446744073709551629" +:+ CRLF
  +:+ CRLF.

(** A request whose Host has a NUL character in it. *)
Definition nul_host_request : string :=
  "GET /chat HTTP/1.1" +:+ CRLF
  +:+ "Host: evil" +:+ String NUL ".example.com" +:+ CRLF
  +:+ "Upgrade: websocket" +:+ CRLF
  +:+ CRLF.

(** A key with a NUL character in it, and a request that carries it. *)
Definition nul_key : string := "ab" +:+ String NUL "cd".

Definition nul_key_request : string :=
  "GET /chat HTTP/1.1" +:+ CRLF
  +:+ "Host: server.example.com" +:+ CRLF
  +:+ "Upgrade: websocket" +:+ CRLF
  +:+ "Connection: Upgrade" +:+ CRLF
  +:+ "Sec-WebSocket-Key: " +:+ nul_key +:+ CRLF
  +:+ "Sec-WebSocket-Version: 13" +:+ CRLF
  +:+ CRLF.

Definition nul_key_session : session :=
  example_run true [connected; handshake_read nul_key_request].

(** The value the accept header has by the handshake's definition. *)
Definition accept_key (key : string) : string :=
  base64_encode (concat (map big_endian_bytes (SHA1.digest (byte_values (key +:+ GUID))))).


(** ** The rest of the session interface *)

Definition with_local_interface (b : bool) (s : session) : session :=
  {| m_state := m_state s; m_writing := m_writing s; m_handshake := m_handshake s;
     m_close := m_close s; m_message := m_message s; m_socket := m_socket s;
     m_local_interface := b; m_timer := m_timer s;
     m_buf := m_buf s; m_read_frame := m_read_frame s;
     m_write_frame := m_write_frame s; trace := trace s |}.

Section Interface.
Context `{endpoint_policy}.

(** [set_handler(new_con)] with a handler that is not null. *)
Definition set_handler : M unit :=
  modify (with_local_interface true);;
  emit Eon_open.

Definition get_resource (s : session) : string := m_resource (m_handshake s).
Definition get_origin (s : session) : string := m_client_origin (m_handshake s).
Definition get_version (s : session) : Z := m_version (m_handshake s).

Definition handle_timer_expired (error : error_code) : M unit :=
  if is_error error then
    if bool_decide (error = ec_operation_aborted) then log "timer was aborted" LOG_DEBUG
    else log "timer ended with error" LOG_DEBUG
  else
    log "timer ended without error" LOG_DEBUG.

Definition handle_error_timer_expired (error : error_code) : M unit :=
  if is_error error then
    if bool_decide (error = ec_operation_aborted) then
      log "error timer was aborted" LOG_DEBUG
    else
      log "error timer ended with error" LOG_DEBUG;; drop_tcp true
  else
    log "error timer ended without error" LOG_DEBUG;; drop_tcp true.

(** The end of [handle_read_frame]: "we have read everything, check if
    we should read more". *)
Definition check_read_more : M unit :=
  s2 <- get;;
  if (state.eqb (m_state s2) state.OPEN || state.eqb (m_state s2) state.CLOSING)
     && (0 <? get_bytes_needed (m_read_frame s2))%Z
  then
    log ("starting async read for " +:+ pretty (get_bytes_needed (m_read_frame s2))
           +:+ " bytes.") LOG_DEBUG;;
    emit Easync_read
  else if state.eqb (m_state s2) state.CLOSED then
    log_close_result;;
    when (m_local_interface s2) (emit Eon_close);;
    timer_cancel
  else
    log "handle_read_frame called in invalid state" LOG_ERROR.

End Interface.

(** ** Vocabulary of the session-wide properties *)

(** The numeric value of a state in [enum value]. *)
Definition state_rank (v : state.value) : Z :=
  match v with
  | state.CONNECTING => 0
  | state.OPEN => 1
  | state.CLOSING => 2
  | state.CLOSED => 3
  end.

Definition is_handshake_written (ev : event) : bool :=
  match ev with handshake_written _ => true | _ => false end.

(** Effects that are neither a frame written nor a message or [on_open]
    handed to the handler. *)
Definition quiet (e : effect) : bool :=
  match e with
  | Easync_write_frame _ | Eon_message_text _ | Eon_message_binary _ | Eon_open => false
  | _ => true
  end.

(** Effects that are not a call into the connection handler. *)
Definition no_callback (e : effect) : bool :=
  match e with
  | Evalidate | Eon_open | Eon_message_text _ | Eon_message_binary _ | Eon_close => false
  | _ => true
  end.

Definition not_on_close (e : effect) : bool := negb (is_on_close e).

Definition not_on_open (e : effect) : bool := negb (is_on_open e).

Definition is_frames_read (ev : event) : bool :=
  match ev with frames_read _ _ => true | _ => false end.

Definition any_effect (e : effect) : bool := true.

(** A frame written carries the mask flag [b]. *)
Definition written_with_mask (b : bool) (e : effect) : bool :=
  match e with
  | Easync_write_frame f => Bool.eqb (w_masked f) b
  | _ => true
  end.

Section Invariant.
Context `{endpoint_policy}.

(** What a session keeps along a run: its state stays in the set
    [allowed], the handler is attached or not as [li] says, and on a
    server the mask flag of the writer stays [mw]. *)
Definition session_inv (allowed : state.value -> bool) (li mw : bool) (s : session) : Prop :=
  allowed (m_state s) = true
  /\ m_local_interface s = li
  /\ (is_server = true -> w_masked (m_write_frame s) = mw).

(** The effects such a run may have: frames are written masked on a
    client and with the flag [mw] on a server; the handler is called only
    if there is one; [on_close] only if [oc] and [on_open] only if [oo];
    and a frame is written, a message delivered or [on_open] called only
    if OPEN is an allowed state. *)
Definition permitted (allowed : state.value -> bool) (li mw oc oo : bool)
    (e : effect) : bool :=
  written_with_mask (if is_server then mw else true) e
  && (li || no_callback e)
  && (oc || not_on_close e)
  && (oo || not_on_open e)
  && (allowed state.OPEN || quiet e).

(** The error of [m_socket.remote_endpoint()] on a socket that is not
    connected. *)
Definition endpoint_error (s : session) : error_code :=
  match m_socket s with
  | sock_failing e => e
  | _ => ec_bad_descriptor
  end.

Definition is_connected (s : session) : bool :=
  match m_socket s with sock_connected => true | _ => false end.

(** The session as [handle_write_handshake] has it when the response with
    status 101 has been written on a connected socket: OPEN, the handshake
    timer cancelled and the handler told. *)
Definition opened (s : session) : session :=
  (if m_local_interface s then record Eon_open else fun s' => s')
    (record Etimer_cancel
       (with_timer None
          (with_state state.OPEN (exec log_open_result s)))).

(** The session after the handlers of the events [evs] have run one after
    the other, each to its return or to the exception that leaves it. *)
Definition after (evs : list event) (s : session) : session :=
  foldl (fun s ev => exec (step ev) s) s evs.

(** What happens to a session: one of the events of [step], or the
    application attaching a handler with [set_handler]. *)
Inductive action :=
| occurs (ev : event)
| attaches.

Definition act (a : action) : M unit :=
  match a with
  | occurs ev => step ev
  | attaches => set_handler
  end.

Definition after_all (acts : list action) (s : session) : session :=
  foldl (fun s a => exec (act a) s) s acts.

End Invariant.

(** CONNECTING or CLOSED: the states in which no frame is read. *)
Definition inactive_state (v : state.value) : bool :=
  negb (state.eqb v state.OPEN || state.eqb v state.CLOSING).

(** Between [s] and [s'] the handler's [on_close] was called at most
    once, and if it was, [s'] is CLOSED. *)
Definition closes_at_most_once (s s' : session) : Prop :=
  exists t, trace s' = (trace s ++ t)%list
            /\ (count_on_close t = 0%nat
                \/ (count_on_close t = 1%nat /\ m_state s' = state.CLOSED)).

(** OPEN or CLOSING: the states in which frames are read. *)
Definition active (s : session) : bool :=
  state.eqb (m_state s) state.OPEN || state.eqb (m_state s) state.CLOSING.

(** [s'] is [s] after some more effects, all of them in [P]. *)
Definition extends (P : effect -> bool) (s s' : session) : Prop :=
  exists t, trace s' = (trace s ++ t)%list /\ forallb P t = true.

(** Run from [s], the computation [m] ends, by return or by exception, in
    a session where [I] holds, having added only effects in [P]. *)
Definition preserves {A} (I : session -> Prop) (P : effect -> bool)
    (m : M A) (s : session) : Prop :=
  I (exec m s) /\ extends P s (exec m s).

(** The handler has been told [on_close] no more often than [on_open],
    and strictly less often while the session reads frames for it. *)
Definition callbacks_balanced (s : session) : Prop :=
  (count_on_close (trace s) <= count_on_open (trace s))%nat
  /\ (active s = true -> m_local_interface s = true ->
      (count_on_close (trace s) < count_on_open (trace s))%nat).

(** The socket is closed, or open with a shutdown that succeeds or only
    reports that the peer is gone. *)
Definition shutdown_succeeds (s : session) : bool :=
  match m_socket s with
  | sock_failing e => bool_decide (e = ec_not_connected)
  | _ => true
  end.

Section Answers.
Context `{endpoint_policy}.

(** Between [s] and [s'] the session has started its close handshake
    with the code [c] and the reason [what]: it is CLOSING, the close
    timer runs, and one more frame has been written, a CLOSE frame with
    what [send_close] makes of [c] and [what]. *)
Definition closing_with (c : Z) (what : string) (s s' : session) : Prop :=
  m_state s' = state.CLOSING
  /\ m_local_close_code (m_close s') = c
  /\ m_local_close_msg (m_close s') = what
  /\ m_timer s' = Some close_expired
  /\ exists f,
       frames_written (trace s') = (frames_written (trace s) ++ [f])%list
       /\ w_fin f = true /\ w_opcode f = opcode.CLOSE
       /\ w_body f = payload_status (fst (close_frame_status c what))
                                    (snd (close_frame_status c what)).

End Answers.

(** Between [s] and [s'] the connection was dropped: [s'] is CLOSED with
    [m_dropped_by_me] set to [b] and no timer pending; no frame was
    written and the handler was not called. *)
Definition dropped (b : bool) (s s' : session) : Prop :=
  m_state s' = state.CLOSED
  /\ m_dropped_by_me (m_close s') = b
  /\ m_timer s' = None
  /\ frames_written (trace s') = frames_written (trace s)
  /\ messages (trace s') = messages (trace s)
  /\ count_on_open (trace s') = count_on_open (trace s)
  /\ count_on_close (trace s') = count_on_close (trace s).

(** Between [s] and [s'] one frame was written: final, of opcode [op],
    with the payload [payload], masked on a client and on a server with
    the flag the writer had; a write is pending, and the state, the close
    record and the message in progress are as they were. *)
Definition sent `{endpoint_policy} (op : opcode.value) (payload : list byte)
    (s s' : session) : Prop :=
  m_state s' = m_state s /\ m_close s' = m_close s /\ m_message s' = m_message s
  /\ m_writing s' = true
  /\ messages (trace s') = messages (trace s)
  /\ exists w,
       frames_written (trace s') = (frames_written (trace s) ++ [w])%list
       /\ w_fin w = true /\ w_opcode w = op /\ w_body w = payload_bytes payload
       /\ w_masked w = if is_server then w_masked (m_write_frame s) else true.

(** Nothing but the log differs between [s] and [s']. *)
Definition only_logged (s s' : session) : Prop :=
  s' = s \/ exists msg level, s' = record (Elog msg level) s.

(** ** The request as the handshake records it *)

(** The text between "GET " and the first " HTTP/1.1" from index 4 on. *)
Definition requested_resource (s : session) : string :=
  let req := m_client_http_request (m_handshake s) in
  match find " HTTP/1.1" 4 req with
  | Some end_ => substr req 4 (end_ - 4)
  | None => m_resource (m_handshake s)
  end.

(** For a version below 13 the header Sec-WebSocket-Origin, otherwise
    Origin. *)
Definition origin_header (s : session) : string :=
  if (requested_version s <? 13)%Z then get_client_header "Sec-WebSocket-Origin" s
  else get_client_header "Origin" s.

(** The session when the six checks have passed and the origin has been
    looked at: what the handler's [validate] is given. *)
Definition checked (s : session) : session :=
  (if negb (String.eqb (origin_header s) "")
   then upd_handshake (with_origin (origin_header s)) else fun s' => s')
    (upd_handshake (with_version (requested_version s))
       (record (Evalidate_host (get_client_header "Host" s))
          (upd_handshake (with_resource (requested_resource s)) s))).

(** ** Further concrete sessions *)

(** An endpoint like [example_policy] whose handler refuses every
    request with status 403. *)
Definition refusing_policy : endpoint_policy :=
  {| is_server := true;
     validate_host := fun h => String.eqb h "server.example.com";
     handler_validate := fun _ => Some (handshake_error "not welcome" 403 "Forbidden");
     invalid := catalogue_invalid;
     reserved := catalogue_reserved;
     UTF8_ACCEPT := 0;
     UTF8_REJECT := 1;
     decode := utf8_decode;
     utf8_what := "Invalid UTF-8 Data";
     default_code := error.FATAL_SESSION_ERROR;
     print_frame := fun _ => "frame";
     this_ptr := "0x0";
     remote_endpoint := "127.0.0.1:50000";
     show_error_code := fun _ => "system:0";
     lookup_http_error_string := fun c => if (c =? 400)%Z then "Bad Request" else "Unknown";
     little_endian_host := true |}.

(** The canonical request read and cut into lines, before the checks. *)
Definition parsed_session : session :=
  exec (parse_handshake canonical_request)
    (exec on_connect (@new_session example_policy true example_junk)).

Definition parsed_by_refusing : session :=
  exec (parse_handshake canonical_request)
    (exec on_connect (@new_session refusing_policy true example_junk)).

(** The canonical request read and answered, the response not yet
    written. *)
Definition answered_session : session :=
  example_run true [connected; handshake_read canonical_request].

(** The request without the Upgrade header, refused with status 400. *)
Definition refused_session : session :=
  example_run true [connected; handshake_read no_upgrade_request].

(** The canonical request answered, and the handshake timer expired
    before the write of the response completed. *)
Definition expired_session : session :=
  example_run true
    [connected; handshake_read canonical_request; handshake_timer ec_success].

(** ** Requests as lines *)

(** The text whose lines are [lines], each one ended by CRLF. *)
Definition lines_text (lines : list string) : string :=
  foldr (fun l acc => l +:+ CRLF +:+ acc) "" lines.

(** The string [l] has no occurrence of [pat]. *)
Definition free_of (pat l : string) : Prop := find pat 0 l = None.

Definition header_line (kv : string * string) : string := fst kv +:+ ": " +:+ snd kv.

(** The values given to the key [k], in the order of the lines. *)
Definition values_of (k : string) (kvs : list (string * string)) : list string :=
  omap (fun kv => if String.eqb (fst kv) k then Some (snd kv) else None) kvs.

(** Values joined as the header loop joins them: a value is appended
    after ", " unless what is there so far is empty. *)
Definition joined (acc : string) (values : list string) : string :=
  foldl (fun acc v => if String.eqb acc "" then v else acc +:+ ", " +:+ v) acc values.

(** ** Subprotocol and extension selection *)

(** The four members that [select_subprotocol] and [select_extension]
    read and write. *)
Record negotiation := {
  m_client_subprotocols : list string;
  m_client_extensions : list string;
  m_server_subprotocol : string;
  m_server_extensions : list string
}.

Inductive server_error := server_error_of (what : string).

(** The members as the constructor leaves them. *)
Definition new_negotiation : negotiation :=
  {| m_client_subprotocols := []; m_client_extensions := [];
     m_server_subprotocol := ""; m_server_extensions := [] |}.

Definition select_subprotocol (val : string) (n : negotiation)
    : server_error + negotiation :=
  if negb (String.eqb val "") && negb (bool_decide (val ∈ m_client_subprotocols n)) then
    inl (server_error_of "Attempted to choose a subprotocol not proposed by the client")
  else
    inr {| m_client_subprotocols := m_client_subprotocols n;
           m_client_extensions := m_client_extensions n;
           m_server_subprotocol := val;
           m_server_extensions := m_server_extensions n |}.

Definition select_extension (val : string) (n : negotiation)
    : server_error + negotiation :=
  if String.eqb val "" then inr n
  else if negb (bool_decide (val ∈ m_client_extensions n)) then
    inl (server_error_of "Attempted to choose an extension not proposed by the client")
  else
    inr {| m_client_subprotocols := m_client_subprotocols n;
           m_client_extensions := m_client_extensions n;
           m_server_subprotocol := m_server_subprotocol n;
           m_server_extensions := m_server_extensions n ++ [val] |}.

(** A call of one of the two, and the members after a series of calls,
    each one returned or left by its exception. *)
Inductive selection :=
| choose_subprotocol (val : string)
| choose_extension (val : string).

Definition select (c : selection) (n : negotiation) : server_error + negotiation :=
  match c with
  | choose_subprotocol val => select_subprotocol val n
  | choose_extension val => select_extension val n
  end.

Definition selected (cs : list selection) (n : negotiation) : negotiation :=
  foldl (fun n c => match select c n with inr n' => n' | inl _ => n end) n cs.

(** The selection holds nothing the client did not propose. *)
Definition within_offer (n : negotiation) : Prop :=
  (m_server_subprotocol n = "" \/ m_server_subprotocol n ∈ m_client_subprotocols n)
  /\ Forall (fun e => e <> "" /\ e ∈ m_client_extensions n) (m_server_extensions n).

Definition offered_session : negotiation :=
  {| m_client_subprotocols := ["chat"; "superchat"]; m_client_extensions := ["x-frame"];
     m_server_subprotocol := ""; m_server_extensions := [] |}.


(** * Properties *)

(** ** The model's bounded loops lose nothing *)

Lemma index_ge (p s : string) :
  forall (n m : nat), index n p s = Some m -> (n <= m)%nat.
Proof.
  induction s as [|c s IH]; intros n m; destruct n; cbn.
  - destruct p; intros E; [injection E as <-; lia | discriminate].
  - discriminate.
  - intros _. lia.
  - destruct (index n p s) as [k|] eqn:E; intros E'; [|discriminate].
    injection E' as <-. apply IH in E. lia.
Qed.

Lemma substring_length (s : string) :
  forall (n m : nat), (String.length (substring n m s) <= String.length s - n)%nat.
Proof.
  induction s as [|c s IH]; intros n m; destruct n, m; cbn; try lia.
  - specialize (IH 0%nat m). lia.
  - apply IH.
  - apply IH.
Qed.

Lemma find_CRLF_bounds (raw : string) (start e : nat) :
  find CRLF start raw = Some e -> (start <= e /\ e + 2 <= String.length raw)%nat.
Proof.
  unfold find. intros E. split; [exact (index_ge _ _ _ _ E)|].
  apply index_correct1 in E.
  pose proof (substring_length raw e (String.length CRLF)) as Hl.
  rewrite E in Hl. cbn in Hl. lia.
Qed.

(** The tokenizer's fuel is never what ends it: with the fuel [tokens_of]
    gives, more fuel yields the same tokens. *)
Lemma tokenize_fuel_suffices (raw : string) :
  forall (fuel start extra : nat),
    (String.length raw < start + fuel)%nat ->
    tokenize (fuel + extra) raw start = tokenize fuel raw start.
Proof.
  induction fuel as [|fuel IH]; intros start extra Hlen.
  - destruct extra; [reflexivity|]. cbn.
    destruct (find CRLF start raw) as [e|] eqn:E; [|reflexivity].
    apply find_CRLF_bounds in E. lia.
  - cbn. destruct (find CRLF start raw) as [e|] eqn:E; [|reflexivity].
    f_equal. apply IH. apply find_CRLF_bounds in E. lia.
Qed.

(** Cutting the padded message into blocks keeps every word. *)
Lemma blocks_concat (fuel : nat) :
  forall ws : list Z, (length ws <= fuel)%nat -> concat (SHA1.blocks fuel ws) = ws.
Proof.
  induction fuel as [|fuel IH]; intros ws Hlen.
  - destruct ws; [reflexivity | cbn in Hlen; lia].
  - destruct ws as [|w ws]; [reflexivity|].
    change (SHA1.blocks (S fuel) (w :: ws))
      with (take 16 (w :: ws) :: SHA1.blocks fuel (drop 16 (w :: ws))).
    cbn [concat]. rewrite IH; [apply take_drop|].
    rewrite length_drop. cbn [length] in *. lia.
Qed.

(** * Properties *)

Ltac monad_unfold :=
  unfold log, access_log; unfold emit; unfold when;
  unfold bind, get, modify, ret, throw, try_catch;
  cbv beta iota.

Ltac open_session s :=
  destruct s as [xst xwr xhs xcl [xus xuc xcm xfr xco xer] xsk xli xtm xbf
                 [xrr xrn xrfin xrop xrp xrcs xrcm] xwf xtr];
  cbn in * |-; subst.

(** ** Traces *)

Lemma messages_app t1 t2 : messages (t1 ++ t2) = (messages t1 ++ messages t2)%list.
Proof. unfold messages. apply filter_app. Qed.

Lemma frames_written_app t1 t2 :
  frames_written (t1 ++ t2) = (frames_written t1 ++ frames_written t2)%list.
Proof. unfold frames_written. apply omap_app. Qed.

Lemma state_eqb_neq a b : a <> b -> state.eqb a b = false.
Proof. destruct a, b; intros Hab; try reflexivity; contradiction. Qed.

Lemma opcode_eqb_neq a b : a <> b -> opcode.eqb a b = false.
Proof.
  destruct a, b; intros Hab; try reflexivity; try contradiction.
  cbn. apply Z.eqb_neq. intros ->. contradiction.
Qed.

(** ** Sends outside OPEN *)

Section Sends.
Context `{endpoint_policy}.

(** C9.  Called in any state but OPEN, each of send (text), send (binary),
    ping and pong returns normally and leaves the session as it was except
    for one warning appended to the log: no frame is written and no field of
    the session changes. *)
Theorem send_outside_open_is_dropped (s : session) (msg : string) (data : list byte) :
  m_state s <> state.OPEN ->
  send msg s =
    (Ret tt, record (Elog "Tried to send a message from a session that wasn't open" LOG_WARN) s)
  /\ send_data data s =
    (Ret tt, record (Elog "Tried to send a message from a session that wasn't open" LOG_WARN) s)
  /\ ping msg s =
    (Ret tt, record (Elog "Tried to send a ping from a session that wasn't open" LOG_WARN) s)
  /\ pong msg s =
    (Ret tt, record (Elog "Tried to send a pong from a session that wasn't open" LOG_WARN) s)
  /\ forall w, frames_written (trace (record (Elog w LOG_WARN) s)) = frames_written (trace s)
               /\ m_state (record (Elog w LOG_WARN) s) = m_state s
               /\ m_close (record (Elog w LOG_WARN) s) = m_close s
               /\ m_message (record (Elog w LOG_WARN) s) = m_message s
               /\ m_write_frame (record (Elog w LOG_WARN) s) = m_write_frame s.
Proof.
  intros Hs. apply state_eqb_neq in Hs.
  repeat split.
  - unfold send, bind, get. cbv beta iota. rewrite Hs. reflexivity.
  - unfold send_data, bind, get. cbv beta iota. rewrite Hs. reflexivity.
  - unfold ping, bind, get. cbv beta iota. rewrite Hs. reflexivity.
  - unfold pong, bind, get. cbv beta iota. rewrite Hs. reflexivity.
  - cbn [record trace]. rewrite frames_written_app. cbn. apply app_nil_r.
Qed.

End Sends.

Lemma send_outside_open_is_dropped_witness :
  m_state closing_session <> state.OPEN /\
  @send example_policy "late" closing_session =
    (Ret tt, record (Elog "Tried to send a message from a session that wasn't open" LOG_WARN)
               closing_session).
Proof.
  assert (Hs : m_state closing_session <> state.OPEN) by (vm_compute; discriminate).
  split; [exact Hs|].
  exact (proj1 (@send_outside_open_is_dropped example_policy closing_session "late" [] Hs)).
Defined.

(** ** Frames while CLOSING *)

Section Closing.
Context `{endpoint_policy}.

(** C10.  In CLOSING a decoded frame whose opcode is not CLOSE is ignored:
    [process_frame] returns normally, and all it does is write two debug
    lines and reset the parser.  Nothing is delivered, no frame (so no
    PONG) is written, and the state and the message in progress stay as
    they were. *)
Theorem closing_ignores_other_frames (s : session) :
  m_state s = state.CLOSING ->
  get_opcode (m_read_frame s) <> opcode.CLOSE ->
  let s' := exec process_frame s in
  process_frame s =
    (Ret tt,
     upd_read_frame reset
       (record (Elog "ignoring this frame" LOG_DEBUG)
          (record (Elog "process_frame" LOG_DEBUG) s)))
  /\ messages (trace s') = messages (trace s)
  /\ frames_written (trace s') = frames_written (trace s)
  /\ m_message s' = m_message s
  /\ m_state s' = state.CLOSING
  /\ m_close s' = m_close s.
Proof.
  intros Hs Ho s'.
  assert (E : process_frame s =
    (Ret tt, upd_read_frame reset
       (record (Elog "ignoring this frame" LOG_DEBUG)
          (record (Elog "process_frame" LOG_DEBUG) s)))).
  { unfold process_frame. monad_unfold. cbn [m_state record m_read_frame].
    rewrite Hs, (opcode_eqb_neq _ _ Ho). reflexivity. }
  subst s'. unfold exec. rewrite E. cbn [snd upd_read_frame record trace m_message m_state m_close].
  repeat split; try assumption.
  - rewrite !messages_app. cbn. rewrite !app_nil_r. reflexivity.
  - rewrite !frames_written_app. cbn. rewrite !app_nil_r. reflexivity.
Qed.

End Closing.

Lemma closing_ignores_other_frames_witness :
  messages (trace (exec (@process_frame example_policy)
                     (arrival (decoded true opcode.PING hel) [] closing_session)))
  = messages (trace (arrival (decoded true opcode.PING hel) [] closing_session)).
Proof.
  refine (proj1 (proj2 (@closing_ignores_other_frames example_policy
                   (arrival (decoded true opcode.PING hel) [] closing_session) _ _))).
  - vm_compute. reflexivity.
  - vm_compute. discriminate.
Defined.


(** ** The CLOSE frame of a local close *)

Section Close.
Context `{endpoint_policy}.

Lemma close_is_send_close status reason : close status reason = send_close status reason.
Proof. reflexivity. Qed.

(** C3.  A close initiated in OPEN with status [status] returns normally,
    moves the session to CLOSING and writes exactly one frame, a CLOSE frame
    with fin set, whose status and reason are: NORMAL and the empty reason
    for NO_STATUS; POLICY_VIOLATION and the given reason for ABNORMAL_CLOSE;
    otherwise PROTOCOL_ERROR with "Status code is invalid" for a code in
    the invalid set; otherwise PROTOCOL_ERROR with "Status code is
    reserved" for a code in the reserved set; otherwise the caller's code
    and reason. *)
Theorem send_close_wire_status (s : session) (status : Z) (reason : string) :
  m_state s = state.OPEN ->
  let s' := exec (close status reason) s in
  exists f,
    result (close status reason) s = Ret tt
    /\ m_state s' = state.CLOSING
    /\ frames_written (trace s') = (frames_written (trace s) ++ [f])%list
    /\ w_fin f = true /\ w_opcode f = opcode.CLOSE
    /\ w_body f =
         if (status =? close_status.NO_STATUS)%Z then
           payload_status close_status.NORMAL ""
         else if (status =? close_status.ABNORMAL_CLOSE)%Z then
           payload_status close_status.POLICY_VIOLATION reason
         else if invalid status then
           payload_status close_status.PROTOCOL_ERROR "Status code is invalid"
         else if reserved status then
           payload_status close_status.PROTOCOL_ERROR "Status code is reserved"
         else payload_status status reason.
Proof.
  intros Hs s'. subst s'. rewrite close_is_send_close.
  open_session s.
  unfold result, exec, send_close, write_frame, timer_expires_from_now, timer_async_wait.
  monad_unfold. cbn [m_state state.eqb negb bool_decide decide_rel].
  change (state.eqb state.OPEN state.OPEN) with true. cbn [negb].
  destruct (status =? close_status.NO_STATUS)%Z;
    [|destruct (status =? close_status.ABNORMAL_CLOSE)%Z;
      [|destruct (invalid status); [|destruct (reserved status)]]];
    destruct is_server; cbn;
    (eexists; repeat split;
     [rewrite !frames_written_app; cbn; rewrite !app_nil_r; reflexivity
     | reflexivity ..]).
Qed.

(** [send_close] never writes [m_closed_by_me]. *)
Lemma send_close_keeps_closed_by_me (s : session) (status : Z) (reason : string) :
  m_closed_by_me (m_close (exec (send_close status reason) s)) = m_closed_by_me (m_close s).
Proof.
  open_session s.
  unfold exec, send_close, write_frame, timer_expires_from_now, timer_async_wait.
  monad_unfold. cbn [m_state].
  destruct (negb (state.eqb xst state.OPEN)); [reflexivity|].
  destruct (status =? close_status.NO_STATUS)%Z;
    [|destruct (status =? close_status.ABNORMAL_CLOSE)%Z;
      [|destruct (invalid status); [|destruct (reserved status)]]];
    destruct is_server; reflexivity.
Qed.

End Close.

Lemma send_close_wire_status_witness :
  exists f,
    frames_written (trace (exec (@close example_policy close_status.NO_STATUS "ignored")
                             open_session))
    = (frames_written (trace open_session) ++ [f])%list
    /\ w_body f = payload_status close_status.NORMAL "".
Proof.
  destruct (@send_close_wire_status example_policy open_session close_status.NO_STATUS
              "ignored" eq_refl) as (f & _ & _ & Hf & _ & _ & Hb).
  exists f. split; [exact Hf | exact Hb].
Defined.

(** C7.  What the code does where the claim fails: after the handshake the
    application calls [close]; the session goes from OPEN to CLOSING and
    the CLOSE frame is the first one written, yet [m_closed_by_me] is still
    false.  It stays false when the close timer then ends the session. *)
Theorem local_close_leaves_closed_by_me_false :
  m_state open_session = state.OPEN
  /\ m_state closing_session = state.CLOSING
  /\ map w_opcode (frames_written (trace closing_session)) = [opcode.CLOSE]
  /\ m_closed_by_me (m_close closing_session) = false
  /\ m_state timed_out_session = state.CLOSED
  /\ m_closed_by_me (m_close timed_out_session) = false.
Proof. vm_compute. repeat split. Qed.

(** C8.  What the code does where the claim fails: the handshake succeeds
    and [on_open] is called; the application closes, the peer never
    answers and the close timer drops the connection.  The session is
    CLOSED and [on_close] has not been called, nor is it when the pending
    read then completes as aborted. *)
Theorem close_timeout_skips_on_close :
  m_state timed_out_session = state.CLOSED
  /\ count_on_open (trace timed_out_session) = 1%nat
  /\ count_on_close (trace timed_out_session) = 0%nat
  /\ m_state timed_out_then_aborted = state.CLOSED
  /\ count_on_close (trace timed_out_then_aborted) = 0%nat.
Proof. vm_compute. repeat split. Qed.

(** ** Frames that break the interleaving rules *)

Section Interleaving.
Context `{endpoint_policy}.

(** C6, as the code has it.  In OPEN, a TEXT or BINARY frame that arrives
    while a message is in fragments, and a CONTINUATION frame that arrives
    while none is, make [process_frame] throw and deliver nothing.  The
    exception is a PROTOCOL_VIOLATION, except for a TEXT frame whose payload
    the UTF-8 validator rejects (continuing from the state the message in
    progress left it in): [process_text] validates before it looks at
    [m_fragmented], so that frame fails with PAYLOAD_VIOLATION. *)
Theorem interleaving_violation (s : session) :
  m_state s = state.OPEN ->
  m_fragmented (m_message s) = true
    /\ (get_opcode (m_read_frame s) = opcode.TEXT
        \/ get_opcode (m_read_frame s) = opcode.BINARY)
  \/ m_fragmented (m_message s) = false
    /\ get_opcode (m_read_frame s) = opcode.CONTINUATION ->
  exists what code,
    result process_frame s = Raise (frame_exception what code)
    /\ messages (trace (exec process_frame s)) = messages (trace s)
    /\ code =
         match get_opcode (m_read_frame s),
               validate_utf8_bytes (get_payload (m_read_frame s))
                 (m_utf8_state (m_message s)) (m_utf8_codepoint (m_message s))
         with
         | opcode.TEXT, (_, _, false) => error.PAYLOAD_VIOLATION
         | _, _ => error.PROTOCOL_VIOLATION
         end.
Proof.
  intros Hs Hcase. open_session s.
  unfold result, exec, process_frame, process_text, process_binary, process_continuation,
    validate_utf8.
  monad_unfold. cbn [m_state record m_read_frame get_opcode].
  destruct Hcase as [[-> [-> | ->]] | [-> ->]]; cbn.
  - destruct (validate_utf8_bytes xrp xus xuc) as [[st' cp'] [|]]; cbn;
      do 2 eexists;
      (split; [reflexivity | split; [|reflexivity]]);
      rewrite !messages_app; cbn; rewrite !app_nil_r; reflexivity.
  - destruct (validate_utf8_bytes xrp xus xuc) as [[st' cp'] ok];
      do 2 eexists;
      (split; [reflexivity | split; [|reflexivity]]);
      rewrite !messages_app; cbn; rewrite !app_nil_r; reflexivity.
  - destruct (validate_utf8_bytes xrp xus xuc) as [[st' cp'] ok];
      do 2 eexists;
      (split; [reflexivity | split; [|reflexivity]]);
      rewrite !messages_app; cbn; rewrite !app_nil_r; reflexivity.
Qed.

End Interleaving.

Lemma interleaving_violation_witness :
  exists what code,
    result (@process_frame example_policy)
      (arrival (decoded true opcode.BINARY hel) [] mid_message)
    = Raise (frame_exception what code)
    /\ code = error.PROTOCOL_VIOLATION.
Proof.
  destruct (@interleaving_violation example_policy
              (arrival (decoded true opcode.BINARY hel) [] mid_message))
    as (what & code & Hr & _ & Hc).
  - vm_compute. reflexivity.
  - left. split; [vm_compute; reflexivity | right; vm_compute; reflexivity].
  - exists what, code. split; [exact Hr | exact Hc].
Defined.

(** C6 fails as stated: with the TEXT message "Hel" in fragments, a TEXT
    frame of payload C0 AF makes [process_frame] throw PAYLOAD_VIOLATION,
    and the session answers with close status 1007 where the claim has a
    PROTOCOL_VIOLATION (status 1002). *)
Lemma text_while_fragmented_is_payload_violation :
  m_state text_on_top = state.OPEN
  /\ m_fragmented (m_message text_on_top) = true
  /\ get_opcode (m_read_frame text_on_top) = opcode.TEXT
  /\ result (@process_frame example_policy) text_on_top
     = Raise (frame_exception "Invalid UTF-8 Data" error.PAYLOAD_VIOLATION)
  /\ m_local_close_code (m_close text_on_top_run) = close_status.INVALID_PAYLOAD
  /\ map w_body (frames_written (trace text_on_top_run))
     = [payload_status close_status.INVALID_PAYLOAD "Invalid UTF-8 Data"].
Proof. vm_compute. repeat split. Qed.

(** ** The read loop and the message assembler *)

Section Assembly.
Context `{endpoint_policy}.

Lemma validate_utf8_bytes_app (a b : list byte) (st cp : Z) :
  validate_utf8_bytes (a ++ b) st cp =
    match validate_utf8_bytes a st cp with
    | (st', cp', true) => validate_utf8_bytes b st' cp'
    | r => r
    end.
Proof.
  revert st cp. induction a as [|x a IH]; intros st cp; cbn; [reflexivity|].
  destruct (decode st cp x) as [st1 cp1].
  destruct (st1 =? UTF8_REJECT)%Z; [reflexivity | apply IH].
Qed.

Lemma validated_app (op : opcode.value) (a b : list byte) (st cp : Z) :
  validated op (a ++ b) st cp =
    match validated op a st cp with
    | (st', cp', true) => validated op b st' cp'
    | r => r
    end.
Proof.
  destruct op; try reflexivity. apply validate_utf8_bytes_app.
Qed.

Lemma validated_nil (op : opcode.value) (st cp : Z) : validated op [] st cp = (st, cp, true).
Proof. destruct op; reflexivity. Qed.

(** One iteration of the read loop on a chunk that completes a frame, in
    OPEN or CLOSING with the parser waiting: the frame goes to
    [process_frame], and what that throws goes to the catch block. *)
Lemma read_loop_consumed (s : session) (c : chunk) (f : in_frame) (rest : list chunk) :
  chunk_result c = consumed f ->
  m_state s <> state.CLOSED ->
  (0 < get_bytes_needed (m_read_frame s))%Z ->
  ready f = true ->
  read_loop (c :: rest) s =
    match process_frame (arrival f rest s) with
    | (Ret _, s2) => read_loop rest s2
    | (Raise (frame_exception what code), s2) =>
        match catch_frame_exception what code s2 with
        | (Ret loop_continue, s3) => read_loop rest s3
        | (Ret loop_break, s3) => (Ret tt, s3)
        | (Raise e, s3) => (Raise e, s3)
        end
    | (Raise e, s2) => (Raise e, s2)
    end.
Proof.
  intros Hc Hs Hn Hr. apply state_eqb_neq in Hs.
  assert (Hz : (get_bytes_needed (m_read_frame s) =? 0)%Z = false) by (apply Z.eqb_neq; lia).
  cbn [read_loop]. unfold read_frame_body, consume, timer_cancel, arrival.
  monad_unfold. rewrite Hs, Hz, Hc. cbn [m_read_frame upd_read_frame with_buf].
  rewrite Hr. cbn [m_buf with_buf upd_read_frame].
  match goal with |- context [process_frame ?x] => destruct (process_frame x) as [[[]|e] s2] end.
  - reflexivity.
  - destruct e as [what code| |]; try reflexivity.
    destruct (catch_frame_exception what code s2) as [[[]|e] s3]; reflexivity.
Qed.

(** One iteration on a chunk that leaves the frame unfinished: the parser
    keeps what it has read and the loop goes on. *)
Lemma read_loop_partial (s : session) (c : chunk) (g : in_frame) (rest : list chunk) :
  chunk_result c = consumed g ->
  m_state s <> state.CLOSED ->
  (0 < get_bytes_needed (m_read_frame s))%Z ->
  ready g = false ->
  read_loop (c :: rest) s = read_loop rest (upd_read_frame (fun _ => g) (with_buf rest s)).
Proof.
  intros Hc Hs Hn Hr. apply state_eqb_neq in Hs.
  assert (Hz : (get_bytes_needed (m_read_frame s) =? 0)%Z = false) by (apply Z.eqb_neq; lia).
  cbn [read_loop]. unfold read_frame_body, consume.
  monad_unfold. rewrite Hs, Hz, Hc. cbn [m_read_frame upd_read_frame with_buf].
  rewrite Hr. reflexivity.
Qed.


(** [validate_utf8] by the outcome of the validator on the payload. *)
Lemma validate_utf8_ok (s : session) (st cp : Z) :
  validate_utf8_bytes (get_payload (m_read_frame s))
    (m_utf8_state (m_message s)) (m_utf8_codepoint (m_message s)) = (st, cp, true) ->
  validate_utf8 s = (Ret tt, upd_message (with_utf8 st cp) s).
Proof. intros Hv. unfold validate_utf8. monad_unfold. rewrite Hv. reflexivity. Qed.

Lemma validate_utf8_rejected (s : session) (st cp : Z) :
  validate_utf8_bytes (get_payload (m_read_frame s))
    (m_utf8_state (m_message s)) (m_utf8_codepoint (m_message s)) = (st, cp, false) ->
  validate_utf8 s =
    (Raise (frame_exception utf8_what error.PAYLOAD_VIOLATION),
     upd_message (with_utf8 st cp) s).
Proof. intros Hv. unfold validate_utf8. monad_unfold. rewrite Hv. reflexivity. Qed.

(** Evaluation of a handler on a session whose fields are known; the
    endpoint's fields, the validator and the trace projections stay
    folded.  [run_outer] also keeps [validate_utf8] and what follows it
    folded, so that its outcome can be put in first. *)
Ltac run_frame :=
  lazy -[append pretty buf_size app validate_utf8_bytes Z.eqb Z.ltb Z.lt
         messages frames_written last
         is_server validate_host handler_validate invalid reserved
         UTF8_ACCEPT UTF8_REJECT decode utf8_what default_code print_frame
         this_ptr remote_endpoint show_error_code lookup_http_error_string
         little_endian_host].

Ltac run_outer :=
  lazy -[append pretty buf_size app validate_utf8_bytes Z.eqb Z.ltb Z.lt
         messages frames_written last
         is_server validate_host handler_validate invalid reserved
         UTF8_ACCEPT UTF8_REJECT decode utf8_what default_code print_frame
         this_ptr remote_endpoint show_error_code lookup_http_error_string
         little_endian_host
         validate_utf8 process_binary extract_payload deliver_message reset_message].

Ltac trace_facts :=
  rewrite ?messages_app, ?frames_written_app; cbn; rewrite ?app_nil_r; try reflexivity.

Ltac finish_frame :=
  eexists; split; [reflexivity|];
  unfold gathering, waiting; run_frame; repeat split; try done; trace_facts.

Ltac open_read_frame f :=
  destruct f as [fr' fn ffin fop fp fcs fcm]; cbn in * |-; subst.

(** *** Frames that are accepted *)

Lemma process_first (li : bool) (s : session) (f : in_frame) (op : opcode.value)
    (rest : list chunk) (st' cp' : Z) :
  waiting li s ->
  ready f = true -> get_fin f = false -> get_opcode f = op ->
  op = opcode.TEXT \/ op = opcode.BINARY ->
  validated op (get_payload f) UTF8_ACCEPT 0 = (st', cp', true) ->
  exists s',
    process_frame (arrival f rest s) = (Ret tt, s')
    /\ gathering li op (get_payload f) st' cp' (messages (trace s)) s'
    /\ m_buf s' = rest.
Proof.
  intros (Hs & Hi & Hf & Hm & Hu & Hc & Hn) Hr Hfin Hfo Hop Hv.
  open_session s. open_read_frame f.
  destruct Hop as [-> | ->]; cbn [validated] in Hv.
  - run_outer. rewrite (validate_utf8_ok _ st' cp') by exact Hv.
    run_frame. finish_frame.
  - injection Hv as <- <-. run_frame. finish_frame.
Qed.

Lemma process_fragment (li : bool) (s : session) (f : in_frame) (op : opcode.value)
    (acc : list byte) (st cp : Z) (d : list effect) (rest : list chunk) (st' cp' : Z) :
  gathering li op acc st cp d s ->
  ready f = true -> get_fin f = false -> get_opcode f = opcode.CONTINUATION ->
  validated op (get_payload f) st cp = (st', cp', true) ->
  exists s',
    process_frame (arrival f rest s) = (Ret tt, s')
    /\ gathering li op (acc ++ get_payload f) st' cp' d s'
    /\ m_buf s' = rest.
Proof.
  intros (Hs & Hi & Hf & Ho & Hm & Hu & Hc & Hn & Hd) Hr Hfin Hfo Hv.
  open_session s. open_read_frame f.
  match type of Hv with validated ?o _ _ _ = _ => destruct o end;
    cbn [validated] in Hv;
    try (injection Hv as <- <-; run_frame; finish_frame).
  run_outer. rewrite (validate_utf8_ok _ st' cp') by exact Hv.
  run_frame. finish_frame.
Qed.

(** A PING is answered with a PONG and a PONG is dropped; the message in
    progress, if any, is not touched. *)
Lemma process_control (s : session) (rest : list chunk) (f : in_frame) :
  m_state s = state.OPEN ->
  ready f = true ->
  get_opcode f = opcode.PING \/ get_opcode f = opcode.PONG ->
  exists s',
    process_frame (arrival f rest s) = (Ret tt, s')
    /\ m_state s' = state.OPEN
    /\ m_local_interface s' = m_local_interface s
    /\ m_message s' = m_message s
    /\ (0 < get_bytes_needed (m_read_frame s'))%Z
    /\ messages (trace s') = messages (trace s)
    /\ m_buf s' = rest.
Proof.
  intros Hs Hr Hop. open_session s. open_read_frame f.
  destruct Hop as [-> | ->].
  - destruct is_server eqn:Hsrv; run_frame; rewrite Hsrv; run_frame;
      (eexists; split; [reflexivity|]); run_frame; repeat split; try done; trace_facts.
  - run_frame. eexists; split; [reflexivity|]. run_frame. repeat split; try done; trace_facts.
Qed.

Lemma process_last (li : bool) (s : session) (f : in_frame) (op : opcode.value)
    (acc : list byte) (st cp : Z) (d dd : list effect) (rest : list chunk) (st' cp' : Z) :
  gathering li op acc st cp d s ->
  op = opcode.TEXT \/ op = opcode.BINARY ->
  ready f = true -> get_fin f = true -> get_opcode f = opcode.CONTINUATION ->
  validated op (get_payload f) st cp = (st', cp', true) ->
  completion li op (acc ++ get_payload f) st' = (awaiting, dd) ->
  exists s',
    process_frame (arrival f rest s) = (Ret tt, s')
    /\ waiting li s'
    /\ messages (trace s') = (d ++ dd)%list
    /\ m_buf s' = rest.
Proof.
  intros (Hs & Hi & Hf & Ho & Hm & Hu & Hc & Hn & Hd) Hop Hr Hfin Hfo Hv Hend.
  unfold completion in Hend. destruct li; open_session s; open_read_frame f.
  all: destruct Hop as [-> | ->]; cbn [validated opcode.eqb orb] in Hv, Hend.
  - destruct (st' =? UTF8_ACCEPT)%Z eqn:Hst; [|discriminate Hend].
    injection Hend as <-.
    run_outer. rewrite (validate_utf8_ok _ st' cp') by exact Hv.
    run_frame. rewrite Hst. run_frame. finish_frame.
  - injection Hend as <-. injection Hv as <- <-. run_frame. finish_frame.
  - injection Hend as <-.
    run_outer. rewrite (validate_utf8_ok _ st' cp') by exact Hv.
    run_frame. finish_frame.
  - injection Hend as <-. injection Hv as <- <-. run_frame. finish_frame.
Qed.

Lemma process_whole (li : bool) (s : session) (f : in_frame) (op : opcode.value)
    (dd : list effect) (rest : list chunk) (st' cp' : Z) :
  waiting li s ->
  op = opcode.TEXT \/ op = opcode.BINARY ->
  ready f = true -> get_fin f = true -> get_opcode f = op ->
  validated op (get_payload f) UTF8_ACCEPT 0 = (st', cp', true) ->
  completion li op (get_payload f) st' = (awaiting, dd) ->
  exists s',
    process_frame (arrival f rest s) = (Ret tt, s')
    /\ waiting li s'
    /\ messages (trace s') = (messages (trace s) ++ dd)%list
    /\ m_buf s' = rest.
Proof.
  intros (Hs & Hi & Hf & Hm & Hu & Hc & Hn) Hop Hr Hfin Hfo Hv Hend.
  unfold completion in Hend. destruct li; open_session s; open_read_frame f.
  all: destruct Hop as [-> | ->]; cbn [validated opcode.eqb orb] in Hv, Hend.
  - destruct (st' =? UTF8_ACCEPT)%Z eqn:Hst; [|discriminate Hend].
    injection Hend as <-.
    run_outer. rewrite (validate_utf8_ok _ st' cp') by exact Hv.
    run_frame. rewrite Hst. run_frame. finish_frame.
  - injection Hend as <-. injection Hv as <- <-. run_frame. finish_frame.
  - injection Hend as <-.
    run_outer. rewrite (validate_utf8_ok _ st' cp') by exact Hv.
    run_frame. finish_frame.
  - injection Hend as <-. injection Hv as <- <-. run_frame. finish_frame.
Qed.

(** *** Frames that fail UTF-8 validation *)

Ltac thrown_frame :=
  eexists; split; [reflexivity|];
  unfold thrown_in_open; run_frame; repeat split; trace_facts.

Lemma process_text_rejected (li : bool) (s : session) (f : in_frame)
    (rest : list chunk) (st' cp' : Z) :
  waiting li s ->
  ready f = true -> get_opcode f = opcode.TEXT ->
  validate_utf8_bytes (get_payload f) UTF8_ACCEPT 0 = (st', cp', false) ->
  exists s',
    process_frame (arrival f rest s)
    = (Raise (frame_exception utf8_what error.PAYLOAD_VIOLATION), s')
    /\ thrown_in_open (messages (trace s)) s'
    /\ m_buf s' = rest.
Proof.
  intros (Hs & Hi & Hf & Hm & Hu & Hc & Hn) Hr Hfo Hv. open_session s. open_read_frame f.
  run_outer. rewrite (validate_utf8_rejected _ st' cp') by exact Hv.
  run_frame. thrown_frame.
Qed.

Lemma process_continuation_rejected (li : bool) (s : session) (f : in_frame)
    (acc : list byte) (st cp : Z) (d : list effect) (rest : list chunk) (st' cp' : Z) :
  gathering li opcode.TEXT acc st cp d s ->
  ready f = true -> get_opcode f = opcode.CONTINUATION ->
  validate_utf8_bytes (get_payload f) st cp = (st', cp', false) ->
  exists s',
    process_frame (arrival f rest s)
    = (Raise (frame_exception utf8_what error.PAYLOAD_VIOLATION), s')
    /\ thrown_in_open d s'
    /\ m_buf s' = rest.
Proof.
  intros (Hs & Hi & Hf & Ho & Hm & Hu & Hc & Hn & Hd) Hr Hfo Hv.
  open_session s. open_read_frame f.
  run_outer. rewrite (validate_utf8_rejected _ st' cp') by exact Hv.
  run_frame. thrown_frame.
Qed.

Lemma process_whole_incomplete (s : session) (f : in_frame)
    (rest : list chunk) (st' cp' : Z) :
  waiting true s ->
  ready f = true -> get_fin f = true -> get_opcode f = opcode.TEXT ->
  validate_utf8_bytes (get_payload f) UTF8_ACCEPT 0 = (st', cp', true) ->
  st' <> UTF8_ACCEPT ->
  exists s',
    process_frame (arrival f rest s)
    = (Raise (frame_exception "Invalid UTF-8 Data" error.PAYLOAD_VIOLATION), s')
    /\ thrown_in_open (messages (trace s)) s'
    /\ m_buf s' = rest.
Proof.
  intros (Hs & Hi & Hf & Hm & Hu & Hc & Hn) Hr Hfin Hfo Hv Hne.
  open_session s. open_read_frame f.
  apply Z.eqb_neq in Hne.
  run_outer. rewrite (validate_utf8_ok _ st' cp') by exact Hv.
  run_frame. rewrite Hne. run_frame. thrown_frame.
Qed.

Lemma process_last_incomplete (s : session) (f : in_frame) (acc : list byte)
    (st cp : Z) (d : list effect) (rest : list chunk) (st' cp' : Z) :
  gathering true opcode.TEXT acc st cp d s ->
  ready f = true -> get_fin f = true -> get_opcode f = opcode.CONTINUATION ->
  validate_utf8_bytes (get_payload f) st cp = (st', cp', true) ->
  st' <> UTF8_ACCEPT ->
  exists s',
    process_frame (arrival f rest s)
    = (Raise (frame_exception "Invalid UTF-8 Data" error.PAYLOAD_VIOLATION), s')
    /\ thrown_in_open d s'
    /\ m_buf s' = rest.
Proof.
  intros (Hs & Hi & Hf & Ho & Hm & Hu & Hc & Hn & Hd) Hr Hfin Hfo Hv Hne.
  open_session s. open_read_frame f.
  apply Z.eqb_neq in Hne.
  run_outer. rewrite (validate_utf8_ok _ st' cp') by exact Hv.
  run_frame. rewrite Hne. run_frame. thrown_frame.
Qed.

(** The catch block on a PAYLOAD_VIOLATION thrown in OPEN: a CLOSE frame
    with status INVALID_PAYLOAD goes out and the loop is left, the buffer
    as it was. *)
Lemma catch_payload_violation (s : session) (what : string) (d : list effect) :
  thrown_in_open d s ->
  invalid close_status.INVALID_PAYLOAD = false ->
  reserved close_status.INVALID_PAYLOAD = false ->
  exists s',
    catch_frame_exception what error.PAYLOAD_VIOLATION s = (Ret loop_break, s')
    /\ closing_invalid_payload d s'
    /\ m_buf s' = m_buf s.
Proof.
  intros (Hs & Hr & Hd) Hinv Hres. open_session s.
  unfold catch_frame_exception, send_close, write_frame, timer_expires_from_now,
    timer_async_wait.
  monad_unfold. cbn [m_state m_read_frame ready error.eqb state.eqb negb record
                     upd_read_frame with_state with_timer upd_close upd_write_frame].
  change ((close_status.INVALID_PAYLOAD =? close_status.NO_STATUS)%Z) with false.
  change ((close_status.INVALID_PAYLOAD =? close_status.ABNORMAL_CLOSE)%Z) with false.
  rewrite Hinv, Hres. cbv iota.
  destruct is_server; run_frame;
    (eexists; split; [reflexivity|]);
    (split; [|reflexivity]);
    unfold closing_invalid_payload; run_frame;
    (split; [reflexivity|]); (split; [reflexivity|]);
    (split; [trace_facts|]); (split; [reflexivity|]);
    eexists; exists what;
    (split;
     [ rewrite !frames_written_app; cbn [frames_written omap]; rewrite ?app_nil_r;
       apply last_snoc
     | split; [reflexivity | split; reflexivity] ]).
Qed.

(** *** Frames after the violation *)

(** In CLOSING a frame that is not CLOSE is ignored. *)
Lemma process_ignored (s : session) (f : in_frame) (d : list effect) (rest : list chunk) :
  closing_invalid_payload d s ->
  ready f = true ->
  get_opcode f <> opcode.CLOSE ->
  exists s',
    process_frame (arrival f rest s) = (Ret tt, s')
    /\ closing_invalid_payload d s'
    /\ m_buf s' = rest.
Proof.
  intros (Hs & Hc & Hd & Hn & w & what & Hl & Hw) Hr Ho.
  unfold process_frame, arrival. monad_unfold.
  cbn [m_state record with_timer upd_read_frame with_buf m_read_frame].
  rewrite Hs, (opcode_eqb_neq _ _ Ho). eexists. split; [reflexivity|].
  split; [|reflexivity].
  unfold closing_invalid_payload.
  cbn [m_state m_close trace m_read_frame upd_read_frame record reset get_bytes_needed
       with_timer with_buf].
  rewrite !messages_app, !frames_written_app. cbn. rewrite !app_nil_r.
  repeat (split; [first [assumption | lia]|]).
  exists w, what. split; assumption.
Qed.
(** *** One frame, by the phase of the assembler *)

Lemma in_phase_active (li : bool) (d : list effect) (ph : phase) (s : session) :
  in_phase li d ph s ->
  m_state s <> state.CLOSED /\ (0 < get_bytes_needed (m_read_frame s))%Z
  /\ active s = true.
Proof.
  unfold active. destruct ph; cbn [in_phase].
  - intros [(Hs & _ & _ & _ & _ & _ & Hn) _]. rewrite Hs.
    repeat split; [discriminate | exact Hn].
  - intros [_ (Hs & _ & _ & _ & _ & _ & _ & Hn & _)]. rewrite Hs.
    repeat split; [discriminate | exact Hn].
  - intros (Hs & _ & _ & Hn & _). rewrite Hs.
    repeat split; [discriminate | exact Hn].
Qed.

Lemma in_phase_closing (li : bool) (d : list effect) (ph : phase) (s : session) :
  in_phase li d ph s -> m_state s = state.CLOSING -> ph = refused.
Proof.
  destruct ph; cbn [in_phase]; [| |reflexivity].
  - intros [(Hs & _) _] Hc. rewrite Hs in Hc. discriminate Hc.
  - intros [_ (Hs & _)] Hc. rewrite Hs in Hc. discriminate Hc.
Qed.

(** What does not touch the assembler, the state, the close codes or
    what was written and delivered, and leaves the parser waiting, leaves
    the phase. *)
Lemma in_phase_same (li : bool) (d : list effect) (ph : phase) (s s' : session) :
  in_phase li d ph s ->
  m_state s' = m_state s -> m_local_interface s' = m_local_interface s ->
  m_message s' = m_message s -> m_close s' = m_close s ->
  messages (trace s') = messages (trace s) ->
  frames_written (trace s') = frames_written (trace s) ->
  (0 < get_bytes_needed (m_read_frame s'))%Z ->
  in_phase li d ph s'.
Proof.
  intros Hin Es Ei Em Ec Et Ew Hn. destruct ph; cbn [in_phase] in *.
  - destruct Hin as [(Hs & Hi & Hf & Hm & Hu & Hc & _) Hd].
    unfold waiting. rewrite Es, Ei, Em, Et. repeat split; assumption.
  - destruct Hin as [Hop (Hs & Hi & Hf & Ho & Hm & Hu & Hc & _ & Hd)].
    unfold gathering. rewrite Es, Ei, Em, Et. repeat split; assumption.
  - destruct Hin as (Hs & Hc & Hd & _ & Hw).
    unfold closing_invalid_payload. rewrite Es, Ec, Et, Ew. repeat split; assumption.
Qed.

Lemma completion_cases (li : bool) (op : opcode.value) (acc : list byte) (st : Z) :
  (exists dd, completion li op acc st = (awaiting, dd))
  \/ (completion li op acc st = (refused, []) /\ li = true
      /\ op <> opcode.BINARY /\ st <> UTF8_ACCEPT).
Proof.
  unfold completion. destruct li; [|left; eexists; reflexivity].
  destruct (opcode.eqb op opcode.BINARY) eqn:Ho; [left; eexists; reflexivity|].
  destruct (st =? UTF8_ACCEPT)%Z eqn:Hst; [left; eexists; reflexivity|].
  right. cbn [orb]. apply Z.eqb_neq in Hst. repeat split; try assumption.
  intros ->. discriminate Ho.
Qed.

(** The first data frame of a message. *)
Lemma first_frame_step (li : bool) (d : list effect) (s : session) (f : in_frame)
    (op : opcode.value) (rest : list chunk) (ph' : phase) (d' : list effect) :
  waiting li s -> messages (trace s) = d ->
  ready f = true -> get_opcode f = op ->
  op = opcode.TEXT \/ op = opcode.BINARY ->
  data_step li op [] (get_payload f) UTF8_ACCEPT 0 (get_fin f) = (ph', d') ->
  exists s', m_buf s' = rest /\
    if breaks awaiting ph' then
      d' = [] /\ thrown_in_open d s'
      /\ exists what, process_frame (arrival f rest s)
                      = (Raise (frame_exception what error.PAYLOAD_VIOLATION), s')
    else
      process_frame (arrival f rest s) = (Ret tt, s') /\ in_phase li (d ++ d') ph' s'.
Proof.
  intros Hw Hd Hr Ho Hop Hstep. unfold data_step in Hstep. cbn [app] in Hstep.
  destruct (validated op (get_payload f) UTF8_ACCEPT 0) as [[st' cp'] ok] eqn:Hv.
  destruct ok.
  - destruct (get_fin f) eqn:Hfin.
    + destruct (completion_cases li op (get_payload f) st')
        as [[dd Hc] | (Hc & -> & Hob & Hne)];
        rewrite Hc in Hstep; injection Hstep as <- <-; cbn [breaks].
      * destruct (process_whole li s f op dd rest st' cp' Hw Hop Hr Hfin Ho Hv Hc)
          as (s' & E & Hw' & Hm & Hb).
        exists s'. split; [exact Hb|]. split; [exact E|].
        cbn [in_phase]. split; [exact Hw' | rewrite Hm, Hd; reflexivity].
      * destruct Hop as [-> | ->]; [|contradiction]. cbn [validated] in Hv.
        destruct (process_whole_incomplete s f rest st' cp' Hw Hr Hfin Ho Hv Hne)
          as (s' & E & Ht & Hb).
        exists s'. split; [exact Hb|]. split; [reflexivity|].
        rewrite <- Hd. split; [exact Ht|]. eexists; exact E.
    + injection Hstep as <- <-. cbn [breaks].
      destruct (process_first li s f op rest st' cp' Hw Hr Hfin Ho Hop Hv)
        as (s' & E & Hg & Hb).
      exists s'. split; [exact Hb|]. split; [exact E|].
      cbn [in_phase]. rewrite app_nil_r, <- Hd. split; [exact Hop | exact Hg].
  - injection Hstep as <- <-. cbn [breaks].
    destruct Hop as [-> | ->]; cbn [validated] in Hv; [|discriminate Hv].
    destruct (process_text_rejected li s f rest st' cp' Hw Hr Ho Hv)
      as (s' & E & Ht & Hb).
    exists s'. split; [exact Hb|]. split; [reflexivity|].
    rewrite <- Hd. split; [exact Ht|]. eexists; exact E.
Qed.

(** A CONTINUATION frame of the message in progress. *)
Lemma next_frame_step (li : bool) (d : list effect) (s : session) (f : in_frame)
    (op : opcode.value) (acc : list byte) (st cp : Z) (rest : list chunk)
    (ph' : phase) (d' : list effect) :
  gathering li op acc st cp d s ->
  op = opcode.TEXT \/ op = opcode.BINARY ->
  ready f = true -> get_opcode f = opcode.CONTINUATION ->
  data_step li op acc (get_payload f) st cp (get_fin f) = (ph', d') ->
  exists s', m_buf s' = rest /\
    if breaks (collecting op acc st cp) ph' then
      d' = [] /\ thrown_in_open d s'
      /\ exists what, process_frame (arrival f rest s)
                      = (Raise (frame_exception what error.PAYLOAD_VIOLATION), s')
    else
      process_frame (arrival f rest s) = (Ret tt, s') /\ in_phase li (d ++ d') ph' s'.
Proof.
  intros Hg Hop Hr Ho Hstep. unfold data_step in Hstep.
  destruct (validated op (get_payload f) st cp) as [[st' cp'] ok] eqn:Hv.
  destruct ok.
  - destruct (get_fin f) eqn:Hfin.
    + destruct (completion_cases li op (acc ++ get_payload f) st')
        as [[dd Hc] | (Hc & -> & Hob & Hne)];
        rewrite Hc in Hstep; injection Hstep as <- <-; cbn [breaks].
      * destruct (process_last li s f op acc st cp d dd rest st' cp'
                    Hg Hop Hr Hfin Ho Hv Hc) as (s' & E & Hw' & Hm & Hb).
        exists s'. split; [exact Hb|]. split; [exact E|].
        cbn [in_phase]. split; [exact Hw' | exact Hm].
      * destruct Hop as [-> | ->]; [|contradiction]. cbn [validated] in Hv.
        destruct (process_last_incomplete s f acc st cp d rest st' cp'
                    Hg Hr Hfin Ho Hv Hne) as (s' & E & Ht & Hb).
        exists s'. split; [exact Hb|]. split; [reflexivity|].
        split; [exact Ht|]. eexists; exact E.
    + injection Hstep as <- <-. cbn [breaks].
      destruct (process_fragment li s f op acc st cp d rest st' cp' Hg Hr Hfin Ho Hv)
        as (s' & E & Hg' & Hb).
      exists s'. split; [exact Hb|]. split; [exact E|].
      cbn [in_phase]. rewrite app_nil_r. split; [exact Hop | exact Hg'].
  - injection Hstep as <- <-. cbn [breaks].
    destruct Hop as [-> | ->]; cbn [validated] in Hv; [|discriminate Hv].
    destruct (process_continuation_rejected li s f acc st cp d rest st' cp' Hg Hr Ho Hv)
      as (s' & E & Ht & Hb).
    exists s'. split; [exact Hb|]. split; [reflexivity|].
    split; [exact Ht|]. eexists; exact E.
Qed.

(** A PING or PONG among the frames. *)
Lemma control_frame_step (li : bool) (d : list effect) (ph : phase) (s : session)
    (f : in_frame) (rest : list chunk) :
  in_phase li d ph s -> m_state s = state.OPEN ->
  ready f = true ->
  get_opcode f = opcode.PING \/ get_opcode f = opcode.PONG ->
  exists s', m_buf s' = rest
    /\ process_frame (arrival f rest s) = (Ret tt, s') /\ in_phase li (d ++ []) ph s'.
Proof.
  intros Hin Hs Hr Ho.
  destruct (process_control s rest f Hs Hr Ho) as (s' & E & Ps & Pi & Pm & Pn & Pt & Pb).
  exists s'. split; [exact Pb|]. split; [exact E|]. rewrite app_nil_r.
  destruct ph; cbn [in_phase] in *.
  - destruct Hin as [(_ & Hi & Hf & Hm & Hu & Hc & _) Hd].
    unfold waiting. rewrite Ps, Pi, Pm, Pt. repeat split; assumption.
  - destruct Hin as [Hop (_ & Hi & Hf & Hk & Hm & Hu & Hc & _ & Hd)].
    unfold gathering. rewrite Ps, Pi, Pm, Pt. repeat split; assumption.
  - destruct Hin as (Hc & _). rewrite Hs in Hc. discriminate Hc.
Qed.

(** [process_frame] follows [frame_step]. *)
Lemma process_frame_step (li : bool) (d : list effect) (ph : phase) (s : session)
    (f : in_frame) (rest : list chunk) (ph' : phase) (d' : list effect) :
  in_phase li d ph s -> ready f = true ->
  frame_step li ph f = Some (ph', d') ->
  exists s', m_buf s' = rest /\
    if breaks ph ph' then
      d' = [] /\ thrown_in_open d s'
      /\ exists what, process_frame (arrival f rest s)
                      = (Raise (frame_exception what error.PAYLOAD_VIOLATION), s')
    else
      process_frame (arrival f rest s) = (Ret tt, s') /\ in_phase li (d ++ d') ph' s'.
Proof.
  intros Hin Hr Hstep. unfold frame_step in Hstep.
  destruct ph as [|op acc st cp|].
  - assert (Hs : m_state s = state.OPEN) by apply Hin.
    destruct (get_opcode f) eqn:Ho; try discriminate Hstep; apply (inj Some) in Hstep.
    + destruct Hin as [Hw Hd].
      exact (first_frame_step li d s f opcode.TEXT rest ph' d' Hw Hd Hr Ho
               (or_introl eq_refl) Hstep).
    + destruct Hin as [Hw Hd].
      exact (first_frame_step li d s f opcode.BINARY rest ph' d' Hw Hd Hr Ho
               (or_intror eq_refl) Hstep).
    + injection Hstep as <- <-. cbn [breaks].
      exact (control_frame_step li d awaiting s f rest Hin Hs Hr (or_introl Ho)).
    + injection Hstep as <- <-. cbn [breaks].
      exact (control_frame_step li d awaiting s f rest Hin Hs Hr (or_intror Ho)).
  - assert (Hs : m_state s = state.OPEN) by apply Hin.
    destruct (get_opcode f) eqn:Ho; try discriminate Hstep; apply (inj Some) in Hstep.
    + destruct Hin as [Hop Hg].
      exact (next_frame_step li d s f op acc st cp rest ph' d' Hg Hop Hr Ho Hstep).
    + injection Hstep as <- <-. cbn [breaks].
      exact (control_frame_step li d _ s f rest Hin Hs Hr (or_introl Ho)).
    + injection Hstep as <- <-. cbn [breaks].
      exact (control_frame_step li d _ s f rest Hin Hs Hr (or_intror Ho)).
  - assert (Ho : get_opcode f <> opcode.CLOSE).
    { intros E. rewrite E in Hstep. discriminate Hstep. }
    assert (E : ph' = refused /\ d' = []).
    { destruct (get_opcode f); try discriminate Hstep;
        injection Hstep as <- <-; split; reflexivity. }
    destruct E as [-> ->]. cbn [breaks in_phase] in *.
    destruct (process_ignored s f d rest Hin Hr Ho) as (s' & E & Hc & Hb).
    exists s'. split; [exact Hb|]. split; [exact E|]. rewrite app_nil_r. exact Hc.
Qed.

Lemma breaks_refused (ph ph' : phase) : breaks ph ph' = true -> ph' = refused.
Proof. destruct ph, ph'; cbn; intros E; try discriminate E; reflexivity. Qed.

(** *** The loop over the buffer *)

(** One iteration of the read loop on a chunk that completes a frame: the
    session follows [frame_step], and the loop stops if the frame was
    refused. *)
Lemma read_loop_step (li : bool) (d : list effect) (ph : phase) (s : session)
    (c : chunk) (f : in_frame) (rest : list chunk) (ph' : phase) (d' : list effect) :
  in_phase li d ph s ->
  chunk_result c = consumed f -> ready f = true ->
  frame_step li ph f = Some (ph', d') ->
  (breaks ph ph' = true ->
   invalid close_status.INVALID_PAYLOAD = false
   /\ reserved close_status.INVALID_PAYLOAD = false) ->
  exists s',
    m_buf s' = rest /\ in_phase li (d ++ d') ph' s'
    /\ read_loop (c :: rest) s
       = if breaks ph ph' then (Ret tt, s') else read_loop rest s'.
Proof.
  intros Hin Hc Hr Hstep Hcat.
  destruct (in_phase_active _ _ _ _ Hin) as (Hs & Hn & _).
  rewrite (read_loop_consumed s c f rest Hc Hs Hn Hr).
  destruct (process_frame_step li d ph s f rest ph' d' Hin Hr Hstep) as (s1 & Hb & Hp).
  destruct (breaks ph ph') eqn:Hbr.
  - destruct Hp as (-> & Ht & what & E). rewrite E.
    destruct (Hcat eq_refl) as [Hinv Hres].
    destruct (catch_payload_violation s1 what d Ht Hinv Hres) as (s2 & E2 & Hcl & Hb2).
    rewrite E2. exists s2. split; [rewrite Hb2; exact Hb|].
    rewrite app_nil_r, (breaks_refused _ _ Hbr). split; [exact Hcl | reflexivity].
  - destruct Hp as [E Hin']. rewrite E. exists s1.
    split; [exact Hb|]. split; [exact Hin' | reflexivity].
Qed.

Lemma feed_refused (li : bool) (fs : list in_frame) (ph : phase) (more : list effect) :
  feed li refused fs = Some (ph, more) -> ph = refused /\ more = [].
Proof.
  revert ph more. induction fs as [|f fs IH]; intros ph more Hf; cbn [feed] in Hf.
  - injection Hf as <- <-. split; reflexivity.
  - destruct (frame_step li refused f) as [[ph1 d1]|] eqn:Hstep; [|discriminate Hf].
    assert (E : ph1 = refused /\ d1 = []).
    { unfold frame_step in Hstep.
      destruct (get_opcode f); try discriminate Hstep;
        injection Hstep as <- <-; split; reflexivity. }
    destruct E as [-> ->].
    destruct (feed li refused fs) as [[ph2 d2]|] eqn:Hf2; [|discriminate Hf].
    injection Hf as <- <-. destruct (IH _ _ eq_refl) as [-> ->]. split; reflexivity.
Qed.

Lemma frames_in_cons (c : chunk) (cs : list chunk) :
  frames_in (c :: cs) =
    match completed c with
    | Some f => f :: frames_in cs
    | None => frames_in cs
    end.
Proof. reflexivity. Qed.

Lemma frames_in_app (a b : list chunk) : frames_in (a ++ b) = (frames_in a ++ frames_in b)%list.
Proof. unfold frames_in. apply omap_app. Qed.

(** The read loop takes a session that is on its way one buffer further,
    and leaves the buffer empty unless it has refused a frame. *)
Lemma read_loop_heading (li : bool) (target : phase) (total : list effect)
    (future : list in_frame) :
  (target = refused ->
   invalid close_status.INVALID_PAYLOAD = false
   /\ reserved close_status.INVALID_PAYLOAD = false) ->
  forall (cs : list chunk) (s : session),
    m_buf s = cs ->
    heading li target total future s ->
    exists s',
      read_loop cs s = (Ret tt, s')
      /\ heading li target total future s' /\ drained s'.
Proof.
  intros Hcat. induction cs as [|c rest IH]; intros s Hbuf Hh.
  - exists s. split; [reflexivity|]. split; [exact Hh | left; exact Hbuf].
  - destruct Hh as (ph & d & more & Hin & Hfe & Hfeed & Ht).
    rewrite Hbuf in Hfe, Hfeed. cbn [forallb] in Hfe.
    apply andb_true_iff in Hfe as [Hc Hfe].
    rewrite frames_in_cons in Hfeed.
    unfold feeds in Hc. unfold completed in Hfeed.
    destruct (chunk_result c) as [g|] eqn:Hcr; [|discriminate Hc].
    destruct (ready g) eqn:Hr.
    + cbn [app feed] in Hfeed.
      destruct (frame_step li ph g) as [[ph1 d1]|] eqn:Hstep; [|discriminate Hfeed].
      destruct (feed li ph1 (frames_in rest ++ future)) as [[ph2 d2]|] eqn:Hf2;
        [|discriminate Hfeed].
      injection Hfeed as -> <-.
      assert (Hcat1 : breaks ph ph1 = true ->
                      invalid close_status.INVALID_PAYLOAD = false
                      /\ reserved close_status.INVALID_PAYLOAD = false).
      { intros Hbr. apply Hcat. rewrite (breaks_refused _ _ Hbr) in Hf2.
        apply (feed_refused _ _ _ _ Hf2). }
      destruct (read_loop_step li d ph s c g rest ph1 d1 Hin Hcr Hr Hstep Hcat1)
        as (s1 & Hb1 & Hin1 & E).
      assert (Hh1 : heading li target total future s1).
      { exists ph1, (d ++ d1)%list, d2. rewrite Hb1.
        split; [exact Hin1|]. split; [exact Hfe|]. split; [exact Hf2|].
        rewrite Ht. rewrite app_assoc. reflexivity. }
      rewrite E. destruct (breaks ph ph1) eqn:Hbr.
      * exists s1. split; [reflexivity|]. split; [exact Hh1|].
        right. rewrite (breaks_refused _ _ Hbr) in Hin1. apply Hin1.
      * exact (IH s1 Hb1 Hh1).
    + cbn [orb] in Hc. apply Z.ltb_lt in Hc.
      destruct (in_phase_active _ _ _ _ Hin) as (Hs & Hn & _).
      rewrite (read_loop_partial s c g rest Hcr Hs Hn Hr).
      apply IH; [reflexivity|].
      exists ph, d, more. cbn [m_buf upd_read_frame with_buf].
      split; [|split; [exact Hfe | split; [exact Hfeed | exact Ht]]].
      apply (in_phase_same li d ph s); try reflexivity; [exact Hin | exact Hc].
Qed.

(** The end of a read that leaves the session OPEN or CLOSING with its
    parser waiting: the next read is started. *)
Lemma check_read_more_started (s : session) :
  active s = true ->
  (0 < get_bytes_needed (m_read_frame s))%Z ->
  check_read_more s =
    (Ret tt,
     record Easync_read
       (record (Elog ("starting async read for "
                        +:+ pretty (get_bytes_needed (m_read_frame s)) +:+ " bytes.")
                  LOG_DEBUG) s)).
Proof.
  intros Ha Hn. apply Z.ltb_lt in Hn. unfold active in Ha.
  unfold check_read_more. monad_unfold. rewrite Ha, Hn. reflexivity.
Qed.

(** A read that completes without error on a session that is OPEN or
    CLOSING: the loop, then the check whether to read more. *)
Lemma handle_read_frame_success (s : session) :
  active s = true ->
  handle_read_frame ec_success s = (read_loop (m_buf s);; check_read_more) s.
Proof.
  intros Ha. unfold active in Ha. unfold handle_read_frame, check_read_more.
  apply orb_true_iff in Ha.
  assert (Hg : negb (state.eqb (m_state s) state.OPEN)
               && negb (state.eqb (m_state s) state.CLOSING) = false).
  { destruct Ha as [-> | ->]; [reflexivity|]. apply andb_false_r. }
  unfold bind at 1. unfold get at 1. cbv beta iota. rewrite Hg.
  change (is_error ec_success) with false. cbv iota.
  cbn [negb andb]. cbv iota.
  unfold bind, get, ret, when. cbv beta iota.
  change (bool_decide (ec_success = ec_eof)) with false. cbv iota.
  destruct (read_loop (m_buf s) s) as [[[]|e] s1]; reflexivity.
Qed.


(** *** From the loop to the reads *)

(** One read that completes without error. *)
Lemma frames_read_heading (li : bool) (target : phase) (total : list effect)
    (future : list in_frame) (incoming : list chunk) (s : session) :
  (target = refused ->
   invalid close_status.INVALID_PAYLOAD = false
   /\ reserved close_status.INVALID_PAYLOAD = false) ->
  forallb feeds incoming = true ->
  heading li target total (frames_in incoming ++ future) s ->
  exists s',
    step (frames_read ec_success incoming) s = (Ret tt, s')
    /\ heading li target total future s' /\ drained s'.
Proof.
  intros Hcat Hfi (ph & d & more & Hin & Hfe & Hfeed & Ht).
  set (s0 := with_buf (m_buf s ++ incoming) s).
  assert (Hin0 : in_phase li d ph s0).
  { apply (in_phase_same li d ph s); try reflexivity; [exact Hin|].
    apply (in_phase_active _ _ _ _ Hin). }
  assert (Hh0 : heading li target total future s0).
  { exists ph, d, more. cbn [s0 m_buf with_buf].
    split; [exact Hin0|]. split; [rewrite forallb_app, Hfe, Hfi; reflexivity|].
    split; [|exact Ht].
    rewrite frames_in_app, <- app_assoc. exact Hfeed. }
  destruct (read_loop_heading li target total future Hcat (m_buf s0) s0 eq_refl Hh0)
    as (s1 & E1 & Hh1 & Hd1).
  destruct Hh1 as (ph1 & d1 & more1 & Hin1 & Hfe1 & Hfeed1 & Ht1).
  destruct (in_phase_active _ _ _ _ Hin0) as (_ & _ & Ha0).
  destruct (in_phase_active _ _ _ _ Hin1) as (_ & Hn1 & Ha1).
  eexists. split.
  - cbn [step]. unfold bind at 1. unfold modify at 1. cbv beta iota. fold s0.
    rewrite (handle_read_frame_success s0 Ha0). unfold bind at 1. rewrite E1.
    apply (check_read_more_started s1 Ha1 Hn1).
  - split.
    + exists ph1, d1, more1. cbn [m_buf record].
      split; [|split; [exact Hfe1 | split; [exact Hfeed1 | exact Ht1]]].
      apply (in_phase_same li d1 ph1 s1); try reflexivity; try exact Hin1; try exact Hn1.
      * cbn [trace record]. rewrite !messages_app. cbn. rewrite !app_nil_r. reflexivity.
      * cbn [trace record]. rewrite !frames_written_app. cbn. rewrite !app_nil_r.
        reflexivity.
    + unfold drained in *. cbn [m_buf m_state record]. exact Hd1.
Qed.

(** Any number of reads. *)
Lemma reads_heading (li : bool) (target : phase) (total : list effect) :
  (target = refused ->
   invalid close_status.INVALID_PAYLOAD = false
   /\ reserved close_status.INVALID_PAYLOAD = false) ->
  forall (reads : list (list chunk)) (s : session),
    forallb feeds (concat reads) = true ->
    heading li target total (frames_in (concat reads)) s ->
    drained s ->
    exists s',
      run (map (frames_read ec_success) reads) s = (Ret tt, s')
      /\ heading li target total [] s' /\ drained s'.
Proof.
  intros Hcat. induction reads as [|r reads IH]; intros s Hfe Hh Hd.
  - exists s. split; [reflexivity|]. split; assumption.
  - cbn [concat] in Hfe, Hh. rewrite forallb_app in Hfe.
    apply andb_true_iff in Hfe as [Hfr Hfe]. rewrite frames_in_app in Hh.
    destruct (frames_read_heading li target total _ r s Hcat Hfr Hh)
      as (s1 & E1 & Hh1 & Hd1).
    destruct (IH s1 Hfe Hh1 Hd1) as (s2 & E2 & Hh2 & Hd2).
    exists s2. split; [|split; assumption].
    cbn [map run]. unfold bind. rewrite E1. exact E2.
Qed.

(** A session that has arrived. *)
Lemma heading_arrived (li : bool) (target : phase) (total : list effect) (s : session) :
  heading li target total [] s -> drained s -> in_phase li total target s.
Proof.
  intros (ph & d & more & Hin & _ & Hfeed & Ht) Hd. rewrite app_nil_r in Hfeed.
  destruct Hd as [Hb | Hc].
  - rewrite Hb in Hfeed. cbn in Hfeed. injection Hfeed as <- <-.
    rewrite Ht, app_nil_r. exact Hin.
  - pose proof (in_phase_closing _ _ _ _ Hin Hc) as ->.
    destruct (feed_refused _ _ _ _ Hfeed) as [-> ->].
    rewrite Ht, app_nil_r. exact Hin.
Qed.

(** The reads that bring the frames [fs], from a session with no message
    in progress and nothing buffered. *)
Lemma reads_arrive (li : bool) (s : session) (reads : list (list chunk))
    (fs : list in_frame) (target : phase) (dd : list effect) :
  waiting li s -> m_buf s = [] ->
  arrive reads fs ->
  feed li awaiting fs = Some (target, dd) ->
  (target = refused ->
   invalid close_status.INVALID_PAYLOAD = false
   /\ reserved close_status.INVALID_PAYLOAD = false) ->
  exists s',
    run (map (frames_read ec_success) reads) s = (Ret tt, s')
    /\ in_phase li (messages (trace s) ++ dd) target s'
    /\ drained s'.
Proof.
  intros Hw Hb [Hfe Hfs] Hfeed Hcat.
  assert (Hh : heading li target (messages (trace s) ++ dd)
                 (frames_in (concat reads)) s).
  { exists awaiting, (messages (trace s)), dd. rewrite Hb.
    change (frames_in [] ++ frames_in (concat reads))%list with (frames_in (concat reads)).
    rewrite Hfs. cbn [in_phase forallb]. repeat split; try assumption; apply Hw. }
  destruct (reads_heading li target _ Hcat reads s Hfe Hh (or_introl Hb))
    as (s' & E & Hh' & Hd').
  exists s'. split; [exact E|]. split; [|exact Hd'].
  apply heading_arrived; assumption.
Qed.

(** *** The frames of a message *)

Lemma feed_silent (li : bool) (ph ph1 : phase) (f : in_frame) (fs : list in_frame) :
  frame_step li ph f = Some (ph1, []) -> feed li ph (f :: fs) = feed li ph1 fs.
Proof.
  intros Hstep. cbn [feed]. rewrite Hstep.
  destruct (feed li ph1 fs) as [[ph2 d2]|]; reflexivity.
Qed.

Lemma feed_refused_frames (li : bool) (fs : list in_frame) :
  Forall (fun f => get_opcode f <> opcode.CLOSE) fs ->
  feed li refused fs = Some (refused, []).
Proof.
  induction 1 as [|f fs Hf _ IH]; [reflexivity|].
  rewrite (feed_silent li refused refused); [exact IH|].
  unfold frame_step. destruct (get_opcode f); try reflexivity. contradiction.
Qed.

Lemma interleaved_not_close (middle : list interleaved) :
  Forall (fun f => get_opcode f <> opcode.CLOSE) (map interleaved_frame middle).
Proof.
  induction middle as [|b middle IH]; constructor; [|exact IH].
  destruct b; discriminate.
Qed.

(** The frames after the first, up to some frames [fs] that are not
    CLOSE frames. *)
Lemma feed_fragments (li : bool) (op : opcode.value) (fs : list in_frame) :
  Forall (fun f => get_opcode f <> opcode.CLOSE) fs ->
  forall (middle : list interleaved) (acc : list byte) (st cp : Z),
    feed li (collecting op acc st cp) (map interleaved_frame middle ++ fs) =
      match validated op (concat (map fragment_bytes middle)) st cp with
      | (st', cp', true) =>
          feed li (collecting op (acc ++ concat (map fragment_bytes middle)) st' cp') fs
      | _ => Some (refused, [])
      end.
Proof.
  intros Hfs. induction middle as [|b middle IH]; intros acc st cp.
  - cbn [map concat app]. rewrite validated_nil, app_nil_r. reflexivity.
  - cbn [map concat app]. destruct b as [p|p|p]; cbn [interleaved_frame fragment_bytes].
    + rewrite validated_app.
      destruct (validated op p st cp) as [[st1 cp1] ok] eqn:Hv. destruct ok.
      * rewrite (feed_silent li _ (collecting op (acc ++ p) st1 cp1)).
        2:{ unfold frame_step, data_step. cbn [decoded get_opcode get_payload get_fin].
            rewrite Hv. reflexivity. }
        rewrite IH, app_assoc. reflexivity.
      * rewrite (feed_silent li _ refused).
        2:{ unfold frame_step, data_step. cbn [decoded get_opcode get_payload get_fin].
            rewrite Hv. reflexivity. }
        apply feed_refused_frames. apply Forall_app. split; [|exact Hfs].
        apply interleaved_not_close.
    + rewrite (feed_silent li _ (collecting op acc st cp)) by reflexivity.
      cbn [app]. apply IH.
    + rewrite (feed_silent li _ (collecting op acc st cp)) by reflexivity.
      cbn [app]. apply IH.
Qed.

(** A message that has not ended yet. *)
Lemma feed_unfinished (li : bool) (op : opcode.value) (first : list byte)
    (middle : list interleaved) :
  op = opcode.TEXT \/ op = opcode.BINARY ->
  feed li awaiting (decoded false op first :: map interleaved_frame middle) =
    Some (match validated op (first ++ concat (map fragment_bytes middle)) UTF8_ACCEPT 0 with
          | (st, cp, true) =>
              (collecting op (first ++ concat (map fragment_bytes middle)) st cp, [])
          | _ => (refused, [])
          end).
Proof.
  intros Hop. rewrite validated_app.
  destruct (validated op first UTF8_ACCEPT 0) as [[st1 cp1] ok] eqn:Hv.
  assert (Hstep : frame_step li awaiting (decoded false op first)
                  = Some (if ok then (collecting op first st1 cp1, []) else (refused, []))).
  { unfold frame_step, data_step. cbn [decoded get_opcode get_payload get_fin app].
    destruct Hop as [-> | ->]; rewrite Hv; destruct ok; reflexivity. }
  destruct ok.
  - rewrite (feed_silent li _ _ _ _ Hstep).
    rewrite <- (app_nil_r (map interleaved_frame middle)).
    rewrite (feed_fragments li op [] (List.Forall_nil _)).
    destruct (validated op (concat (map fragment_bytes middle)) st1 cp1) as [[st2 cp2] []];
      reflexivity.
  - rewrite (feed_silent li _ _ _ _ Hstep).
    apply feed_refused_frames. apply interleaved_not_close.
Qed.

(** A whole message. *)
Lemma feed_message (li : bool) (op : opcode.value) (m : wire_message) :
  op = opcode.TEXT \/ op = opcode.BINARY ->
  feed li awaiting (message_frames op m) =
    Some (match validated op (message_bytes m) UTF8_ACCEPT 0 with
          | (st, _, true) => completion li op (message_bytes m) st
          | _ => (refused, [])
          end).
Proof.
  intros Hop. destruct m as [p | first middle last]; cbn [message_frames message_bytes].
  - cbn [feed]. unfold frame_step, data_step.
    cbn [decoded get_opcode get_payload get_fin app].
    destruct Hop as [-> | ->];
      destruct (validated _ p UTF8_ACCEPT 0) as [[st cp] []];
      try reflexivity;
      destruct (completion li _ p st); rewrite app_nil_r; reflexivity.
  - rewrite validated_app.
    destruct (validated op first UTF8_ACCEPT 0) as [[st1 cp1] ok] eqn:Hv.
    assert (Hstep : frame_step li awaiting (decoded false op first)
                    = Some (if ok then (collecting op first st1 cp1, [])
                            else (refused, []))).
    { unfold frame_step, data_step. cbn [decoded get_opcode get_payload get_fin app].
      destruct Hop as [-> | ->]; rewrite Hv; destruct ok; reflexivity. }
    assert (Hlast : Forall (fun f => get_opcode f <> opcode.CLOSE)
                      [decoded true opcode.CONTINUATION last]).
    { constructor; [discriminate | constructor]. }
    destruct ok.
    + rewrite (feed_silent li _ _ _ _ Hstep).
      rewrite (feed_fragments li op _ Hlast), validated_app.
      destruct (validated op (concat (map fragment_bytes middle)) st1 cp1)
        as [[st2 cp2] ok2] eqn:Hv2.
      destruct ok2; [|reflexivity].
      cbn [feed]. unfold frame_step, data_step.
      cbn [decoded get_opcode get_payload get_fin].
      destruct (validated op last st2 cp2) as [[st3 cp3] []]; [|reflexivity].
      rewrite <- app_assoc.
      destruct (completion li op _ st3); rewrite app_nil_r; reflexivity.
    + rewrite (feed_silent li _ _ _ _ Hstep).
      apply feed_refused_frames. apply Forall_app. split; [|exact Hlast].
      apply interleaved_not_close.
Qed.
(** *** The message as the handler sees it *)

(** C4, as the code has it.  A session is open with a handler attached,
    no message in progress and nothing buffered.  The frames of one
    fragmented message arrive: the first data frame (fin = 0), then any
    number of further fragments with PING and PONG frames anywhere among
    them, then the CONTINUATION frame with fin = 1.  They arrive in any
    number of reads, and each frame in any number of pieces.  If the
    message is BINARY, or TEXT whose bytes are valid UTF-8, every read
    handler returns normally, [on_message] is called exactly once more,
    with the payloads of the data frames concatenated in wire order, and
    the session is ready for the next message with its buffer empty. *)
Theorem fragmented_message_delivered_once (s : session) (op : opcode.value)
    (first : list byte) (middle : list interleaved) (last : list byte) (cp' : Z)
    (reads : list (list chunk)) :
  between_messages s ->
  m_buf s = [] ->
  op = opcode.BINARY
    \/ op = opcode.TEXT
       /\ validate_utf8_bytes (first ++ concat (map fragment_bytes middle) ++ last)
            UTF8_ACCEPT 0 = (UTF8_ACCEPT, cp', true) ->
  arrive reads (message_frames op (in_fragments first middle last)) ->
  let events := map (frames_read ec_success) reads in
  let s' := exec (run events) s in
  result (run events) s = Ret tt
  /\ messages (trace s')
     = (messages (trace s)
          ++ [delivery op (first ++ concat (map fragment_bytes middle) ++ last)])%list
  /\ between_messages s'
  /\ m_buf s' = [].
Proof.
  intros Hb Hbuf Hop Harr events s'.
  set (m := in_fragments first middle last) in *.
  assert (Hop' : op = opcode.TEXT \/ op = opcode.BINARY) by (destruct Hop as [-> | [-> _]]; auto).
  assert (Hfeed : feed true awaiting (message_frames op m)
                  = Some (awaiting, [delivery op (message_bytes m)])).
  { rewrite (feed_message true op m Hop'). unfold completion.
    destruct Hop as [-> | [-> Hv]]; cbn [validated opcode.eqb orb].
    - reflexivity.
    - change (message_bytes m) with (first ++ concat (map fragment_bytes middle) ++ last)%list.
      rewrite Hv, Z.eqb_refl. reflexivity. }
  destruct (reads_arrive true s reads _ awaiting _ Hb Hbuf Harr Hfeed)
    as (s1 & E & [Hw Hm] & Hd); [discriminate|].
  subst s' events. unfold result, exec. rewrite E. cbn [fst snd].
  split; [reflexivity|]. split; [exact Hm|]. split; [exact Hw|].
  destruct Hd as [Hd | Hd]; [exact Hd|].
  destruct Hw as (Hs & _). rewrite Hs in Hd. discriminate Hd.
Qed.

(** C5, as the code has it.  A session is open, its handler attached or
    not, with no message in progress and nothing buffered, and the frames
    of a TEXT message arrive in any number of reads and pieces, with PING
    and PONG frames anywhere among its fragments.  The validator runs over
    the payloads as over one byte string, its state carried from frame to
    frame and from read to read.

    While the message has not ended, the session holds the bytes collected
    and the state the validator has reached on them; if the validator has
    rejected a byte, the session has answered the payload violation
    instead.

    When the message has ended: if the validator rejected no byte and,
    with a handler attached, ended in ACCEPT, the session is back between
    messages with the validator at (ACCEPT, 0) and its buffer empty; the
    message has been delivered if there is a handler, and dropped
    unchecked if there is none.  Otherwise nothing is delivered and the
    session has answered the payload violation: it is in CLOSING with
    local close code INVALID_PAYLOAD, and the last frame written is a
    CLOSE frame with that status (INVALID_PAYLOAD being neither invalid
    nor reserved in the catalogue). *)
Theorem text_message_checked_on_completion (li : bool) (s : session) :
  waiting li s ->
  m_buf s = [] ->
  invalid close_status.INVALID_PAYLOAD = false ->
  reserved close_status.INVALID_PAYLOAD = false ->
  (forall (first : list byte) (middle : list interleaved) (reads : list (list chunk)),
     arrive reads (decoded false opcode.TEXT first :: map interleaved_frame middle) ->
     let events := map (frames_read ec_success) reads in
     let s' := exec (run events) s in
     result (run events) s = Ret tt
     /\ match validate_utf8_bytes (first ++ concat (map fragment_bytes middle))
                UTF8_ACCEPT 0 with
        | (st, cp, true) =>
            gathering li opcode.TEXT (first ++ concat (map fragment_bytes middle)) st cp
              (messages (trace s)) s'
            /\ m_buf s' = []
        | _ => closing_invalid_payload (messages (trace s)) s'
        end)
  /\ (forall (m : wire_message) (reads : list (list chunk)),
        arrive reads (message_frames opcode.TEXT m) ->
        let events := map (frames_read ec_success) reads in
        let s' := exec (run events) s in
        result (run events) s = Ret tt
        /\ match validate_utf8_bytes (message_bytes m) UTF8_ACCEPT 0 with
           | (st, _, ok) =>
               if ok && (negb li || (st =? UTF8_ACCEPT)%Z) then
                 waiting li s'
                 /\ m_buf s' = []
                 /\ messages (trace s')
                    = (messages (trace s)
                         ++ if li
                            then [Eon_message_text (string_of_list_byte (message_bytes m))]
                            else [])%list
               else
                 closing_invalid_payload (messages (trace s)) s'
           end).
Proof.
  intros Hw Hbuf Hinv Hres.
  assert (Hcat : forall target : phase,
            target = refused ->
            invalid close_status.INVALID_PAYLOAD = false
            /\ reserved close_status.INVALID_PAYLOAD = false)
    by (intros _ _; split; assumption).
  assert (Hempty : forall s1 : session,
            drained s1 -> m_state s1 = state.OPEN -> m_buf s1 = []).
  { intros s1 [Hd | Hd] Hs; [exact Hd|]. rewrite Hs in Hd. discriminate Hd. }
  split.
  - intros first middle reads Harr events s'.
    pose proof (feed_unfinished li opcode.TEXT first middle (or_introl eq_refl)) as Hfeed.
    cbn [validated] in Hfeed.
    destruct (validate_utf8_bytes (first ++ concat (map fragment_bytes middle))
                UTF8_ACCEPT 0) as [[st cp] ok].
    destruct ok.
    + destruct (reads_arrive li s reads _ _ _ Hw Hbuf Harr Hfeed (Hcat _))
        as (s1 & E & [_ Hg] & Hd).
      subst s' events. unfold result, exec. rewrite E. cbn [fst snd].
      rewrite app_nil_r in Hg.
      split; [reflexivity|]. split; [exact Hg|]. apply Hempty; [exact Hd | apply Hg].
    + destruct (reads_arrive li s reads _ _ _ Hw Hbuf Harr Hfeed (Hcat _))
        as (s1 & E & Hc & _).
      subst s' events. unfold result, exec. rewrite E. cbn [fst snd in_phase] in *.
      rewrite app_nil_r in Hc. split; [reflexivity | exact Hc].
  - intros m reads Harr events s'.
    pose proof (feed_message li opcode.TEXT m (or_introl eq_refl)) as Hfeed.
    cbn [validated] in Hfeed. unfold completion in Hfeed.
    cbn [opcode.eqb orb] in Hfeed.
    destruct (validate_utf8_bytes (message_bytes m) UTF8_ACCEPT 0) as [[st cp] ok].
    destruct ok; cbn [andb].
    + destruct li; cbn [negb orb].
      * destruct (st =? UTF8_ACCEPT)%Z.
        -- destruct (reads_arrive true s reads _ _ _ Hw Hbuf Harr Hfeed (Hcat _))
             as (s1 & E & [Hw1 Hm] & Hd).
           subst s' events. unfold result, exec. rewrite E. cbn [fst snd].
           split; [reflexivity|]. split; [exact Hw1|].
           split; [apply Hempty; [exact Hd | apply Hw1] | exact Hm].
        -- destruct (reads_arrive true s reads _ _ _ Hw Hbuf Harr Hfeed (Hcat _))
             as (s1 & E & Hc & _).
           subst s' events. unfold result, exec. rewrite E. cbn [fst snd in_phase] in *.
           rewrite app_nil_r in Hc. split; [reflexivity | exact Hc].
      * destruct (reads_arrive false s reads _ _ _ Hw Hbuf Harr Hfeed (Hcat _))
          as (s1 & E & [Hw1 Hm] & Hd).
        subst s' events. unfold result, exec. rewrite E. cbn [fst snd].
        split; [reflexivity|]. split; [exact Hw1|].
        split; [apply Hempty; [exact Hd | apply Hw1] | exact Hm].
    + destruct (reads_arrive li s reads _ _ _ Hw Hbuf Harr Hfeed (Hcat _))
        as (s1 & E & Hc & _).
      subst s' events. unfold result, exec. rewrite E. cbn [fst snd in_phase] in *.
      rewrite app_nil_r in Hc. split; [reflexivity | exact Hc].
Qed.

End Assembly.

Lemma open_session_between_messages : @between_messages example_policy open_session.
Proof. vm_compute. repeat split. Qed.

Lemma fragmented_message_delivered_once_witness :
  messages (trace (exec (@run example_policy (map (frames_read ec_success) hello_world_reads))
                     open_session))
  = [Eon_message_text "Hello, World"].
Proof.
  assert (Hv : opcode.TEXT = opcode.BINARY
               \/ opcode.TEXT = opcode.TEXT
                  /\ @validate_utf8_bytes example_policy
                       (hel ++ concat (map fragment_bytes
                                         [ping_frame (list_byte_of_string "x");
                                          fragment (list_byte_of_string "lo, ")])
                            ++ list_byte_of_string "World")
                       (@UTF8_ACCEPT example_policy) 0
                     = (@UTF8_ACCEPT example_policy, 100%Z, true))
    by (right; split; [reflexivity | vm_compute; reflexivity]).
  exact (proj1 (proj2 (@fragmented_message_delivered_once example_policy
                         open_session opcode.TEXT hel
                         [ping_frame (list_byte_of_string "x");
                          fragment (list_byte_of_string "lo, ")]
                         (list_byte_of_string "World") 100%Z hello_world_reads
                         open_session_between_messages eq_refl Hv
                         (conj eq_refl eq_refl)))).
Defined.

(** C4 fails as stated.  With no handler attached the frames of
    [hello_world] are collected and the message is dropped: [on_message]
    is never called.  And a CLOSE frame is a control frame too: between
    the fragments of a message it is answered and ends the session, and
    the message is never delivered. *)
Lemma fragmented_message_not_delivered :
  frames_in (concat hello_world_reads) = message_frames opcode.TEXT hello_world
  /\ m_local_interface headless_session = false
  /\ m_state headless_hello_world = state.OPEN
  /\ m_fragmented (m_message headless_hello_world) = false
  /\ m_current_message (m_message headless_hello_world) = []
  /\ messages (trace headless_hello_world) = []
  /\ m_local_interface close_among_fragments = true
  /\ m_state close_among_fragments = state.CLOSED
  /\ messages (trace close_among_fragments) = [].
Proof. vm_compute. repeat split. Qed.

Lemma text_message_checked_on_completion_witness :
  messages (trace (exec (@run example_policy
                           (map (frames_read ec_success) split_code_point_reads))
                     open_session))
  = [Eon_message_text (string_of_list_byte [xc3; xa9])].
Proof.
  exact (proj2 (proj2 (proj2 (proj2 (@text_message_checked_on_completion example_policy
                                true open_session open_session_between_messages
                                eq_refl eq_refl eq_refl)
                     split_code_point split_code_point_reads (conj eq_refl eq_refl))))).
Defined.

(** C5 fails as stated: with no handler attached, a TEXT message whose
    payload ends inside a code point leaves the validator out of ACCEPT
    when it completes, yet [process_frame] returns normally; the session
    stays OPEN and writes no CLOSE frame. *)
Lemma headless_incomplete_text_is_accepted :
  m_state headless_session = state.OPEN
  /\ m_local_interface headless_session = false
  /\ @validate_utf8_bytes example_policy [xc3] 0 0 = (2%Z, 3%Z, true)
  /\ result (@process_frame example_policy)
       (arrival (decoded true opcode.TEXT [xc3]) [] headless_session) = Ret tt
  /\ m_state headless_incomplete = state.OPEN
  /\ frames_written (trace headless_incomplete) = []
  /\ m_local_close_code (m_close headless_incomplete) = close_status.NO_STATUS.
Proof. vm_compute. repeat split. Qed.

(** ** The opening handshake *)

Section Handshake.
Context `{endpoint_policy}.

Lemma bind_ret {A B} (m : M A) (k : A -> M B) (s s' : session) (a : A) :
  m s = (Ret a, s') -> bind m k s = k a s'.
Proof. intros E. unfold bind. rewrite E. reflexivity. Qed.

Lemma bind_raise {A B} (m : M A) (k : A -> M B) (s s' : session) (e : exn) :
  m s = (Raise e, s') -> bind m k s = (Raise e, s').
Proof. intros E. unfold bind. rewrite E. reflexivity. Qed.

Lemma same_request_refl s : same_request s s.
Proof. repeat split. Qed.

Lemma same_request_trans s1 s2 s3 :
  same_request s1 s2 -> same_request s2 s3 -> same_request s1 s3.
Proof.
  intros (A1 & A2 & A3 & A4) (B1 & B2 & B3 & B4).
  repeat split; congruence.
Qed.

(** Each check on its own: it throws the text of [failure_text] with
    status 400, or returns. *)
Lemma check_request_line_spec (s : session) :
  if request_line_ok s then
    exists s', check_request_line s = (Ret tt, s')
               /\ trace s' = trace s /\ same_request s s'
               /\ m_version (m_handshake s') = m_version (m_handshake s)
  else
    check_request_line s = (Raise (handshake_error (failure_text 1 s) 400 ""), s).
Proof.
  unfold request_line_ok, check_request_line, failure_text. monad_unfold.
  destruct (String.eqb (substr (m_client_http_request (m_handshake s)) 0 4) "GET ");
    cbn [negb andb]; [|reflexivity].
  destruct (find " HTTP/1.1" 4 (m_client_http_request (m_handshake s))) as [e|]; cbn.
  - eexists. split; [reflexivity|]. repeat split.
  - reflexivity.
Qed.

Lemma check_host_spec (s : session) :
  if host_ok s then
    exists s', check_host s = (Ret tt, s')
               /\ trace s' = (trace s ++ [Evalidate_host (get_client_header "Host" s)])%list
               /\ same_request s s'
               /\ m_version (m_handshake s') = m_version (m_handshake s)
  else
    exists s', check_host s = (Raise (handshake_error (failure_text 2 s) 400 ""), s')
               /\ trace s' = (trace s ++ host_consulted 2 s)%list
               /\ same_request s s'
               /\ m_version (m_handshake s') = m_version (m_handshake s).
Proof.
  unfold host_ok, check_host, failure_text, host_consulted. monad_unfold.
  destruct (String.eqb (get_client_header "Host" s) ""); cbn [negb andb Nat.leb].
  - exists s. rewrite app_nil_r. repeat split.
  - destruct (validate_host (get_client_header "Host" s)); cbn [negb];
      eexists; (split; [reflexivity|]); repeat split.
Qed.

Lemma check_upgrade_spec (s : session) :
  check_upgrade s =
    if upgrade_ok s then (Ret tt, s)
    else (Raise (handshake_error (failure_text 3 s) 400 ""), s).
Proof.
  unfold upgrade_ok, check_upgrade, failure_text. monad_unfold.
  destruct (String.eqb (get_client_header "Upgrade" s) ""); cbn [negb andb]; [reflexivity|].
  destruct (iequals (get_client_header "Upgrade" s) "websocket"); reflexivity.
Qed.

Lemma check_connection_spec (s : session) :
  check_connection s =
    if connection_ok s then (Ret tt, s)
    else (Raise (handshake_error (failure_text 4 s) 400 ""), s).
Proof.
  unfold connection_ok, check_connection, failure_text. monad_unfold.
  destruct (String.eqb (get_client_header "Connection" s) ""); cbn [negb andb]; [reflexivity|].
  destruct (ifind_first (get_client_header "Connection" s) "upgrade"); reflexivity.
Qed.

Lemma check_key_spec (s : session) :
  check_key s =
    if key_ok s then (Ret tt, s)
    else (Raise (handshake_error (failure_text 5 s) 400 ""), s).
Proof.
  unfold key_ok, check_key, failure_text. monad_unfold.
  destruct (String.eqb (get_client_header "Sec-WebSocket-Key" s) ""); reflexivity.
Qed.

Lemma version_in_list (v : Z) :
  bool_decide (v ∈ [7; 8; 13]%Z) = negb (negb (v =? 7)%Z && negb (v =? 8)%Z && negb (v =? 13)%Z).
Proof.
  destruct (v =? 7)%Z eqn:E7; [apply Z.eqb_eq in E7; subst; reflexivity|].
  destruct (v =? 8)%Z eqn:E8; [apply Z.eqb_eq in E8; subst; reflexivity|].
  destruct (v =? 13)%Z eqn:E13; [apply Z.eqb_eq in E13; subst; reflexivity|].
  apply Z.eqb_neq in E7, E8, E13. cbn. apply bool_decide_eq_false.
  rewrite !elem_of_cons, elem_of_nil. tauto.
Qed.

Lemma check_version_spec (s : session) :
  if version_ok s then
    exists s', check_version s = (Ret tt, s')
               /\ trace s' = trace s /\ same_request s s'
               /\ m_version (m_handshake s') = requested_version s
  else
    exists s', check_version s = (Raise (handshake_error (failure_text 6 s) 400 ""), s')
               /\ trace s' = trace s /\ same_request s s'.
Proof.
  unfold version_ok, check_version, failure_text. monad_unfold.
  destruct (String.eqb (get_client_header "Sec-WebSocket-Version" s) ""); cbn [negb andb].
  - exists s. repeat split.
  - rewrite version_in_list. fold (requested_version s).
    destruct (negb (requested_version s =? 7)%Z && negb (requested_version s =? 8)%Z
              && negb (requested_version s =? 13)%Z); cbn [negb];
      eexists; (split; [reflexivity|]); repeat split.
Qed.

Lemma same_request_header (s s' : session) (key : string) :
  same_request s s' -> get_client_header key s' = get_client_header key s.
Proof. intros (_ & Hh & _). unfold get_client_header. rewrite Hh. reflexivity. Qed.

Lemma same_request_checks (s s' : session) :
  same_request s s' ->
  host_ok s' = host_ok s /\ upgrade_ok s' = upgrade_ok s
  /\ connection_ok s' = connection_ok s /\ key_ok s' = key_ok s
  /\ version_ok s' = version_ok s
  /\ (forall k, failure_text k s' = failure_text k s)
  /\ (forall k, host_consulted k s' = host_consulted k s)
  /\ requested_version s' = requested_version s.
Proof.
  intros Hr.
  assert (Hh : forall key, get_client_header key s' = get_client_header key s)
    by (intros key; apply same_request_header; exact Hr).
  destruct Hr as (Hq & _).
  unfold host_ok, upgrade_ok, connection_ok, key_ok, version_ok, failure_text,
    host_consulted, requested_version.
  rewrite !Hh, Hq. repeat split; reflexivity.
Qed.

(** The [try] block: it throws with the text of the first check that
    fails, having consulted [validate_host] only if the checks before it
    passed and never the handler; or all six checks pass. *)
Lemma handshake_checks_spec (s : session) :
  match first_failed_check s with
  | Some k =>
      exists s',
        handshake_checks s = (Raise (handshake_error (failure_text k s) 400 ""), s')
        /\ trace s' = (trace s ++ host_consulted k s)%list
        /\ same_request s s'
        /\ ((k <= 5)%nat -> m_version (m_handshake s') = m_version (m_handshake s))
  | None =>
      m_local_interface s = false \/ (forall s0, handler_validate s0 = None) ->
      exists s',
        handshake_checks s = (Ret tt, s')
        /\ same_request s s'
        /\ m_version (m_handshake s') = requested_version s
        /\ m_server_http_code (m_handshake s') = 101%Z
        /\ m_server_http_string (m_handshake s') = "Switching Protocols"
  end.
Proof.
  unfold first_failed_check, handshake_checks.
  pose proof (check_request_line_spec s) as H1.
  destruct (request_line_ok s); cbn [negb].
  2:{ exists s. rewrite (bind_raise _ _ _ _ _ H1). unfold host_consulted. cbn.
      rewrite app_nil_r. repeat split. }
  destruct H1 as (s1 & E1 & T1 & R1 & V1). rewrite (bind_ret _ _ _ _ _ E1).
  destruct (same_request_checks s s1 R1) as (Ch & Cu & Cc & Ck & Cv & Cf & Cx & Cr).
  pose proof (check_host_spec s1) as H2. rewrite Ch in H2.
  destruct (host_ok s) eqn:Hhost; cbn [negb].
  2:{ destruct H2 as (s2 & E2 & T2 & R2 & V2). exists s2.
      rewrite (bind_raise _ _ _ _ _ E2), Cf, T2, T1, Cx.
      split; [reflexivity|]. split; [reflexivity|].
      split; [exact (same_request_trans _ _ _ R1 R2)|]. intros _. congruence. }
  destruct H2 as (s2 & E2 & T2 & R2 & V2). rewrite (bind_ret _ _ _ _ _ E2).
  assert (R12 : same_request s s2) by exact (same_request_trans _ _ _ R1 R2).
  destruct (same_request_checks s s2 R12) as (_ & Cu2 & Cc2 & Ck2 & Cv2 & Cf2 & Cx2 & Cr2).
  assert (Hcons : forall k, (2 <= k)%nat ->
            host_consulted k s = [Evalidate_host (get_client_header "Host" s)]).
  { intros k Hk. unfold host_consulted. apply Nat.leb_le in Hk. rewrite Hk.
    unfold host_ok in Hhost. apply andb_true_iff in Hhost as [-> _]. reflexivity. }
  assert (T12 : trace s2 = (trace s ++ [Evalidate_host (get_client_header "Host" s)])%list).
  { rewrite T2, T1. rewrite (same_request_header s s1 "Host" R1). reflexivity. }
  pose proof (check_upgrade_spec s2) as E3. rewrite Cu2 in E3.
  destruct (upgrade_ok s); cbn [negb].
  2:{ exists s2. rewrite (bind_raise _ _ _ _ _ E3), Cf2, T12, (Hcons 3%nat) by lia.
      repeat split; try apply R12. intros _. congruence. }
  rewrite (bind_ret _ _ _ _ _ E3).
  pose proof (check_connection_spec s2) as E4. rewrite Cc2 in E4.
  destruct (connection_ok s); cbn [negb].
  2:{ exists s2. rewrite (bind_raise _ _ _ _ _ E4), Cf2, T12, (Hcons 4%nat) by lia.
      repeat split; try apply R12. intros _. congruence. }
  rewrite (bind_ret _ _ _ _ _ E4).
  pose proof (check_key_spec s2) as E5. rewrite Ck2 in E5.
  destruct (key_ok s); cbn [negb].
  2:{ exists s2. rewrite (bind_raise _ _ _ _ _ E5), Cf2, T12, (Hcons 5%nat) by lia.
      repeat split; try apply R12. intros _. congruence. }
  rewrite (bind_ret _ _ _ _ _ E5).
  pose proof (check_version_spec s2) as H6. rewrite Cv2 in H6.
  destruct (version_ok s); cbn [negb].
  2:{ destruct H6 as (s6 & E6 & T6 & R6). exists s6.
      rewrite (bind_raise _ _ _ _ _ E6), Cf2, T6, T12, (Hcons 6%nat) by lia.
      split; [reflexivity|]. split; [reflexivity|].
      split; [exact (same_request_trans _ _ _ R12 R6)|]. intros Hk. lia. }
  destruct H6 as (s6 & E6 & T6 & R6 & V6). rewrite (bind_ret _ _ _ _ _ E6).
  intros Hval.
  assert (R16 : same_request s s6) by exact (same_request_trans _ _ _ R12 R6).
  unfold record_origin, delegate_validate. monad_unfold.
  assert (Hi : m_local_interface s6 = m_local_interface s) by apply R16.
  set (h := if (m_version (m_handshake s6) <? 13)%Z
            then get_client_header "Sec-WebSocket-Origin" s6
            else get_client_header "Origin" s6).
  destruct (negb (String.eqb h "")); cbn [m_local_interface upd_handshake];
    rewrite Hi;
    (destruct Hval as [-> | Hv];
     [| destruct (m_local_interface s); [rewrite Hv|]]);
    eexists; (split; [reflexivity|]);
    cbn [upd_handshake record m_handshake with_server_http with_origin
         m_client_http_request m_client_headers m_server_headers m_local_interface
         m_version m_server_http_code m_server_http_string];
    (split; [exact R16|]); (split; [rewrite V6; exact Cr2|]); split; reflexivity.
Qed.

Lemma parse_handshake_returns (incoming : string) (s : session) :
  parse_handshake incoming s = (Ret tt, exec (parse_handshake incoming) s).
Proof. reflexivity. Qed.

Lemma parse_handshake_handler (incoming : string) (s : session) :
  m_local_interface (exec (parse_handshake incoming) s) = m_local_interface s.
Proof. reflexivity. Qed.

(** The response to a request whose validation ended with status 400. *)
Lemma write_handshake_error_page (s : session) :
  m_server_http_code (m_handshake s) = 400%Z ->
  result write_handshake s = Ret tt
  /\ m_server_http_code (m_handshake (exec write_handshake s)) = 400%Z
  /\ exists tail,
       m_raw_server_handshake (m_handshake (exec write_handshake s))
       = "HTTP/1.1 400 " +:+ tail.
Proof.
  intros Hc. unfold result, exec, write_handshake, set_header. monad_unfold.
  rewrite Hc. change (400 =? 101)%Z with false. cbv iota.
  cbn [fst snd upd_handshake m_handshake with_server_headers with_raw_server record
       m_server_http_code m_server_http_string m_server_headers m_raw_server_handshake].
  rewrite Hc. split; [reflexivity|]. split; [reflexivity|].
  change (pretty 400%Z) with "400". eexists. reflexivity.
Qed.

(** C1.  The handler applies the six checks in order: request line (it
    starts with "GET " and " HTTP/1.1" occurs from index 4 on), Host
    (not empty and accepted by [validate_host]), Upgrade (equal to
    "websocket" ignoring case), Connection (contains "upgrade" ignoring
    case), Sec-WebSocket-Key (not empty), Sec-WebSocket-Version (read by
    [atoi], one of 7, 8, 13).  When check [k] is the first that fails, the
    try block ends there: the exception caught is the one of check [k],
    and what is logged is its message up to the first NUL character; the
    endpoint's [validate_host] has been consulted only if the
    request line passed and there is a Host, the handler's [validate] is
    never called, [m_version] is written only if check 6 was reached, and
    the response is an error page with status 400.  When no check fails and
    the handler (if any) accepts, the status is 101. *)
Theorem handshake_first_failure (s : session) (incoming : string) :
  let s1 := exec (parse_handshake incoming) s in
  let s2 := exec validate_handshake s1 in
  let s3 := exec (handle_read_handshake incoming) s in
  match first_failed_check s1 with
  | Some k =>
      result validate_handshake s1 = Ret tt
      /\ trace s2
         = (trace s1 ++ host_consulted k s1
              ++ [Eaccess_log (handshake_what (failure_text k s1)) ALOG_HANDSHAKE;
                  Elog ("Caught handshake exception: "
                          +:+ handshake_what (failure_text k s1)) LOG_ERROR])%list
      /\ ((k <= 5)%nat -> m_version (m_handshake s2) = m_version (m_handshake s1))
      /\ m_server_http_code (m_handshake s2) = 400%Z
      /\ result (handle_read_handshake incoming) s = Ret tt
      /\ m_server_http_code (m_handshake s3) = 400%Z
      /\ exists tail, m_raw_server_handshake (m_handshake s3) = "HTTP/1.1 400 " +:+ tail
  | None =>
      m_local_interface s = false \/ (forall s0, handler_validate s0 = None) ->
      m_server_http_code (m_handshake s2) = 101%Z
  end.
Proof.
  intros s1 s2 s3.
  assert (E3 : handle_read_handshake incoming s
               = match validate_handshake s1 with
                 | (Ret _, s') => write_handshake s'
                 | (Raise e, s') => (Raise e, s')
                 end).
  { unfold handle_read_handshake.
    rewrite (bind_ret _ _ _ _ _ (parse_handshake_returns incoming s)).
    reflexivity. }
  pose proof (handshake_checks_spec s1) as Hspec.
  destruct (first_failed_check s1) as [k|].
  - destruct Hspec as (s' & Hc & Ht & Hr & Hv).
    assert (E2 : validate_handshake s1
                 = (Ret tt,
                    upd_handshake (with_server_http 400 "")
                      (record (Elog ("Caught handshake exception: "
                                       +:+ handshake_what (failure_text k s1))
                                 LOG_ERROR)
                         (record (Eaccess_log (handshake_what (failure_text k s1))
                                    ALOG_HANDSHAKE) s')))).
    { unfold validate_handshake, try_catch. rewrite Hc. reflexivity. }
    subst s2 s3. unfold result, exec in *. rewrite E3, E2.
    cbn [fst snd upd_handshake record trace m_handshake with_server_http m_version
         m_server_http_code].
    split; [reflexivity|]. split; [rewrite Ht, <- !app_assoc; reflexivity|].
    split; [exact Hv|]. split; [reflexivity|].
    apply write_handshake_error_page. reflexivity.
  - intros Hval. rewrite <- (parse_handshake_handler incoming s) in Hval.
    destruct (Hspec Hval) as (s' & Hc & _ & _ & Hcode & _).
    subst s2. unfold exec, validate_handshake, try_catch. fold s1. rewrite Hc. exact Hcode.
Qed.

End Handshake.

Lemma handshake_first_failure_example :
  @first_failed_check example_policy
    (exec (parse_handshake no_upgrade_request)
       (@new_session example_policy true example_junk)) = Some 3%nat
  /\ trace (exec (@handle_read_handshake example_policy no_upgrade_request)
              (@new_session example_policy true example_junk))
     = [Eaccess_log no_upgrade_request ALOG_HANDSHAKE;
        Evalidate_host "server.example.com";
        Eaccess_log "Required Upgrade header is missing" ALOG_HANDSHAKE;
        Elog "Caught handshake exception: Required Upgrade header is missing" LOG_ERROR;
        Easync_write_handshake
          ("HTTP/1.1 400 Bad Request" +:+ CRLF +:+ "Server: WebSocket++/2011-09-25" +:+ CRLF
             +:+ CRLF)].
Proof. vm_compute. split; reflexivity. Qed.

(** A version beyond the range of [long] is not one of 7, 8, 13, whatever
    its low bits are: check 6 fails and [m_version] is 4294967295.  And a
    message with a NUL character in it is logged up to that character. *)
Lemma handshake_failure_examples :
  atoi "18446744073709551629" = (-1)%Z
  /\ @first_failed_check example_policy
       (exec (parse_handshake saturating_version_request)
          (@new_session example_policy true example_junk)) = Some 6%nat
  /\ m_version (m_handshake
                  (exec (@handle_read_handshake example_policy saturating_version_request)
                     (@new_session example_policy true example_junk))) = 4294967295%Z
  /\ m_server_http_code
       (m_handshake
          (exec (@handle_read_handshake example_policy saturating_version_request)
             (@new_session example_policy true example_junk))) = 400%Z
  /\ @first_failed_check example_policy
       (exec (parse_handshake nul_host_request)
          (@new_session example_policy true example_junk)) = Some 2%nat
  /\ trace (exec (@handle_read_handshake example_policy nul_host_request)
              (@new_session example_policy true example_junk))
     = [Eaccess_log nul_host_request ALOG_HANDSHAKE;
        Evalidate_host ("evil" +:+ String NUL ".example.com");
        Eaccess_log "Host evil" ALOG_HANDSHAKE;
        Elog "Caught handshake exception: Host evil" LOG_ERROR;
        Easync_write_handshake
          ("HTTP/1.1 400 Bad Request" +:+ CRLF +:+ "Server: WebSocket++/2011-09-25" +:+ CRLF
             +:+ CRLF)].
Proof. vm_compute. repeat split; reflexivity. Qed.

(** ** The accept key *)

Section Accept.
Context `{endpoint_policy}.

Lemma w32_range (x : Z) : (0 <= SHA1.w32 x < 2 ^ 32)%Z.
Proof. unfold SHA1.w32. apply Z.mod_pos_bound. reflexivity. Qed.

Lemma process_block_range (h : SHA1.H5) (block : list Z) :
  words_in_range (SHA1.process_block h block).
Proof.
  unfold SHA1.process_block. destruct h as [[[[h0 h1] h2] h3] h4].
  destruct (SHA1.rounds 0 (SHA1.schedule block) (h0, h1, h2, h3, h4))
    as [[[[a b] c] d] e].
  unfold words_in_range. repeat constructor; apply w32_range.
Qed.

Lemma foldl_process_block_range (bs : list (list Z)) (h : SHA1.H5) :
  words_in_range h -> words_in_range (foldl SHA1.process_block h bs).
Proof.
  revert h. induction bs as [|b bs IH]; intros h Hh; [exact Hh|].
  cbn. apply IH. apply process_block_range.
Qed.

(** Every word of a digest is a 32-bit value. *)
Lemma digest_range (msg : list Z) : Forall (fun w => 0 <= w < 2 ^ 32)%Z (SHA1.digest msg).
Proof.
  unfold SHA1.digest.
  pose proof (foldl_process_block_range
                (SHA1.blocks (length (SHA1.words (SHA1.pad msg))) (SHA1.words (SHA1.pad msg)))
                SHA1.initial) as Hr.
  destruct (foldl SHA1.process_block SHA1.initial _) as [[[[a b] c] d] e].
  apply Hr. unfold words_in_range, SHA1.initial. repeat constructor; lia.
Qed.

(** [htonl] followed by a read in address order gives the big-endian
    bytes, whatever the byte order of the host. *)
Lemma memory_bytes_htonl (w : Z) :
  (0 <= w < 2 ^ 32)%Z -> memory_bytes (htonl w) = big_endian_bytes w.
Proof.
  intros Hw. unfold memory_bytes, htonl, big_endian_bytes.
  destruct little_endian_host; [|reflexivity].
  change (2 ^ 8)%Z with 256%Z. change (2 ^ 16)%Z with 65536%Z.
  change (2 ^ 24)%Z with 16777216%Z. change (2 ^ 32)%Z with 4294967296%Z in Hw.
  f_equal; [|f_equal; [|f_equal; [|f_equal]]]; Z.div_mod_to_equations; lia.
Qed.

Lemma network_order_bytes (ws : list Z) :
  Forall (fun w => 0 <= w < 2 ^ 32)%Z ws ->
  concat (map memory_bytes (map htonl ws)) = concat (map big_endian_bytes ws).
Proof.
  induction 1 as [|w ws Hw _ IH]; [reflexivity|].
  cbn [map concat]. rewrite IH, memory_bytes_htonl by exact Hw. reflexivity.
Qed.

Lemma c_str_app (a b : string) : c_str a = a -> c_str (a +:+ b) = a +:+ c_str b.
Proof.
  induction a as [|c a IH]; intros Ha; [reflexivity|].
  change (c_str (String c (a +:+ b)) = String c (a +:+ c_str b)).
  cbn [c_str] in *. destruct (Ascii.eqb c NUL); [discriminate|].
  injection Ha as Ha. rewrite (IH Ha). reflexivity.
Qed.

Lemma byte_values_length (s : string) : length (byte_values s) = String.length s.
Proof.
  unfold byte_values. rewrite length_map. induction s as [|c s IH]; [reflexivity|].
  cbn. rewrite IH. reflexivity.
Qed.

(** X1.  On the success path, for a key that has no NUL character in it (so
    that it reads the same as a C string) and is not too long for SHA-1,
    the response keeps status 101 and its Sec-WebSocket-Accept header is
    base64 of the 20 bytes, in network byte order, of SHA-1 of the key
    followed by the GUID. *)
Theorem accept_key_of_plain_key (s : session) :
  m_server_http_code (m_handshake s) = 101%Z ->
  c_str (get_client_header "Sec-WebSocket-Key" s) = get_client_header "Sec-WebSocket-Key" s ->
  (8 * Z.of_nat (String.length (get_client_header "Sec-WebSocket-Key" s +:+ GUID)) < 2 ^ 64)%Z ->
  let s' := exec write_handshake s in
  result write_handshake s = Ret tt
  /\ m_server_http_code (m_handshake s') = 101%Z
  /\ m_server_headers (m_handshake s') !! "Sec-WebSocket-Accept"
     = Some (accept_key (get_client_header "Sec-WebSocket-Key" s)).
Proof.
  intros Hc Hkey Hlen s'.
  set (key := get_client_header "Sec-WebSocket-Key" s) in *.
  assert (Er : SHA1.Result (c_str (key +:+ GUID))
               = Some (SHA1.digest (byte_values (key +:+ GUID)))).
  { rewrite (c_str_app key GUID Hkey). change (c_str GUID) with GUID.
    unfold SHA1.Result. rewrite byte_values_length.
    apply Z.ltb_lt in Hlen. rewrite Hlen. reflexivity. }
  subst s'. unfold result, exec, write_handshake, set_header. monad_unfold.
  rewrite Hc. change (101 =? 101)%Z with true. cbv iota. fold key. rewrite Er.
  cbn [fst snd upd_handshake m_handshake with_server_headers with_raw_server record
       m_server_http_code m_server_http_string m_server_headers m_raw_server_handshake].
  split; [reflexivity|]. split; [exact Hc|].
  rewrite network_order_bytes by apply digest_range.
  rewrite !lookup_insert_ne by discriminate. apply lookup_insert_eq.
Qed.

End Accept.

Lemma accept_key_of_plain_key_witness :
  m_server_headers (m_handshake (exec (@write_handshake example_policy) validated_session))
    !! "Sec-WebSocket-Accept"
  = Some "s3pPLMBiTxaQ9kYGzzhZRbK+xOo=".
Proof.
  assert (Hc : m_server_http_code (m_handshake validated_session) = 101%Z)
    by (vm_compute; reflexivity).
  assert (Hk : c_str (@get_client_header "Sec-WebSocket-Key" validated_session)
               = @get_client_header "Sec-WebSocket-Key" validated_session)
    by (vm_compute; reflexivity).
  assert (Hl : (8 * Z.of_nat (String.length
                   (@get_client_header "Sec-WebSocket-Key" validated_session +:+ GUID))
                < 2 ^ 64)%Z)
    by (vm_compute; reflexivity).
  destruct (@accept_key_of_plain_key example_policy validated_session Hc Hk Hl)
    as (_ & _ & Ha).
  rewrite Ha. vm_compute. reflexivity.
Defined.

(** C2.  What the code does where the claim fails: the key "ab", NUL,
    "cd" passes every check, the response has status 101, and its accept
    header is the digest of "ab" alone: [c_str()] ends the SHA-1 input at
    the NUL, so neither the rest of the key nor the GUID is hashed. *)
Theorem accept_key_truncated_at_nul :
  get_client_header "Sec-WebSocket-Key" nul_key_session = nul_key
  /\ m_server_http_code (m_handshake nul_key_session) = 101%Z
  /\ m_server_headers (m_handshake nul_key_session) !! "Sec-WebSocket-Accept"
     = Some (base64_encode
               (concat (map big_endian_bytes (SHA1.digest (byte_values "ab")))))
  /\ m_server_headers (m_handshake nul_key_session) !! "Sec-WebSocket-Accept"
     = Some "2iNhTgJGmg18e9G9q1ycR0sZBNw="
  /\ accept_key nul_key = "pJ2lujMB0j6ecb38FWbFxQnPKl8=".
Proof. vm_compute. repeat split. Qed.

(** ** Every path of a computation *)

Section Paths.
Variable I : session -> Prop.
Variable P : effect -> bool.

Lemma extends_refl (s : session) : extends P s s.
Proof. exists []. rewrite app_nil_r. split; reflexivity. Qed.

Lemma extends_trans (s1 s2 s3 : session) :
  extends P s1 s2 -> extends P s2 s3 -> extends P s1 s3.
Proof.
  intros (t1 & E1 & F1) (t2 & E2 & F2). exists (t1 ++ t2)%list.
  rewrite E2, E1, app_assoc, forallb_app, F1, F2. split; reflexivity.
Qed.

Lemma preserves_ret {A} (a : A) (s : session) : I s -> preserves I P (ret a) s.
Proof. intros HI. split; [exact HI | apply extends_refl]. Qed.

Lemma preserves_throw {A} (e : exn) (s : session) : I s -> preserves I P (@throw A e) s.
Proof. intros HI. split; [exact HI | apply extends_refl]. Qed.

Lemma preserves_bind {A B} (m : M A) (k : A -> M B) (s : session) :
  preserves I P m s ->
  (forall a s1, I s1 -> m s = (Ret a, s1) -> preserves I P (k a) s1) ->
  preserves I P (bind m k) s.
Proof.
  unfold preserves, exec, bind. intros [HI He] Hk.
  destruct (m s) as [[a|e] s1] eqn:E; cbn [snd] in *.
  - destruct (Hk a s1 HI eq_refl) as [HI2 He2].
    split; [exact HI2 | exact (extends_trans _ _ _ He He2)].
  - split; assumption.
Qed.

Lemma preserves_get_bind {B} (k : session -> M B) (s : session) :
  preserves I P (k s) s -> preserves I P (bind get k) s.
Proof. intros Hk. exact Hk. Qed.

Lemma preserves_modify (f : session -> session) (s : session) :
  I (f s) -> trace (f s) = trace s -> preserves I P (modify f) s.
Proof.
  intros HI Ht. split; [exact HI|]. exists []. cbn. rewrite Ht, app_nil_r.
  split; reflexivity.
Qed.

Lemma preserves_emit (e : effect) (s : session) :
  P e = true -> I (record e s) -> preserves I P (emit e) s.
Proof.
  intros HP HI. split; [exact HI|]. exists [e]. cbn. rewrite HP. split; reflexivity.
Qed.

Lemma preserves_try_catch {A} (body : M A) (handler : exn -> option (M A)) (s : session) :
  preserves I P body s ->
  (forall e s1 h, I s1 -> body s = (Raise e, s1) -> handler e = Some h ->
                  preserves I P h s1) ->
  preserves I P (try_catch body handler) s.
Proof.
  unfold preserves, exec, try_catch. intros [HI He] Hh.
  destruct (body s) as [[a|e] s1] eqn:E; cbn [snd] in *.
  - split; assumption.
  - destruct (handler e) as [h|] eqn:Eh; cbn [snd].
    + destruct (Hh e s1 h HI eq_refl Eh) as [HI2 He2].
      split; [exact HI2 | exact (extends_trans _ _ _ He He2)].
    + split; assumption.
Qed.

End Paths.

Ltac head_of t :=
  lazymatch t with
  | ?f _ => head_of f
  | _ => t
  end.

(** ** What every member function keeps *)

Section KeptFacts.
Context `{endpoint_policy}.
Variable allowed : state.value -> bool.
Variables li mw : bool.

Lemma open_allowed (s : session) :
  session_inv allowed li mw s -> m_state s = state.OPEN -> allowed state.OPEN = true.
Proof. intros (Ha & _) E. rewrite E in Ha. exact Ha. Qed.

Lemma open_allowed_eqb (s : session) :
  session_inv allowed li mw s -> state.eqb (m_state s) state.OPEN = true ->
  allowed state.OPEN = true.
Proof. intros (Ha & _) E. destruct (m_state s); try discriminate E. exact Ha. Qed.

Lemma handler_attached (s : session) :
  session_inv allowed li mw s -> m_local_interface s = true -> li = true.
Proof. intros (_ & Hl & _) E. congruence. Qed.

Lemma active_allowed (s : session) :
  session_inv allowed li mw s ->
  negb (state.eqb (m_state s) state.OPEN) && negb (state.eqb (m_state s) state.CLOSING)
  = false ->
  allowed state.OPEN || allowed state.CLOSING = true.
Proof.
  intros (Ha & _) E. destruct (m_state s); try discriminate E; rewrite Ha;
    rewrite ?orb_true_r; reflexivity.
Qed.

End KeptFacts.

Ltac lacking P := lazymatch goal with | _ : P |- _ => fail | _ => idtac end.

(** Facts that the test just made gives about the parameters. *)
Ltac derive :=
  try match goal with
      | HI : session_inv ?al _ _ ?s, E : negb (state.eqb (m_state ?s) state.OPEN) = false
        |- _ =>
          lacking (al state.OPEN = true);
          assert (al state.OPEN = true)
            by (apply (open_allowed_eqb _ _ _ s HI); apply negb_false_iff; exact E)
      | HI : session_inv ?al _ _ ?s, E : m_state ?s = state.OPEN |- _ =>
          lacking (al state.OPEN = true);
          assert (al state.OPEN = true) by (exact (open_allowed _ _ _ s HI E))
      end;
  try match goal with
      | HI : session_inv _ ?l _ ?s, E : negb (m_local_interface ?s) = false |- _ =>
          lacking (l = true);
          assert (l = true)
            by (apply (handler_attached _ _ _ s HI); apply negb_false_iff; exact E)
      | HI : session_inv _ ?l _ ?s, E : m_local_interface ?s = true |- _ =>
          lacking (l = true);
          assert (l = true) by (exact (handler_attached _ _ _ s HI E))
      end.

Ltac inv_leaf :=
  cbv beta;
  lazymatch goal with
  | |- session_inv _ _ _ _ =>
      unfold session_inv; cbn;
      repeat match goal with
             | HI : session_inv _ _ _ _ |- _ => destruct HI as (? & ? & ?)
             end;
      (split; [|split]);
      first [ assumption
            | reflexivity
            | match goal with
              | Hc : ?al state.OPEN = true -> ?al state.CLOSING = true
                |- ?al state.CLOSING = true => apply Hc; assumption
              end ]
  end.

Ltac permitted_leaf :=
  unfold permitted; cbn;
  repeat match goal with
         | Hx : ?l = true |- context [?l] => rewrite Hx
         end;
  cbn; rewrite ?orb_true_r; cbn; rewrite ?orb_true_r; reflexivity.

Ltac kept_step known :=
  lazymatch goal with
  | |- preserves _ _ (ret _) _ => apply preserves_ret; assumption
  | |- preserves _ _ (throw _) _ => apply preserves_throw; assumption
  | |- preserves _ _ (bind get _) _ => apply preserves_get_bind; cbv beta
  | |- preserves _ _ (bind _ _) _ =>
      apply preserves_bind; [ | let a := fresh "a" in let s := fresh "s" in
                                let HI := fresh "HI" in intros a s HI _ ]
  | |- preserves _ _ (modify _) _ => apply preserves_modify; [inv_leaf | reflexivity]
  | |- preserves _ _ (emit _) _ => apply preserves_emit; [permitted_leaf | inv_leaf]
  | |- preserves _ _ (try_catch _ _) _ =>
      apply preserves_try_catch;
      [ | let e := fresh "e" in let s := fresh "s" in let h := fresh "h" in
          let HI := fresh "HI" in let Hh := fresh "Hh" in
          intros e s h HI _ Hh; destruct e; cbn in Hh;
          try discriminate Hh; injection Hh as <- ]
  | |- preserves _ _ (when ?b _) _ => unfold when
  | |- preserves _ _ (if ?b then _ else _) _ =>
      let E := fresh "E" in destruct b eqn:E; derive
  | |- preserves _ _ (match ?x with _ => _ end) _ =>
      let E := fresh "E" in destruct x eqn:E; derive
  | |- preserves _ _ ?m _ =>
      first [ solve [known]
            | let h := head_of m in unfold h ]
  end.

Ltac kept known := repeat (kept_step known).

Section Kept.
Context `{endpoint_policy}.
Variable allowed : state.value -> bool.
Variables li mw oc oo : bool.
Hypothesis allowed_closing : allowed state.OPEN = true -> allowed state.CLOSING = true.
Hypothesis allowed_closed : allowed state.CLOSED = true.

Local Notation "'inv'" := (session_inv allowed li mw).
Local Notation "'keeps'" :=
  (preserves (session_inv allowed li mw) (permitted allowed li mw oc oo)).

Ltac nothing := fail.

Lemma drop_tcp_kept (b : bool) (s : session) : inv s -> keeps (drop_tcp b) s.
Proof. intros HI. kept nothing. Qed.

Lemma write_frame_kept (s : session) :
  allowed state.OPEN = true -> inv s -> keeps write_frame s.
Proof.
  intros Ho (Ha & Hl & Hm). unfold preserves, exec, write_frame. monad_unfold.
  destruct is_server eqn:Es; cbn [negb snd].
  - split; [repeat split; auto|].
    exists [Elog ("Write Frame: " +:+ print_frame (m_write_frame s)) LOG_DEBUG;
            Easync_write_frame (m_write_frame s)].
    split; [cbn; rewrite <- app_assoc; reflexivity|].
    cbn. unfold permitted. cbn. rewrite Es, Ho, (Hm eq_refl), !orb_true_r.
    cbn. rewrite Bool.eqb_reflx. reflexivity.
  - split; [repeat split; auto; congruence|].
    exists [Elog ("Write Frame: " +:+ print_frame (set_masked true (m_write_frame s)))
              LOG_DEBUG;
            Easync_write_frame (set_masked true (m_write_frame s))].
    split; [cbn; rewrite <- app_assoc; reflexivity|].
    cbn. unfold permitted. cbn. rewrite Es, Ho, !orb_true_r. reflexivity.
Qed.

Ltac k1 :=
  first [ apply drop_tcp_kept; assumption
        | apply write_frame_kept; assumption ].

Lemma send_kept (msg : string) (s : session) : inv s -> keeps (send msg) s.
Proof. intros HI. kept k1. Qed.

Lemma send_data_kept (data : list byte) (s : session) : inv s -> keeps (send_data data) s.
Proof. intros HI. kept k1. Qed.

Lemma ping_kept (msg : string) (s : session) : inv s -> keeps (ping msg) s.
Proof. intros HI. kept k1. Qed.

Lemma pong_kept (msg : string) (s : session) : inv s -> keeps (pong msg) s.
Proof. intros HI. kept k1. Qed.

Lemma send_close_kept (status : Z) (reason : string) (s : session) :
  inv s -> keeps (send_close status reason) s.
Proof. intros HI. kept k1. Qed.

Ltac k2 :=
  first [ k1
        | apply send_close_kept; assumption
        | apply send_kept; assumption
        | apply send_data_kept; assumption
        | apply ping_kept; assumption
        | apply pong_kept; assumption ].

Lemma close_kept (status : Z) (reason : string) (s : session) :
  inv s -> keeps (close status reason) s.
Proof. intros HI. unfold close. cbv zeta. k2. Qed.

Lemma reset_message_kept (s : session) : inv s -> keeps reset_message s.
Proof. intros HI. kept nothing. Qed.

Lemma validate_utf8_kept (s : session) : inv s -> keeps validate_utf8 s.
Proof. intros HI. kept nothing. Qed.

Lemma deliver_message_kept (s : session) :
  allowed state.OPEN = true -> inv s -> keeps deliver_message s.
Proof. intros Ho HI. kept nothing. Qed.

Ltac k3 :=
  first [ k2
        | apply reset_message_kept; assumption
        | apply validate_utf8_kept; assumption
        | apply deliver_message_kept; assumption ].

Lemma process_binary_kept (s : session) :
  allowed state.OPEN = true -> inv s -> keeps process_binary s.
Proof. intros Ho HI. kept k3. Qed.

Lemma process_text_kept (s : session) :
  allowed state.OPEN = true -> inv s -> keeps process_text s.
Proof.
  intros Ho HI. unfold process_text.
  apply preserves_bind; [k3|]. intros a s1 HI1 _. apply process_binary_kept; assumption.
Qed.

Lemma process_continuation_kept (s : session) :
  allowed state.OPEN = true -> inv s -> keeps process_continuation s.
Proof. intros Ho HI. kept k3. Qed.

Lemma process_ping_kept (s : session) :
  allowed state.OPEN = true -> inv s -> keeps process_ping s.
Proof. intros Ho HI. kept k3. Qed.

Lemma process_close_kept (s : session) : inv s -> keeps process_close s.
Proof. intros HI. kept k3. Qed.

Ltac k4 :=
  first [ k3
        | apply process_binary_kept; assumption
        | apply process_text_kept; assumption
        | apply process_continuation_kept; assumption
        | apply process_ping_kept; assumption
        | apply process_close_kept; assumption ].

Lemma process_frame_kept (s : session) : inv s -> keeps process_frame s.
Proof. intros HI. kept k4. Qed.

Lemma read_frame_body_kept (c : chunk) (rest : list chunk) (s : session) :
  inv s -> keeps (read_frame_body c rest) s.
Proof.
  intros HI. kept ltac:(first [k4 | apply process_frame_kept; assumption]).
Qed.

Lemma catch_frame_exception_kept (what : string) (code : error.value) (s : session) :
  inv s -> keeps (catch_frame_exception what code) s.
Proof. intros HI. kept k4. Qed.

Lemma read_loop_kept (buf : list chunk) (s : session) : inv s -> keeps (read_loop buf) s.
Proof.
  revert s. induction buf as [|c rest IH]; intros s HI; cbn [read_loop].
  - apply preserves_ret. assumption.
  - kept ltac:(first [ apply read_frame_body_kept; assumption
                     | apply catch_frame_exception_kept; assumption
                     | apply IH; assumption ]).
Qed.

Ltac k5 :=
  first [ k4
        | apply process_frame_kept; assumption
        | apply read_loop_kept; assumption ].

Lemma handle_read_frame_kept (error : error_code) (s : session) :
  (allowed state.OPEN || allowed state.CLOSING = true -> oc = true) ->
  inv s -> keeps (handle_read_frame error) s.
Proof.
  intros Hoc HI. unfold handle_read_frame. apply preserves_get_bind. cbv beta.
  destruct (negb (state.eqb (m_state s) state.OPEN)
            && negb (state.eqb (m_state s) state.CLOSING)) eqn:E.
  - kept nothing.
  - pose proof (Hoc (active_allowed _ _ _ s HI E)) as Hc. kept k5.
Qed.

Lemma handle_write_frame_kept (error : error_code) (s : session) :
  inv s -> keeps (handle_write_frame error) s.
Proof. intros HI. kept k5. Qed.

Lemma handle_handshake_expired_kept (error : error_code) (s : session) :
  inv s -> keeps (handle_handshake_expired error) s.
Proof. intros HI. kept k5. Qed.

Lemma handle_close_expired_kept (error : error_code) (s : session) :
  inv s -> keeps (handle_close_expired error) s.
Proof. intros HI. kept k5. Qed.

Lemma handshake_checks_kept (s : session) : inv s -> keeps handshake_checks s.
Proof. intros HI. kept nothing. Qed.

Lemma validate_handshake_kept (s : session) : inv s -> keeps validate_handshake s.
Proof. intros HI. kept ltac:(apply handshake_checks_kept; assumption). Qed.

Lemma write_handshake_kept (s : session) : inv s -> keeps write_handshake s.
Proof. intros HI. kept nothing. Qed.

Lemma parse_handshake_kept (incoming : string) (s : session) :
  inv s -> keeps (parse_handshake incoming) s.
Proof. intros HI. unfold parse_handshake. kept nothing. Qed.

Lemma handle_read_handshake_kept (incoming : string) (s : session) :
  inv s -> keeps (handle_read_handshake incoming) s.
Proof.
  intros HI.
  kept ltac:(first [ apply parse_handshake_kept; assumption
                   | apply validate_handshake_kept; assumption
                   | apply write_handshake_kept; assumption ]).
Qed.

Lemma handle_write_handshake_kept (error : error_code) (s : session) :
  allowed state.OPEN = true -> oc = true -> oo = true ->
  inv s -> keeps (handle_write_handshake error) s.
Proof.
  intros Ho Hc Hp HI.
  kept ltac:(first [ k5 | apply handle_read_frame_kept; [intros _; exact Hc | assumption] ]).
Qed.

Lemma read_handshake_kept (s : session) : inv s -> keeps read_handshake s.
Proof. intros HI. kept nothing. Qed.

(** Every event.  The completion of the handshake write needs OPEN to be
    allowed and may call [on_open]; it and a read that finds the session
    OPEN or CLOSING may end with [on_close]. *)
Lemma step_kept (ev : event) (s : session) :
  (is_handshake_written ev = true -> allowed state.OPEN = true /\ oo = true) ->
  (is_handshake_written ev || is_frames_read ev = true ->
   allowed state.OPEN || allowed state.CLOSING = true -> oc = true) ->
  inv s -> keeps (step ev) s.
Proof.
  intros Hw Hoc HI. destruct ev; cbn [step].
  - unfold on_connect. apply read_handshake_kept. assumption.
  - apply handle_read_handshake_kept. assumption.
  - destruct (Hw eq_refl) as [Ho Hp].
    apply handle_write_handshake_kept; [exact Ho | | exact Hp | assumption].
    apply Hoc; [reflexivity|]. rewrite Ho. reflexivity.
  - apply preserves_bind.
    + apply preserves_modify; [|reflexivity]. destruct HI as (? & ? & ?).
      repeat split; assumption.
    + intros a s1 HI1 _. apply handle_read_frame_kept; [|assumption].
      apply Hoc. reflexivity.
  - apply handle_write_frame_kept. assumption.
  - apply handle_handshake_expired_kept. assumption.
  - apply handle_close_expired_kept. assumption.
  - apply send_kept. assumption.
  - apply send_data_kept. assumption.
  - apply ping_kept. assumption.
  - apply pong_kept. assumption.
  - apply close_kept. assumption.
Qed.

Lemma after_kept (evs : list event) (s : session) :
  (existsb is_handshake_written evs = true -> allowed state.OPEN = true /\ oo = true) ->
  (existsb is_handshake_written evs || existsb is_frames_read evs = true ->
   allowed state.OPEN || allowed state.CLOSING = true -> oc = true) ->
  inv s ->
  inv (after evs s) /\ extends (permitted allowed li mw oc oo) s (after evs s).
Proof.
  revert s. induction evs as [|ev evs IH]; intros s Hw Hoc HI; cbn [after foldl].
  - split; [assumption | apply extends_refl].
  - cbn [existsb] in Hw, Hoc.
    destruct (step_kept ev s) as [HI1 He1]; [| |assumption|].
    + intros E. apply Hw. rewrite E. reflexivity.
    + intros E. apply Hoc. apply orb_true_iff in E as [E|E]; rewrite E;
        rewrite ?orb_true_r; reflexivity.
    + destruct (IH (exec (step ev) s)) as [HI2 He2]; [| |assumption|].
      * intros E. apply Hw. rewrite E. apply orb_true_r.
      * intros E. apply Hoc. apply orb_true_iff in E as [E|E]; rewrite E;
          rewrite ?orb_true_r; reflexivity.
      * split; [exact HI2 | exact (extends_trans _ _ _ _ He1 He2)].
Qed.

End Kept.

(** ** Session-wide properties *)

Lemma forallb_weaken {A} (P Q : A -> bool) (l : list A) :
  (forall x, P x = true -> Q x = true) -> forallb P l = true -> forallb Q l = true.
Proof.
  intros HPQ. induction l as [|x l IH]; cbn; [reflexivity|].
  intros E. apply andb_true_iff in E as [E1 E2]. rewrite (HPQ x E1), (IH E2). reflexivity.
Qed.

Lemma quiet_trace (t : list effect) :
  forallb quiet t = true ->
  frames_written t = [] /\ messages t = [] /\ count_on_open t = 0%nat.
Proof.
  induction t as [|e t IH]; cbn; [repeat split|].
  intros E. apply andb_true_iff in E as [E1 E2]. destruct (IH E2) as (F & M & O).
  unfold frames_written, messages, count_on_open in *.
  destruct e; try discriminate E1; cbn; rewrite ?filter_cons; cbn; repeat split; assumption.
Qed.

Section Wide.
Context `{endpoint_policy}.

Lemma permitted_quiet allowed li mw oc oo e :
  allowed state.OPEN = false -> permitted allowed li mw oc oo e = true -> quiet e = true.
Proof.
  unfold permitted. intros -> E. apply andb_true_iff in E as [_ E]. exact E.
Qed.

Lemma permitted_mask allowed li mw oc oo e :
  permitted allowed li mw oc oo e = true ->
  written_with_mask (if is_server then mw else true) e = true.
Proof.
  unfold permitted. intros E. repeat (apply andb_true_iff in E as [E _]). exact E.
Qed.

Lemma permitted_no_callback allowed mw oc oo e :
  permitted allowed false mw oc oo e = true -> no_callback e = true.
Proof.
  unfold permitted. intros E. repeat (apply andb_true_iff in E as [E ?]).
  assumption.
Qed.

Lemma permitted_not_on_close allowed li mw oo e :
  permitted allowed li mw false oo e = true -> not_on_close e = true.
Proof.
  unfold permitted. intros E. repeat (apply andb_true_iff in E as [E ?]).
  assumption.
Qed.

Lemma permitted_not_on_open allowed li mw oc e :
  permitted allowed li mw oc false e = true -> not_on_open e = true.
Proof.
  unfold permitted. intros E. repeat (apply andb_true_iff in E as [E ?]).
  assumption.
Qed.

(** X2.  The state of a session never moves back: along any events other than
    the completion of the handshake write, the numeric value of
    [m_state] (CONNECTING 0, OPEN 1, CLOSING 2, CLOSED 3) does not
    decrease.  In particular CLOSED is final and a session that is CLOSING
    can only become CLOSED. *)
Theorem state_never_moves_back (evs : list event) (s : session) :
  existsb is_handshake_written evs = false ->
  (state_rank (m_state s) <= state_rank (m_state (after evs s)))%Z.
Proof.
  intros Hw.
  pose (allowed := fun v => (state_rank (m_state s) <=? state_rank v)%Z).
  assert (HI : session_inv allowed (m_local_interface s) (w_masked (m_write_frame s)) s).
  { repeat split. unfold allowed. apply Z.leb_refl. }
  destruct (after_kept allowed (m_local_interface s) (w_masked (m_write_frame s)) true false
              ltac:(unfold allowed; cbn; intros E; apply Z.leb_le in E; apply Z.leb_le; lia)
              ltac:(unfold allowed; cbn; apply Z.leb_le; destruct (m_state s); cbn; lia)
              evs s ltac:(rewrite Hw; discriminate) ltac:(reflexivity) HI)
    as [(Ha & _) _].
  unfold allowed in Ha. apply Z.leb_le in Ha. exact Ha.
Qed.

(** X3.  Outside OPEN the session is silent: from a session that is not OPEN,
    along any events other than the completion of the handshake write,
    the session never becomes OPEN, writes no frame, delivers no message
    and does not call [on_open]. *)
Theorem nothing_sent_or_delivered_outside_open (evs : list event) (s : session) :
  m_state s <> state.OPEN ->
  existsb is_handshake_written evs = false ->
  m_state (after evs s) <> state.OPEN
  /\ frames_written (trace (after evs s)) = frames_written (trace s)
  /\ messages (trace (after evs s)) = messages (trace s)
  /\ count_on_open (trace (after evs s)) = count_on_open (trace s).
Proof.
  intros Hs Hw.
  pose (allowed := fun v => negb (state.eqb v state.OPEN)).
  assert (HI : session_inv allowed (m_local_interface s) (w_masked (m_write_frame s)) s).
  { repeat split. unfold allowed. destruct (m_state s); try reflexivity. contradiction. }
  destruct (after_kept allowed (m_local_interface s) (w_masked (m_write_frame s)) true false
              ltac:(discriminate) ltac:(reflexivity)
              evs s ltac:(rewrite Hw; discriminate) ltac:(reflexivity) HI)
    as [(Ha & _) (t & Et & Ft)].
  split.
  { intros E. rewrite E in Ha. discriminate Ha. }
  apply (forallb_weaken _ quiet) in Ft.
  2:{ intros e. apply permitted_quiet. reflexivity. }
  destruct (quiet_trace t Ft) as (F & M & O).
  rewrite Et, frames_written_app, messages_app, F, M, !app_nil_r.
  repeat split. unfold count_on_open in *. rewrite filter_app, length_app, O. lia.
Qed.

(** X4.  Masking follows the role of the endpoint.  Along any events, every
    frame a client writes has the mask flag set, and every frame a server
    writes has the flag its writer had at the start: a server never sets
    it. *)
Theorem frames_masked_by_role (evs : list event) (s : session) :
  exists t,
    trace (after evs s) = (trace s ++ t)%list
    /\ Forall (fun f => w_masked f = if is_server then w_masked (m_write_frame s) else true)
         (frames_written t).
Proof.
  assert (HI : session_inv (fun _ => true) (m_local_interface s)
                 (w_masked (m_write_frame s)) s) by (repeat split).
  destruct (after_kept (fun _ => true) (m_local_interface s) (w_masked (m_write_frame s))
              true true ltac:(reflexivity) ltac:(reflexivity)
              evs s ltac:(split; reflexivity) ltac:(reflexivity) HI)
    as [_ (t & Et & Ft)].
  exists t. split; [exact Et|].
  apply (forallb_weaken _ _ _ (permitted_mask _ _ _ _ _)) in Ft.
  clear Et HI. induction t as [|e t IH]; cbn; [constructor|].
  cbn in Ft. apply andb_true_iff in Ft as [Fe Ft].
  destruct e; cbn; try (apply IH; exact Ft).
  constructor; [|apply IH; exact Ft].
  cbn in Fe. apply Bool.eqb_prop in Fe. exact Fe.
Qed.

(** X5.  A session without a connection handler never calls one: along any
    events there is no [validate], [on_open], [on_message] or [on_close]. *)
Theorem no_handler_no_callbacks (evs : list event) (s : session) :
  m_local_interface s = false ->
  m_local_interface (after evs s) = false
  /\ exists t, trace (after evs s) = (trace s ++ t)%list
               /\ forallb no_callback t = true.
Proof.
  intros Hl.
  assert (HI : session_inv (fun _ => true) false (w_masked (m_write_frame s)) s)
    by (repeat split; assumption).
  destruct (after_kept (fun _ => true) false (w_masked (m_write_frame s))
              true true ltac:(reflexivity) ltac:(reflexivity)
              evs s ltac:(split; reflexivity) ltac:(reflexivity) HI)
    as [(_ & Hl' & _) (t & Et & Ft)].
  split; [exact Hl'|]. exists t. split; [exact Et|].
  exact (forallb_weaken _ _ _ (permitted_no_callback _ _ _ _) Ft).
Qed.

End Wide.

(** ** Calls of on_close *)

Lemma count_on_close_app (t1 t2 : list effect) :
  count_on_close (t1 ++ t2) = (count_on_close t1 + count_on_close t2)%nat.
Proof. unfold count_on_close. rewrite filter_app, length_app. reflexivity. Qed.

Lemma count_on_open_app (t1 t2 : list effect) :
  count_on_open (t1 ++ t2) = (count_on_open t1 + count_on_open t2)%nat.
Proof. unfold count_on_open. rewrite filter_app, length_app. reflexivity. Qed.

Lemma count_on_close_one (e : effect) :
  count_on_close [e] = if is_on_close e then 1%nat else 0%nat.
Proof. destruct e; reflexivity. Qed.

Lemma count_on_open_one (e : effect) :
  count_on_open [e] = if is_on_open e then 1%nat else 0%nat.
Proof. destruct e; reflexivity. Qed.

Lemma frames_written_one (e : effect) :
  frames_written [e] = match e with Easync_write_frame f => [f] | _ => [] end.
Proof. destruct e; reflexivity. Qed.

Lemma messages_one (e : effect) : messages [e] = if is_message e then [e] else [].
Proof. destruct e; reflexivity. Qed.

Lemma not_on_close_count (t : list effect) :
  forallb not_on_close t = true -> count_on_close t = 0%nat.
Proof.
  induction t as [|e t IH]; [reflexivity|]. cbn [forallb].
  intros E. apply andb_true_iff in E as [E1 E2]. specialize (IH E2).
  unfold count_on_close in *. destruct e; cbn in E1; try discriminate E1;
    rewrite filter_cons; cbn; exact IH.
Qed.

Lemma not_on_open_count (t : list effect) :
  forallb not_on_open t = true -> count_on_open t = 0%nat.
Proof.
  induction t as [|e t IH]; [reflexivity|]. cbn [forallb].
  intros E. apply andb_true_iff in E as [E1 E2]. specialize (IH E2).
  unfold count_on_open in *. destruct e; cbn in E1; try discriminate E1;
    rewrite filter_cons; cbn; exact IH.
Qed.

Lemma once_after_prefix (s s1 s2 : session) :
  extends not_on_close s s1 -> closes_at_most_once s1 s2 -> closes_at_most_once s s2.
Proof.
  intros (t1 & E1 & F1) (t2 & E2 & C2). exists (t1 ++ t2)%list.
  split; [rewrite E2, E1, app_assoc; reflexivity|].
  rewrite count_on_close_app, (not_on_close_count t1 F1). exact C2.
Qed.

Section Once.
Context `{endpoint_policy}.
Variables li mw : bool.

Local Notation "'inv0'" := (session_inv (fun _ => true) li mw).
Local Notation "'keeps0' oo" :=
  (preserves (session_inv (fun _ => true) li mw) (permitted (fun _ => true) li mw false oo))
  (at level 10, oo at level 9).

Lemma extends_not_on_close (oo : bool) (s s' : session) :
  extends (permitted (fun _ => true) li mw false oo) s s' -> extends not_on_close s s'.
Proof.
  intros (t & E & F). exists t. split; [exact E|].
  exact (forallb_weaken _ _ _ (permitted_not_on_close _ _ _ _) F).
Qed.

Lemma once_of_kept (oo : bool) {A} (m : M A) (s : session) :
  keeps0 oo m s -> closes_at_most_once s (exec m s).
Proof.
  intros [_ He]. apply extends_not_on_close in He. destruct He as (t & E & F).
  exists t. split; [exact E|]. left. exact (not_on_close_count t F).
Qed.

Lemma once_bind (oo : bool) {A B} (m : M A) (k : A -> M B) (s : session) :
  keeps0 oo m s ->
  (forall a s1, inv0 s1 -> closes_at_most_once s1 (exec (k a) s1)) ->
  closes_at_most_once s (exec (bind m k) s).
Proof.
  intros [HI He] Hk. apply extends_not_on_close in He.
  unfold exec, bind in *. destruct (m s) as [[a|e] s1]; cbn [snd] in *.
  - exact (once_after_prefix _ _ _ He (Hk a s1 HI)).
  - destruct He as (t & E & F). exists t. split; [exact E|]. left.
    exact (not_on_close_count t F).
Qed.

Lemma once_get_bind {B} (k : session -> M B) (s : session) :
  closes_at_most_once s (exec (k s) s) -> closes_at_most_once s (exec (bind get k) s).
Proof. intros Hk. exact Hk. Qed.

Ltac kn :=
  first [ apply read_loop_kept; auto
        | apply drop_tcp_kept; auto
        | apply reset_message_kept; auto ].

Ltac once_walk oo :=
  repeat first [ apply once_get_bind; cbv beta
               | apply (once_bind oo); [solve [kept kn] | intros _ ? ?] ].

Ltac once_quiet oo := apply (once_of_kept oo); kept kn.

(** A read completion calls [on_close] at most once, and then leaves the
    session CLOSED. *)
Lemma handle_read_frame_once (error : error_code) (s : session) :
  inv0 s -> closes_at_most_once s (exec (handle_read_frame error) s).
Proof.
  intros HI. unfold handle_read_frame. apply once_get_bind. cbv beta.
  destruct (negb (state.eqb (m_state s) state.OPEN)
            && negb (state.eqb (m_state s) state.CLOSING)).
  { once_quiet false. }
  destruct (is_error error && bool_decide (error = ec_operation_aborted)).
  { once_quiet false. }
  once_walk false.
  match goal with
  | |- closes_at_most_once ?s3 _ =>
      destruct ((state.eqb (m_state s3) state.OPEN || state.eqb (m_state s3) state.CLOSING)
                && (0 <? get_bytes_needed (m_read_frame s3))%Z);
      [ once_quiet false |];
      destruct (state.eqb (m_state s3) state.CLOSED) eqn:Ec;
      [| once_quiet false ];
      destruct (m_local_interface s3) eqn:El;
      [| once_quiet false ];
      unfold exec, log_close_result, timer_cancel; monad_unfold; cbn [snd];
      eexists; split;
      [ cbn [trace record with_timer]; rewrite <- !app_assoc; reflexivity
      | right; split; [reflexivity|]; cbn [m_state record with_timer];
        destruct (m_state s3); try discriminate Ec; reflexivity ]
  end.
Qed.

(** So does the completion of the handshake write, which goes on to read
    what the buffer holds. *)
Lemma handle_write_handshake_once (error : error_code) (s : session) :
  inv0 s -> closes_at_most_once s (exec (handle_write_handshake error) s).
Proof.
  intros HI. unfold handle_write_handshake.
  destruct (is_error error).
  { once_quiet true. }
  once_walk true.
  match goal with
  | |- closes_at_most_once ?s1 _ =>
      destruct (negb (m_server_http_code (m_handshake s1) =? 101)%Z);
      [ once_quiet true |]
  end.
  once_walk true. unfold read_frame. apply handle_read_frame_once. assumption.
Qed.

Lemma step_once (ev : event) (s : session) :
  inv0 s -> closes_at_most_once s (exec (step ev) s).
Proof.
  intros HI.
  destruct ev;
    try (apply (once_of_kept true); apply step_kept;
         [reflexivity | reflexivity | discriminate | discriminate | assumption]);
    cbn [step].
  - apply handle_write_handshake_once; assumption.
  - once_walk true. apply handle_read_frame_once. assumption.
Qed.

End Once.

(** ** on_open and on_close *)

Section OnClose.
Context `{endpoint_policy}.

Lemma inactive_stays (evs : list event) (s : session) :
  active s = false ->
  existsb is_handshake_written evs = false ->
  active (after evs s) = false /\ extends not_on_close s (after evs s).
Proof.
  intros Ha Hw.
  assert (HI : session_inv inactive_state (m_local_interface s)
                 (w_masked (m_write_frame s)) s).
  { repeat split. unfold inactive_state. unfold active in Ha. rewrite Ha. reflexivity. }
  destruct (after_kept inactive_state (m_local_interface s) (w_masked (m_write_frame s))
              false false ltac:(discriminate) ltac:(reflexivity)
              evs s ltac:(rewrite Hw; discriminate) ltac:(discriminate) HI)
    as [(Ha' & _) (t & Et & Ft)].
  split.
  - unfold inactive_state in Ha'. apply negb_true_iff in Ha'. exact Ha'.
  - exists t. split; [exact Et|].
    exact (forallb_weaken _ _ _ (permitted_not_on_close _ _ _ _) Ft).
Qed.

(** X6.  [on_close] is never called twice.  Along any events other than the
    completion of the handshake write, the handler's [on_close] is called
    at most once; and it is not called at all if the session starts
    neither OPEN nor CLOSING. *)
Theorem on_close_at_most_once (evs : list event) (s : session) :
  existsb is_handshake_written evs = false ->
  (count_on_close (trace (after evs s)) <= count_on_close (trace s) + 1)%nat
  /\ (active s = false ->
      count_on_close (trace (after evs s)) = count_on_close (trace s)).
Proof.
  intros Hw. split.
  - revert s Hw. induction evs as [|ev evs IH]; intros s Hw; [cbn; lia|].
    cbn [existsb] in Hw. apply orb_false_iff in Hw as [Hw1 Hw2].
    change (after (ev :: evs) s) with (after evs (exec (step ev) s)).
    assert (HI : session_inv (fun _ => true) (m_local_interface s)
                   (w_masked (m_write_frame s)) s) by (repeat split).
    destruct (step_once _ _ ev s HI) as (t & Et & [C | [C Hc]]).
    + specialize (IH (exec (step ev) s) Hw2). rewrite Et in IH.
      rewrite count_on_close_app in IH. lia.
    + destruct (inactive_stays evs (exec (step ev) s)) as [_ (t2 & Et2 & Ft2)];
        [unfold active; rewrite Hc; reflexivity | exact Hw2 |].
      rewrite Et2, Et, !count_on_close_app, (not_on_close_count t2 Ft2). lia.
  - intros Ha. destruct (inactive_stays evs s Ha Hw) as [_ (t & Et & Ft)].
    rewrite Et, count_on_close_app, (not_on_close_count t Ft). lia.
Qed.

Lemma no_callback_counts (t : list effect) :
  forallb no_callback t = true -> count_on_close t = 0%nat /\ count_on_open t = 0%nat.
Proof.
  induction t as [|e t IH]; [split; reflexivity|]. cbn [forallb].
  intros E. apply andb_true_iff in E as [E1 E2]. specialize (IH E2).
  unfold count_on_close, count_on_open in *.
  destruct e; cbn in E1; try discriminate E1; rewrite !filter_cons; cbn; exact IH.
Qed.

(** The failing ends of [handle_write_handshake]: the connection is
    dropped and the handler is not called. *)
Lemma handshake_write_failed (error : error_code) (s : session) :
  is_error error = true \/ (m_server_http_code (m_handshake s) =? 101)%Z = false ->
  let s1 := exec (handle_write_handshake error) s in
  (m_state s1 = state.CLOSED \/ m_state s1 = m_state s)
  /\ m_local_interface s1 = m_local_interface s
  /\ exists t, trace s1 = (trace s ++ t)%list /\ forallb no_callback t = true.
Proof.
  intros Hf s1.
  pose (al := fun v => state.eqb v state.CLOSED || state.eqb v (m_state s)).
  assert (HI : session_inv al (m_local_interface s) (w_masked (m_write_frame s)) s).
  { repeat split. unfold al. destruct (m_state s); reflexivity. }
  assert (Hk : preserves (session_inv al (m_local_interface s) (w_masked (m_write_frame s)))
                 (permitted al false (w_masked (m_write_frame s)) false false)
                 (handle_write_handshake error) s).
  { unfold handle_write_handshake. destruct (is_error error) eqn:Ee.
    - kept ltac:(apply drop_tcp_kept; [reflexivity | assumption]).
    - destruct Hf as [Hf|Hf]; [discriminate Hf|].
      apply preserves_bind; [kept fail|]. intros a s2 HI2 E2.
      assert (Hc : m_handshake s2 = m_handshake s).
      { unfold log_open_result, socket_remote_endpoint, access_log, emit in E2.
        unfold bind, get, ret, throw, modify in E2.
        destruct (m_socket s); try discriminate E2. injection E2 as _ <-. reflexivity. }
      apply preserves_get_bind. cbv beta zeta. rewrite Hc, Hf. cbn [negb].
      kept ltac:(apply drop_tcp_kept; [reflexivity | assumption]). }
  destruct Hk as [(Ha & Hl & _) (t & Et & Ft)]. fold s1 in Ha, Hl, Et.
  split; [|split; [exact Hl|]].
  - unfold al in Ha. apply orb_true_iff in Ha as [Ha|Ha].
    + left. destruct (m_state s1); try discriminate Ha. reflexivity.
    + right. destruct (m_state s1), (m_state s); try discriminate Ha; reflexivity.
  - exists t. split; [exact Et|].
    exact (forallb_weaken _ _ _ (permitted_no_callback _ _ _ _) Ft).
Qed.

(** The successful end: the session is [opened] and goes on to read. *)
Lemma handshake_write_succeeded (error : error_code) (s : session) :
  is_error error = false ->
  (m_server_http_code (m_handshake s) =? 101)%Z = true ->
  m_socket s = sock_connected ->
  handle_write_handshake error s = (reset_message;; read_frame) (opened s).
Proof.
  intros Ee Ec Ek.
  unfold handle_write_handshake, opened, exec, log_open_result, socket_remote_endpoint,
    timer_cancel.
  monad_unfold. rewrite Ee, Ek. cbn [snd m_handshake record m_local_interface].
  rewrite Ec. cbn [negb]. destruct (m_local_interface s); reflexivity.
Qed.

(** The error [remote_endpoint] throws on a socket that is not connected. *)
Lemma handshake_write_unconnected (error : error_code) (s : session) :
  is_error error = false ->
  m_socket s <> sock_connected ->
  handle_write_handshake error s = (Raise (system_error (endpoint_error s)), s).
Proof.
  intros Ee Ek.
  unfold handle_write_handshake, log_open_result, socket_remote_endpoint, endpoint_error.
  monad_unfold. rewrite Ee. destruct (m_socket s); [reflexivity | contradiction | reflexivity].
Qed.

Lemma opened_counts (s : session) :
  count_on_open (trace (opened s))
  = (count_on_open (trace s) + if m_local_interface s then 1 else 0)%nat
  /\ count_on_close (trace (opened s)) = count_on_close (trace s)
  /\ m_local_interface (opened s) = m_local_interface s.
Proof.
  unfold opened, exec, log_open_result, socket_remote_endpoint. monad_unfold.
  destruct (m_local_interface s) eqn:El; destruct (m_socket s);
    cbn [snd trace record with_timer with_state m_local_interface];
    rewrite ?count_on_open_app, ?count_on_close_app, ?count_on_open_one, ?count_on_close_one;
    cbn [is_on_open is_on_close]; repeat split; try lia; exact El.
Qed.

Lemma reading_after_open (s : session) :
  let s1 := exec (reset_message;; read_frame) s in
  m_local_interface s1 = m_local_interface s
  /\ exists t, trace s1 = (trace s ++ t)%list
               /\ count_on_open t = 0%nat
               /\ (m_local_interface s = false -> count_on_close t = 0%nat)
               /\ (count_on_close t = 0%nat
                   \/ (count_on_close t = 1%nat /\ m_state s1 = state.CLOSED)).
Proof.
  intros s1.
  assert (HI : session_inv (fun _ => true) (m_local_interface s)
                 (w_masked (m_write_frame s)) s) by (repeat split).
  assert (Hk : preserves (session_inv (fun _ => true) (m_local_interface s)
                            (w_masked (m_write_frame s)))
                 (permitted (fun _ => true) (m_local_interface s)
                    (w_masked (m_write_frame s)) true false)
                 (reset_message;; read_frame) s).
  { apply preserves_bind; [apply reset_message_kept; assumption|].
    intros a s2 HI2 _. apply handle_read_frame_kept; auto. }
  assert (Ho : closes_at_most_once s s1).
  { apply (once_bind (m_local_interface s) (w_masked (m_write_frame s)) false).
    - apply reset_message_kept. assumption.
    - intros a s2 HI2. exact (handle_read_frame_once _ _ _ _ HI2). }
  destruct Hk as [(_ & Hl & _) (t & Et & Ft)]. fold s1 in Hl, Et.
  destruct Ho as (t' & Et' & C).
  assert (t' = t) as -> by (rewrite Et in Et'; exact (eq_sym (app_inv_head _ _ _ Et'))).
  split; [exact Hl|]. exists t. split; [exact Et|]. split; [|split; [|exact C]].
  - apply not_on_open_count.
    exact (forallb_weaken _ _ _ (permitted_not_on_open _ _ _ _) Ft).
  - intros El. rewrite El in Ft.
    exact (proj1 (no_callback_counts t
                    (forallb_weaken _ _ _ (permitted_no_callback _ _ _ _) Ft))).
Qed.

Lemma active_closed (s : session) : m_state s = state.CLOSED -> active s = false.
Proof. intros E. unfold active. rewrite E. reflexivity. Qed.

Lemma step_balanced (ev : event) (s : session) :
  callbacks_balanced s -> callbacks_balanced (exec (step ev) s).
Proof.
  intros [K1 K2]. destruct (is_handshake_written ev) eqn:Ew.
  - destruct ev; try discriminate Ew. cbn [step].
    assert (Hk : m_socket s = sock_connected \/ m_socket s <> sock_connected)
      by (destruct (m_socket s); [right; discriminate | left; reflexivity
                                  | right; discriminate]).
    destruct (is_error error) eqn:Ee;
      [|destruct Hk as [Ek|Ek];
        [destruct (m_server_http_code (m_handshake s) =? 101)%Z eqn:Ec|]].
    4:{ unfold exec. rewrite (handshake_write_unconnected error s Ee Ek).
        split; assumption. }
    2:{ unfold exec. rewrite (handshake_write_succeeded error s Ee Ec Ek).
        destruct (opened_counts s) as (O1 & O2 & O3).
        destruct (reading_after_open (opened s)) as (Hl & t & Et & Co & Cn & Cc).
        unfold exec in Hl, Et, Cc.
        set (s1 := snd ((reset_message;; read_frame) (opened s))) in *.
        split.
        - rewrite Et, count_on_close_app, count_on_open_app, Co, O1, O2.
          destruct (m_local_interface s) eqn:El.
          + destruct Cc as [C | [C _]]; lia.
          + rewrite (Cn O3). lia.
        - intros Ha Hl1. rewrite Hl, O3 in Hl1.
          rewrite Et, count_on_close_app, count_on_open_app, Co, O1, O2, Hl1.
          destruct Cc as [C | [_ C]]; [lia|].
          rewrite (active_closed _ C) in Ha. discriminate Ha. }
    all: destruct (handshake_write_failed error s) as (Hs & Hl & t & Et & Ft);
      [auto|]; destruct (no_callback_counts t Ft) as [Cc Co];
      (split;
       [ rewrite Et, count_on_close_app, count_on_open_app, Cc, Co; lia
       | intros Ha Hl1; rewrite Et, count_on_close_app, count_on_open_app, Cc, Co;
         rewrite Hl in Hl1;
         destruct Hs as [Hs|Hs];
         [ rewrite (active_closed _ Hs) in Ha; discriminate Ha
         | unfold active in Ha; rewrite Hs in Ha; specialize (K2 Ha Hl1); lia ] ]).
  - assert (HI : session_inv (fun _ => true) (m_local_interface s)
                   (w_masked (m_write_frame s)) s) by (repeat split).
    destruct (step_kept (fun _ => true) (m_local_interface s) (w_masked (m_write_frame s))
                true false ltac:(reflexivity) ltac:(reflexivity) ev s
                ltac:(rewrite Ew; discriminate) ltac:(reflexivity) HI)
      as [(_ & Hl & _) (t & Et & Ft)].
    destruct (step_once _ _ ev s HI) as (t' & Et' & Cc).
    assert (t' = t) as -> by (rewrite Et in Et'; exact (eq_sym (app_inv_head _ _ _ Et'))).
    assert (Co : count_on_open t = 0%nat).
    { apply not_on_open_count.
      exact (forallb_weaken _ _ _ (permitted_not_on_open _ _ _ _) Ft). }
    assert (Cn : m_local_interface s = false -> count_on_close t = 0%nat).
    { intros El. rewrite El in Ft.
      exact (proj1 (no_callback_counts t
                      (forallb_weaken _ _ _ (permitted_no_callback _ _ _ _) Ft))). }
    assert (Ci : active s = false ->
                 count_on_close t = 0%nat /\ active (exec (step ev) s) = false).
    { intros Ha. destruct (inactive_stays [ev] s Ha) as [Ha1 (t2 & Et2 & Ft2)].
      - cbn. rewrite Ew. reflexivity.
      - cbn [after foldl] in Ha1, Et2. rewrite Et in Et2.
        apply app_inv_head in Et2. subst t2.
        split; [exact (not_on_close_count t Ft2) | exact Ha1]. }
    split.
    + rewrite Et, count_on_close_app, count_on_open_app, Co.
      destruct Cc as [C | [C _]]; [lia|].
      destruct (active s) eqn:Ha; [|destruct (Ci eq_refl); lia].
      destruct (m_local_interface s) eqn:El; [|rewrite (Cn eq_refl) in C; discriminate C].
      specialize (K2 eq_refl eq_refl). lia.
    + intros Ha1 Hl1. rewrite Hl in Hl1.
      rewrite Et, count_on_close_app, count_on_open_app, Co.
      destruct Cc as [C | [_ C]];
        [| rewrite (active_closed _ C) in Ha1; discriminate Ha1 ].
      destruct (active s) eqn:Ha;
        [| destruct (Ci eq_refl) as [_ Hx]; rewrite Hx in Ha1; discriminate Ha1 ].
      specialize (K2 eq_refl Hl1). lia.
Qed.

Lemma set_handler_balanced (s : session) :
  callbacks_balanced s -> callbacks_balanced (exec set_handler s).
Proof.
  intros [K1 _]. unfold callbacks_balanced, exec, set_handler. monad_unfold.
  cbn [snd trace record with_local_interface].
  rewrite count_on_close_app, count_on_open_app, count_on_close_one, count_on_open_one.
  cbn [is_on_close is_on_open]. split; [|intros _ _]; lia.
Qed.

(** X7.  No [on_close] without an [on_open].  From a new session, after any
    events whatever and any calls of [set_handler] between them, the
    handlers have been called [on_close] at most as often as [on_open];
    and while the session is OPEN or CLOSING with a handler attached,
    strictly less often. *)
Theorem on_close_only_after_on_open (defc : bool) (junk : uninitialised)
    (acts : list action) :
  callbacks_balanced (after_all acts (new_session defc junk)).
Proof.
  assert (Hk : forall s, callbacks_balanced s -> callbacks_balanced (after_all acts s)).
  { induction acts as [|a acts IH]; intros s K; [exact K|].
    apply (IH (exec (act a) s)). destruct a as [ev|]; cbn [act].
    - exact (step_balanced ev s K).
    - exact (set_handler_balanced s K). }
  apply Hk. split; [cbn; lia|]. intros Ha. discriminate Ha.
Qed.

End OnClose.

(** ** Handlers on a session whose fields are known *)

(** Evaluation that keeps the endpoint's fields, the numeric tests and
    the trace projections folded. *)
Ltac evaluate :=
  lazy -[append pretty buf_size app Z.eqb Z.ltb Z.lt
         messages frames_written count_on_open count_on_close last
         is_server validate_host handler_validate invalid reserved
         UTF8_ACCEPT UTF8_REJECT decode utf8_what default_code print_frame
         this_ptr remote_endpoint show_error_code lookup_http_error_string
         little_endian_host].

Ltac trace_counts :=
  rewrite ?frames_written_app, ?messages_app, ?count_on_close_app, ?count_on_open_app,
    ?count_on_close_one, ?count_on_open_one, ?frames_written_one, ?messages_one;
  cbn [is_on_close is_on_open is_message app Nat.add];
  rewrite ?app_nil_r, ?Nat.add_0_r.

Section Dropping.
Context `{endpoint_policy}.

(** X8.  [drop_tcp] always cancels the timer.  It shuts the socket down if it
    is open, treats a peer that is already gone (not_connected) as
    success, and then records who dropped and enters CLOSED.  Any other
    error of the shutdown leaves the function as an exception, with the
    state and [m_dropped_by_me] as they were. *)
Theorem drop_tcp_outcome (b : bool) (s : session) :
  let s' := exec (drop_tcp b) s in
  m_timer s' = None
  /\ frames_written (trace s') = frames_written (trace s)
  /\ messages (trace s') = messages (trace s)
  /\ count_on_close (trace s') = count_on_close (trace s)
  /\ match m_socket s with
     | sock_failing e =>
         if bool_decide (e = ec_not_connected) then
           result (drop_tcp b) s = Ret tt
           /\ m_state s' = state.CLOSED /\ m_dropped_by_me (m_close s') = b
         else
           result (drop_tcp b) s = Raise (system_error e)
           /\ m_state s' = m_state s
           /\ m_dropped_by_me (m_close s') = m_dropped_by_me (m_close s)
     | _ =>
         result (drop_tcp b) s = Ret tt
         /\ m_state s' = state.CLOSED /\ m_dropped_by_me (m_close s') = b
         /\ m_socket s' = sock_closed
     end.
Proof.
  open_session s. destruct xsk as [| |[]]; evaluate; trace_counts; repeat split; lia.
Qed.

End Dropping.

(** The endpoint as its fields. *)
Ltac open_policy :=
  match goal with
  | P : endpoint_policy |- _ =>
      destruct P as [pserver phost pvalidate pinvalid preserved paccept preject pdecode
                     pwhat pdefault pprint pthis premote pshow plookup plittle]
  end.

(** Evaluation once the endpoint and the session are opened. *)
Ltac evaluate_all :=
  lazy -[append pretty buf_size app
         messages frames_written count_on_open count_on_close last].

Section FrameErrors.
Context `{endpoint_policy}.

(** X9.  The catch block of the read loop, in an OPEN session.  A protocol
    violation starts the close handshake with PROTOCOL_ERROR, a payload
    violation with INVALID_PAYLOAD, an internal server error with
    ABNORMAL_CLOSE (which goes on the wire as POLICY_VIOLATION); the loop
    stops.  A soft session error is logged and the loop goes on, the
    session still OPEN.  Any other code drops the connection at once:
    no CLOSE frame is written and the session is CLOSED, dropped by this
    endpoint. *)
Theorem frame_error_closes (s : session) (what : string) (code : error.value) :
  m_state s = state.OPEN ->
  let s' := exec (catch_frame_exception what code) s in
  messages (trace s') = messages (trace s)
  /\ match code with
     | error.PROTOCOL_VIOLATION =>
         result (catch_frame_exception what code) s = Ret loop_break
         /\ closing_with close_status.PROTOCOL_ERROR what s s'
     | error.PAYLOAD_VIOLATION =>
         result (catch_frame_exception what code) s = Ret loop_break
         /\ closing_with close_status.INVALID_PAYLOAD what s s'
     | error.INTERNAL_SERVER_ERROR =>
         result (catch_frame_exception what code) s = Ret loop_break
         /\ closing_with close_status.ABNORMAL_CLOSE what s s'
         /\ close_frame_status close_status.ABNORMAL_CLOSE what
            = (close_status.POLICY_VIOLATION, what)
     | error.SOFT_SESSION_ERROR =>
         result (catch_frame_exception what code) s = Ret loop_continue
         /\ m_state s' = state.OPEN
         /\ frames_written (trace s') = frames_written (trace s)
         /\ m_close s' = m_close s
     | _ =>
         frames_written (trace s') = frames_written (trace s)
         /\ (shutdown_succeeds s = true ->
             result (catch_frame_exception what code) s = Ret loop_break
             /\ m_state s' = state.CLOSED
             /\ m_dropped_by_me (m_close s') = true)
     end.
Proof.
  intros Hs. open_session s. open_policy. unfold closing_with, shutdown_succeeds.
  destruct code; destruct xrr, pserver.
  1-4, 21-24:
    destruct xsk as [| |[]]; evaluate_all; trace_counts; repeat split; discriminate.
  1-4: evaluate_all; trace_counts; repeat split.
  all: evaluate_all.
  all: try (destruct (pinvalid _); [|destruct (preserved _)]); evaluate_all.
  all: trace_counts; repeat split.
  all: eexists; split; [trace_counts; reflexivity|]; repeat split.
Qed.

End FrameErrors.

(** ** Reading *)

Section Reading.
Context `{endpoint_policy}.

Lemma read_loop_closed (buf : list chunk) (s : session) :
  m_state s = state.CLOSED -> read_loop buf s = (Ret tt, s).
Proof.
  intros Hs. destruct buf as [|c rest]; [reflexivity|].
  cbn [read_loop]. unfold bind, get. rewrite Hs. reflexivity.
Qed.

End Reading.

(** ** The close handshake *)

Ltac open_frame f :=
  destruct f as [frr frn ffin fop fp fcs fcm]; cbn in * |-; subst.

(** Evaluation that keeps the numeric tests folded. *)
Ltac evaluate_tests :=
  lazy -[append pretty buf_size app Z.eqb Z.ltb Z.lt
         messages frames_written count_on_open count_on_close last].

Ltac evaluate_tests_in E :=
  lazy -[append pretty buf_size app Z.eqb Z.ltb Z.lt
         messages frames_written count_on_open count_on_close last] in E.

Section CloseHandshake.
Context `{endpoint_policy}.

(** A read of a chunk that completes a frame, on a session that is OPEN
    or CLOSING with nothing buffered. *)
Lemma step_frames_read_consumed (s : session) (c : chunk) (f : in_frame)
    (rest : list chunk) :
  active s = true ->
  m_buf s = [] ->
  (0 < get_bytes_needed (m_read_frame s))%Z ->
  chunk_result c = consumed f ->
  ready f = true ->
  step (frames_read ec_success (c :: rest)) s =
    match process_frame (arrival f rest s) with
    | (Ret _, s2) => (read_loop rest;; check_read_more) s2
    | (Raise (frame_exception what code), s2) =>
        match catch_frame_exception what code s2 with
        | (Ret loop_continue, s3) => (read_loop rest;; check_read_more) s3
        | (Ret loop_break, s3) => check_read_more s3
        | (Raise e, s3) => (Raise e, s3)
        end
    | (Raise e, s2) => (Raise e, s2)
    end.
Proof.
  intros Ha Hb Hn Hc Hr. cbn [step]. unfold bind at 1. unfold modify at 1.
  cbv beta iota. rewrite Hb. cbn [app].
  rewrite handle_read_frame_success by exact Ha.
  unfold bind at 1. cbn [m_buf with_buf].
  rewrite (read_loop_consumed _ c f rest Hc); [| | exact Hn | exact Hr].
  2:{ cbn [m_state with_buf]. unfold active in Ha. intros E. rewrite E in Ha.
      discriminate Ha. }
  change (arrival f rest (with_buf (c :: rest) s)) with (arrival f rest s).
  destruct (process_frame (arrival f rest s)) as [[[]|e] s2]; [reflexivity|].
  destruct e as [what code| |]; try reflexivity.
  destruct (catch_frame_exception what code s2) as [[[]|e] s3]; reflexivity.
Qed.

(** The end of a read that has left the session CLOSED. *)
Lemma check_read_more_closed (s : session) :
  m_state s = state.CLOSED ->
  exists s',
    check_read_more s = (Ret tt, s')
    /\ m_state s' = state.CLOSED /\ m_close s' = m_close s /\ m_buf s' = m_buf s
    /\ m_socket s' = m_socket s /\ m_message s' = m_message s
    /\ m_timer s' = None
    /\ frames_written (trace s') = frames_written (trace s)
    /\ messages (trace s') = messages (trace s)
    /\ count_on_open (trace s') = count_on_open (trace s)
    /\ count_on_close (trace s')
       = (count_on_close (trace s) + if m_local_interface s then 1 else 0)%nat
    /\ last (trace s') = Some Etimer_cancel.
Proof.
  intros Hs. unfold check_read_more, log_close_result, timer_cancel.
  monad_unfold. rewrite Hs. cbn [state.eqb orb andb].
  destruct (m_local_interface s); (eexists; split; [reflexivity|]);
    cbn [m_state m_close m_buf m_socket m_message m_timer trace record with_timer];
    trace_counts; rewrite ?last_snoc; repeat split; try assumption; lia.
Qed.

(** The end of a read that leaves the session OPEN or CLOSING. *)
Lemma check_read_more_active (s : session) :
  active s = true ->
  (0 < get_bytes_needed (m_read_frame s))%Z ->
  exists s',
    check_read_more s = (Ret tt, s')
    /\ m_state s' = m_state s /\ m_close s' = m_close s /\ m_buf s' = m_buf s
    /\ m_socket s' = m_socket s /\ m_message s' = m_message s
    /\ m_timer s' = m_timer s
    /\ frames_written (trace s') = frames_written (trace s)
    /\ messages (trace s') = messages (trace s)
    /\ count_on_open (trace s') = count_on_open (trace s)
    /\ count_on_close (trace s') = count_on_close (trace s)
    /\ last (trace s') = Some Easync_read.
Proof.
  intros Ha Hn. apply Z.ltb_lt in Hn. unfold active in Ha.
  unfold check_read_more. monad_unfold. rewrite Ha, Hn. cbn [andb].
  eexists. split; [reflexivity|].
  cbn [m_state m_close m_buf m_socket m_message m_timer trace record].
  trace_counts. rewrite ?last_snoc. repeat split; lia.
Qed.

(** What [arrival] changes. *)
Lemma arrival_facts (f : in_frame) (rest : list chunk) (s : session) :
  let s1 := arrival f rest s in
  m_state s1 = m_state s /\ m_close s1 = m_close s /\ m_message s1 = m_message s
  /\ m_socket s1 = m_socket s /\ m_local_interface s1 = m_local_interface s
  /\ m_write_frame s1 = m_write_frame s
  /\ m_read_frame s1 = f /\ m_buf s1 = rest /\ m_timer s1 = None
  /\ frames_written (trace s1) = frames_written (trace s)
  /\ messages (trace s1) = messages (trace s)
  /\ count_on_open (trace s1) = count_on_open (trace s)
  /\ count_on_close (trace s1) = count_on_close (trace s).
Proof.
  unfold arrival.
  cbn [m_state m_close m_message m_socket m_local_interface m_write_frame m_read_frame
       m_buf m_timer trace record with_timer upd_read_frame with_buf].
  trace_counts. repeat split.
Qed.

(** A CLOSE frame in the parser of an OPEN session. *)
Lemma process_close_in_open (s : session) :
  m_state s = state.OPEN ->
  get_opcode (m_read_frame s) = opcode.CLOSE ->
  exists s2,
    process_frame s = (Ret tt, s2)
    /\ m_state s2 = state.CLOSED
    /\ m_was_clean (m_close s2) = true
    /\ m_closed_by_me (m_close s2) = false
    /\ m_remote_close_code (m_close s2) = get_close_status (m_read_frame s)
    /\ m_remote_close_msg (m_close s2) = get_close_msg (m_read_frame s)
    /\ m_local_close_code (m_close s2) = get_close_status (m_read_frame s)
    /\ m_local_close_msg (m_close s2) = get_close_msg (m_read_frame s)
    /\ (exists w,
          frames_written (trace s2) = (frames_written (trace s) ++ [w])%list
          /\ w_fin w = true /\ w_opcode w = opcode.CLOSE
          /\ w_body w
             = payload_status
                 (fst (close_frame_status (get_close_status (m_read_frame s))
                         (get_close_msg (m_read_frame s))))
                 (snd (close_frame_status (get_close_status (m_read_frame s))
                         (get_close_msg (m_read_frame s)))))
    /\ messages (trace s2) = messages (trace s)
    /\ count_on_open (trace s2) = count_on_open (trace s)
    /\ count_on_close (trace s2) = count_on_close (trace s)
    /\ m_buf s2 = m_buf s
    /\ m_local_interface s2 = m_local_interface s
    /\ m_socket s2 = m_socket s
    /\ m_message s2 = m_message s.
Proof.
  intros Hs Ho. open_session s. open_policy.
  unfold close_frame_status, close_status.NO_STATUS, close_status.ABNORMAL_CLOSE.
  cbn [m_read_frame get_close_status get_close_msg invalid reserved].
  match goal with |- context [process_frame ?x] => remember (process_frame x) as r eqn:E end.
  destruct pserver; evaluate_tests_in E.
  all: destruct (xrcs =? 1005)%Z; evaluate_tests_in E;
    [| destruct (xrcs =? 1006)%Z; evaluate_tests_in E;
       [| destruct (pinvalid xrcs); evaluate_tests_in E;
          [| destruct (preserved xrcs); evaluate_tests_in E ] ] ].
  all: subst r; (eexists; split; [reflexivity|]);
    cbn [fst snd m_state m_close m_message m_socket m_local_interface m_buf trace
         m_was_clean m_closed_by_me m_remote_close_code m_remote_close_msg
         m_local_close_code m_local_close_msg];
    trace_counts; repeat split.
  all: eexists; split; [reflexivity|]; repeat split.
Qed.

(** X10.  The peer closes first.  An OPEN session that reads a CLOSE frame
    records the peer's code and reason, answers with one CLOSE frame that
    echoes them as [send_close] allows, and is CLOSED at once: the close
    is clean and not ours, [on_close] is called if there is a handler,
    the timer is cancelled, no further read is started and what was
    behind the CLOSE frame in the buffer stays there unprocessed. *)
Theorem remote_close_is_acknowledged (s : session) (c : chunk) (f : in_frame)
    (rest : list chunk) :
  m_state s = state.OPEN ->
  m_buf s = [] ->
  (0 < get_bytes_needed (m_read_frame s))%Z ->
  chunk_result c = consumed f ->
  ready f = true ->
  get_opcode f = opcode.CLOSE ->
  let s' := exec (step (frames_read ec_success (c :: rest))) s in
  result (step (frames_read ec_success (c :: rest))) s = Ret tt
  /\ m_state s' = state.CLOSED
  /\ m_was_clean (m_close s') = true
  /\ m_closed_by_me (m_close s') = false
  /\ m_remote_close_code (m_close s') = get_close_status f
  /\ m_remote_close_msg (m_close s') = get_close_msg f
  /\ m_local_close_code (m_close s') = get_close_status f
  /\ m_local_close_msg (m_close s') = get_close_msg f
  /\ (exists w,
        frames_written (trace s') = (frames_written (trace s) ++ [w])%list
        /\ w_fin w = true /\ w_opcode w = opcode.CLOSE
        /\ w_body w
           = payload_status
               (fst (close_frame_status (get_close_status f) (get_close_msg f)))
               (snd (close_frame_status (get_close_status f) (get_close_msg f))))
  /\ messages (trace s') = messages (trace s)
  /\ count_on_close (trace s')
     = (count_on_close (trace s) + if m_local_interface s then 1 else 0)%nat
  /\ m_buf s' = rest
  /\ m_timer s' = None
  /\ last (trace s') = Some Etimer_cancel.
Proof.
  intros Hs Hb Hn Hc Hr Ho s'.
  destruct (arrival_facts f rest s)
    as (A1 & A2 & A3 & A4 & A5 & A6 & A7 & A8 & A9 & A10 & A11 & A12 & A13).
  destruct (process_close_in_open (arrival f rest s))
    as (s2 & E2 & P2 & P3 & P4 & P5 & P6 & P7 & P8 & (w & P9 & Pw) & P10 & P11 & P12
        & P13 & P14 & P15 & P16);
    [congruence | rewrite A7; exact Ho |].
  destruct (check_read_more_closed s2 P2)
    as (s3 & E3 & C2 & C3 & C4 & C5 & C6 & C7 & C8 & C9 & C10 & C11 & C12).
  assert (E : step (frames_read ec_success (c :: rest)) s = (Ret tt, s3)).
  { rewrite (step_frames_read_consumed s c f rest)
      by first [ unfold active; rewrite Hs; reflexivity | assumption ].
    rewrite E2. unfold bind. rewrite (read_loop_closed rest s2 P2). exact E3. }
  subst s'. unfold result, exec. rewrite E. cbn [fst snd].
  rewrite A7 in *.
  rewrite C3, C4, C8, C9, C11, P9, P10, P12, P13, P14, A5, A8, A10, A11, A13.
  repeat split; try assumption.
  exists w. split; [reflexivity | exact Pw].
Qed.

(** [close] on an OPEN session. *)
Lemma close_in_open (s : session) (status : Z) (reason : string) :
  m_state s = state.OPEN ->
  exists s1,
    close status reason s = (Ret tt, s1)
    /\ closing_with status reason s s1
    /\ m_buf s1 = m_buf s /\ m_read_frame s1 = m_read_frame s
    /\ m_local_interface s1 = m_local_interface s
    /\ m_was_clean (m_close s1) = m_was_clean (m_close s)
    /\ m_closed_by_me (m_close s1) = m_closed_by_me (m_close s)
    /\ messages (trace s1) = messages (trace s)
    /\ count_on_open (trace s1) = count_on_open (trace s)
    /\ count_on_close (trace s1) = count_on_close (trace s).
Proof.
  intros Hs. open_session s. open_policy.
  unfold closing_with, close_frame_status, close_status.NO_STATUS,
    close_status.ABNORMAL_CLOSE.
  cbn [invalid reserved].
  match goal with |- context [close ?a ?b ?x] => remember (close a b x) as r eqn:E end.
  destruct pserver; evaluate_tests_in E.
  all: destruct (status =? 1005)%Z; evaluate_tests_in E;
    [| destruct (status =? 1006)%Z; evaluate_tests_in E;
       [| destruct (pinvalid status); evaluate_tests_in E;
          [| destruct (preserved status); evaluate_tests_in E ] ] ].
  all: subst r; (eexists; split; [reflexivity|]);
    cbn [fst snd m_state m_close m_message m_socket m_local_interface m_buf trace
         m_read_frame m_timer
         m_was_clean m_closed_by_me m_remote_close_code m_remote_close_msg
         m_local_close_code m_local_close_msg];
    trace_counts; repeat split.
  all: eexists; split; [reflexivity|]; repeat split.
Qed.

(** A CLOSE frame in the parser of a session that is CLOSING. *)
Lemma process_close_in_closing (s : session) :
  m_state s = state.CLOSING ->
  get_opcode (m_read_frame s) = opcode.CLOSE ->
  exists s2,
    process_frame s = (Ret tt, s2)
    /\ m_state s2 = state.CLOSED
    /\ m_was_clean (m_close s2) = true
    /\ m_closed_by_me (m_close s2) = true
    /\ m_remote_close_code (m_close s2) = get_close_status (m_read_frame s)
    /\ m_remote_close_msg (m_close s2) = get_close_msg (m_read_frame s)
    /\ m_local_close_code (m_close s2) = m_local_close_code (m_close s)
    /\ m_local_close_msg (m_close s2) = m_local_close_msg (m_close s)
    /\ frames_written (trace s2) = frames_written (trace s)
    /\ messages (trace s2) = messages (trace s)
    /\ count_on_open (trace s2) = count_on_open (trace s)
    /\ count_on_close (trace s2) = count_on_close (trace s)
    /\ m_buf s2 = m_buf s
    /\ m_local_interface s2 = m_local_interface s
    /\ m_socket s2 = m_socket s
    /\ m_message s2 = m_message s.
Proof.
  intros Hs Ho. open_session s.
  unfold process_frame, process_close. monad_unfold.
  cbn [m_state m_read_frame get_opcode record upd_close opcode.eqb].
  eexists. split; [reflexivity|].
  cbn [m_state m_close m_message m_socket m_local_interface m_buf trace m_read_frame
       upd_read_frame with_state upd_close record
       with_was_clean with_closed_by_me with_remote_close
       m_was_clean m_closed_by_me m_remote_close_code m_remote_close_msg
       m_local_close_code m_local_close_msg get_close_status get_close_msg].
  trace_counts. repeat split.
Qed.

(** X11.  This endpoint closes first.  [close] on an OPEN session followed by
    the peer's CLOSE frame completes the close handshake: one CLOSE frame
    has been written, with what [send_close] makes of the caller's code
    and reason; the session is CLOSED, cleanly and by this endpoint; the
    peer's code and reason are recorded; [on_close] is called if there is
    a handler and the close timer is cancelled. *)
Theorem local_close_handshake (s : session) (status : Z) (reason : string)
    (c : chunk) (f : in_frame) (rest : list chunk) :
  m_state s = state.OPEN ->
  m_buf s = [] ->
  (0 < get_bytes_needed (m_read_frame s))%Z ->
  chunk_result c = consumed f ->
  ready f = true ->
  get_opcode f = opcode.CLOSE ->
  let s' := after [app_close status reason; frames_read ec_success (c :: rest)] s in
  m_state s' = state.CLOSED
  /\ m_was_clean (m_close s') = true
  /\ m_closed_by_me (m_close s') = true
  /\ m_local_close_code (m_close s') = status
  /\ m_local_close_msg (m_close s') = reason
  /\ m_remote_close_code (m_close s') = get_close_status f
  /\ m_remote_close_msg (m_close s') = get_close_msg f
  /\ (exists w,
        frames_written (trace s') = (frames_written (trace s) ++ [w])%list
        /\ w_fin w = true /\ w_opcode w = opcode.CLOSE
        /\ w_body w = payload_status (fst (close_frame_status status reason))
                                     (snd (close_frame_status status reason)))
  /\ messages (trace s') = messages (trace s)
  /\ count_on_close (trace s')
     = (count_on_close (trace s) + if m_local_interface s then 1 else 0)%nat
  /\ m_timer s' = None.
Proof.
  intros Hs Hb Hn Hc Hr Ho s'.
  destruct (close_in_open s status reason Hs)
    as (s1 & E1 & (K1 & K2 & K3 & K4 & (w & K5 & Kw)) & B1 & B2 & B3 & B4 & B5 & B6 & B7 & B8).
  destruct (arrival_facts f rest s1)
    as (A1 & A2 & A3 & A4 & A5 & A6 & A7 & A8 & A9 & A10 & A11 & A12 & A13).
  destruct (process_close_in_closing (arrival f rest s1))
    as (s2 & E2 & P2 & P3 & P4 & P5 & P6 & P7 & P8 & P9 & P10 & P11 & P12
        & P13 & P14 & P15 & P16);
    [congruence | rewrite A7; exact Ho |].
  destruct (check_read_more_closed s2 P2)
    as (s3 & E3 & C2 & C3 & C4 & C5 & C6 & C7 & C8 & C9 & C10 & C11 & C12).
  assert (E : step (frames_read ec_success (c :: rest)) s1 = (Ret tt, s3)).
  { rewrite (step_frames_read_consumed s1 c f rest)
      by first [ unfold active; rewrite K1; reflexivity | congruence | assumption ].
    rewrite E2. unfold bind. rewrite (read_loop_closed rest s2 P2). exact E3. }
  assert (Ef : after [app_close status reason; frames_read ec_success (c :: rest)] s = s3).
  { change (after [app_close status reason; frames_read ec_success (c :: rest)] s)
      with (exec (step (frames_read ec_success (c :: rest)))
              (exec (step (app_close status reason)) s)).
    unfold exec. change (step (app_close status reason) s) with (close status reason s).
    rewrite E1. cbn [snd]. rewrite E. reflexivity. }
  subst s'. rewrite Ef.
  rewrite A7 in *.
  rewrite C3, C8, C9, C11, P7, P8, P9, P10, P12, P14, A2, A5, A10, A11, A13, K5, B3, B6, B8.
  repeat split; try assumption.
  exists w. split; [reflexivity | exact Kw].
Qed.

End CloseHandshake.

(** ** Control frames *)

Section Frames.
Context `{endpoint_policy}.

(** A PING frame in the parser of an OPEN session. *)
Lemma process_ping_in_open (s : session) :
  m_state s = state.OPEN ->
  get_opcode (m_read_frame s) = opcode.PING ->
  exists s2,
    process_frame s = (Ret tt, s2)
    /\ m_state s2 = state.OPEN
    /\ (exists w,
          frames_written (trace s2) = (frames_written (trace s) ++ [w])%list
          /\ w_fin w = true /\ w_opcode w = opcode.PONG
          /\ w_body w = payload_bytes (get_payload (m_read_frame s))
          /\ w_masked w = if is_server then w_masked (m_write_frame s) else true)
    /\ messages (trace s2) = messages (trace s)
    /\ count_on_close (trace s2) = count_on_close (trace s)
    /\ m_message s2 = m_message s /\ m_close s2 = m_close s
    /\ m_buf s2 = m_buf s /\ m_timer s2 = m_timer s
    /\ get_bytes_needed (m_read_frame s2) = 2%Z.
Proof.
  intros Hs Ho. open_session s. open_policy. cbn [is_server].
  destruct pserver; (eexists; split; [evaluate_all; reflexivity|]);
    cbn [m_state m_close m_message m_buf m_timer trace m_read_frame m_write_frame
         get_payload get_bytes_needed];
    trace_counts; repeat split;
    (eexists; split; [reflexivity|]; repeat split).
Qed.

(** X12.  Every PING is answered.  An OPEN session that reads a PING frame
    writes one PONG frame with the same payload (masked on a client, and
    on a server with the flag its writer had), stays OPEN, leaves the
    message in progress and the close record as they were, delivers
    nothing, and goes on reading. *)
Theorem ping_is_answered (s : session) (c : chunk) (f : in_frame) :
  m_state s = state.OPEN ->
  m_buf s = [] ->
  (0 < get_bytes_needed (m_read_frame s))%Z ->
  chunk_result c = consumed f ->
  ready f = true ->
  get_opcode f = opcode.PING ->
  let s' := exec (step (frames_read ec_success [c])) s in
  result (step (frames_read ec_success [c])) s = Ret tt
  /\ m_state s' = state.OPEN
  /\ (exists w,
        frames_written (trace s') = (frames_written (trace s) ++ [w])%list
        /\ w_fin w = true /\ w_opcode w = opcode.PONG
        /\ w_body w = payload_bytes (get_payload f)
        /\ w_masked w = if is_server then w_masked (m_write_frame s) else true)
  /\ messages (trace s') = messages (trace s)
  /\ m_message s' = m_message s
  /\ m_close s' = m_close s
  /\ last (trace s') = Some Easync_read.
Proof.
  intros Hs Hb Hn Hc Hr Ho s'.
  destruct (arrival_facts f [] s)
    as (A1 & A2 & A3 & A4 & A5 & A6 & A7 & A8 & A9 & A10 & A11 & A12 & A13).
  destruct (process_ping_in_open (arrival f [] s))
    as (s2 & E2 & P2 & (w & P3 & Pf & Po & Pb & Pm) & P4 & P5 & P6 & P7 & P8 & P9 & P10);
    [congruence | rewrite A7; exact Ho |].
  destruct (check_read_more_active s2)
    as (s3 & E3 & C2 & C3 & C4 & C5 & C6 & C7 & C8 & C9 & C10 & C11 & C12);
    [unfold active; rewrite P2; reflexivity | lia |].
  assert (E : step (frames_read ec_success [c]) s = (Ret tt, s3)).
  { rewrite (step_frames_read_consumed s c f [])
      by first [ unfold active; rewrite Hs; reflexivity | assumption ].
    rewrite E2. exact E3. }
  subst s'. unfold result, exec. rewrite E. cbn [fst snd].
  rewrite A7, A6 in *.
  rewrite C2, C3, C6, C8, C9, P3, P4, P6, P7, A2, A3, A10, A11.
  repeat split; try assumption.
  exists w. repeat split; assumption.
Qed.

(** A frame that is not CLOSE in the parser of a CLOSING session. *)
Lemma process_other_in_closing (s : session) :
  m_state s = state.CLOSING ->
  get_opcode (m_read_frame s) <> opcode.CLOSE ->
  exists s2,
    process_frame s = (Ret tt, s2)
    /\ m_state s2 = state.CLOSING
    /\ frames_written (trace s2) = frames_written (trace s)
    /\ messages (trace s2) = messages (trace s)
    /\ m_close s2 = m_close s /\ m_timer s2 = m_timer s
    /\ get_bytes_needed (m_read_frame s2) = 2%Z.
Proof.
  intros Hs Ho. unfold process_frame. monad_unfold. cbn [m_state record m_read_frame].
  rewrite Hs, (opcode_eqb_neq _ _ Ho). eexists. split; [reflexivity|].
  cbn [m_state m_close m_timer trace m_read_frame upd_read_frame record reset
       get_bytes_needed].
  trace_counts. repeat split. exact Hs.
Qed.

(** X13.  The close timer does not survive a frame.  A session that is CLOSING
    and reads a frame other than CLOSE ignores the frame, but the read
    loop has cancelled the timer on the way: the session is still CLOSING
    and reading, with no timer pending whatever was pending before, so
    nothing bounds the wait for the peer's CLOSE frame any more. *)
Theorem frame_while_closing_cancels_timer (s : session) (c : chunk) (f : in_frame) :
  m_state s = state.CLOSING ->
  m_buf s = [] ->
  (0 < get_bytes_needed (m_read_frame s))%Z ->
  chunk_result c = consumed f ->
  ready f = true ->
  get_opcode f <> opcode.CLOSE ->
  let s' := exec (step (frames_read ec_success [c])) s in
  result (step (frames_read ec_success [c])) s = Ret tt
  /\ m_state s' = state.CLOSING
  /\ m_timer s' = None
  /\ frames_written (trace s') = frames_written (trace s)
  /\ messages (trace s') = messages (trace s)
  /\ m_close s' = m_close s
  /\ last (trace s') = Some Easync_read.
Proof.
  intros Hs Hb Hn Hc Hr Ho s'.
  destruct (arrival_facts f [] s)
    as (A1 & A2 & A3 & A4 & A5 & A6 & A7 & A8 & A9 & A10 & A11 & A12 & A13).
  destruct (process_other_in_closing (arrival f [] s))
    as (s2 & E2 & P2 & P3 & P4 & P5 & P6 & P7);
    [congruence | rewrite A7; exact Ho |].
  destruct (check_read_more_active s2)
    as (s3 & E3 & C2 & C3 & C4 & C5 & C6 & C7 & C8 & C9 & C10 & C11 & C12);
    [unfold active; rewrite P2; apply orb_true_r | lia |].
  assert (E : step (frames_read ec_success [c]) s = (Ret tt, s3)).
  { rewrite (step_frames_read_consumed s c f [])
      by first [ unfold active; rewrite Hs; reflexivity | assumption ].
    rewrite E2. exact E3. }
  subst s'. unfold result, exec. rewrite E. cbn [fst snd].
  rewrite C2, C3, C7, C8, C9, P3, P4, P5, P6, A2, A9, A10, A11.
  repeat split; assumption.
Qed.

End Frames.

(** ** How a session ends, and how it opens *)

Section Endings.
Context `{endpoint_policy}.

(** [drop_tcp] when the shutdown does not fail. *)
Lemma drop_tcp_succeeds (b : bool) (s : session) :
  shutdown_succeeds s = true ->
  exists s',
    drop_tcp b s = (Ret tt, s')
    /\ m_state s' = state.CLOSED
    /\ m_dropped_by_me (m_close s') = b
    /\ m_closed_by_me (m_close s') = m_closed_by_me (m_close s)
    /\ m_was_clean (m_close s') = m_was_clean (m_close s)
    /\ m_timer s' = None
    /\ m_local_interface s' = m_local_interface s
    /\ frames_written (trace s') = frames_written (trace s)
    /\ messages (trace s') = messages (trace s)
    /\ count_on_open (trace s') = count_on_open (trace s)
    /\ count_on_close (trace s') = count_on_close (trace s).
Proof.
  intros Hk. open_session s. unfold shutdown_succeeds in Hk. cbn in Hk.
  destruct xsk as [| |[]]; try discriminate Hk;
    (eexists; split; [evaluate; reflexivity|]);
    cbn [m_state m_close m_timer m_local_interface trace m_dropped_by_me
         m_closed_by_me m_was_clean];
    trace_counts; repeat split.
Qed.

(** [drop_tcp] writes no frame and calls no one. *)
Lemma drop_tcp_quiet (b : bool) (s : session) :
  frames_written (trace (snd (drop_tcp b s))) = frames_written (trace s)
  /\ messages (trace (snd (drop_tcp b s))) = messages (trace s)
  /\ count_on_open (trace (snd (drop_tcp b s))) = count_on_open (trace s)
  /\ count_on_close (trace (snd (drop_tcp b s))) = count_on_close (trace s).
Proof.
  open_session s. destruct xsk as [| |[]]; evaluate; trace_counts; repeat split.
Qed.

(** X14.  A read that fails.  When a read on an OPEN or CLOSING session
    completes with an error other than operation_aborted and end of file,
    the session becomes CLOSED before the loop, so what is in the buffer
    is never processed; at end of file with nothing buffered it becomes
    CLOSED as well.  In both cases [on_close] is called if there is a
    handler and the timer is cancelled, the close record stays as it was
    (the close is not clean) and the socket is not shut down. *)
Theorem failed_read_ends_session (s : session) (error : error_code)
    (incoming : list chunk) :
  active s = true ->
  is_error error = true ->
  error <> ec_operation_aborted ->
  (error = ec_eof -> m_buf s = [] /\ incoming = []) ->
  let s' := exec (step (frames_read error incoming)) s in
  result (step (frames_read error incoming)) s = Ret tt
  /\ m_state s' = state.CLOSED
  /\ m_close s' = m_close s
  /\ m_socket s' = m_socket s
  /\ m_buf s' = (m_buf s ++ incoming)%list
  /\ frames_written (trace s') = frames_written (trace s)
  /\ messages (trace s') = messages (trace s)
  /\ count_on_close (trace s')
     = (count_on_close (trace s) + if m_local_interface s then 1 else 0)%nat
  /\ m_timer s' = None.
Proof.
  intros Ha He Hab Heof s'.
  assert (Hg : negb (state.eqb (m_state s) state.OPEN)
               && negb (state.eqb (m_state s) state.CLOSING) = false).
  { unfold active in Ha. apply orb_true_iff in Ha as [-> | ->];
      [reflexivity | apply andb_false_r]. }
  assert (E : exists s1,
             m_state s1 = state.CLOSED /\ m_close s1 = m_close s
             /\ m_socket s1 = m_socket s /\ m_buf s1 = (m_buf s ++ incoming)%list
             /\ m_local_interface s1 = m_local_interface s
             /\ frames_written (trace s1) = frames_written (trace s)
             /\ messages (trace s1) = messages (trace s)
             /\ count_on_close (trace s1) = count_on_close (trace s)
             /\ step (frames_read error incoming) s = check_read_more s1).
  { cbn [step]. unfold handle_read_frame, log_error. monad_unfold.
    cbn [m_state with_buf]. rewrite Hg.
    destruct error as [| | | |n]; try discriminate He; try contradiction.
    - destruct (Heof eq_refl) as [Hb ->]. rewrite Hb.
      change (is_error ec_eof && bool_decide (ec_eof = ec_operation_aborted)) with false.
      change (negb (is_error ec_eof)) with false.
      change (bool_decide (ec_eof = ec_eof)) with true. cbv iota.
      cbn [m_buf with_buf record app read_loop]. unfold ret. cbv beta iota.
      eexists. split; [|split; [|split; [|split; [|split; [|split; [|split;
        [|split; [|reflexivity]]]]]]]];
        cbn [m_state m_close m_socket m_buf m_local_interface trace with_state record
             with_buf];
        trace_counts; reflexivity.
    - change (is_error ec_not_connected
              && bool_decide (ec_not_connected = ec_operation_aborted)) with false.
      change (negb (is_error ec_not_connected)) with false.
      change (bool_decide (ec_not_connected = ec_eof)) with false. cbv iota.
      cbn [m_buf with_buf record with_state].
      rewrite read_loop_closed by reflexivity.
      eexists. split; [|split; [|split; [|split; [|split; [|split; [|split;
        [|split; [|reflexivity]]]]]]]];
        cbn [m_state m_close m_socket m_buf m_local_interface trace with_state record
             with_buf];
        trace_counts; reflexivity.
    - change (is_error (ec_other n)
              && bool_decide (ec_other n = ec_operation_aborted)) with false.
      change (negb (is_error (ec_other n))) with false.
      change (bool_decide (ec_other n = ec_eof)) with false. cbv iota.
      cbn [m_buf with_buf record with_state].
      rewrite read_loop_closed by reflexivity.
      eexists. split; [|split; [|split; [|split; [|split; [|split; [|split;
        [|split; [|reflexivity]]]]]]]];
        cbn [m_state m_close m_socket m_buf m_local_interface trace with_state record
             with_buf];
        trace_counts; reflexivity. }
  destruct E as (s1 & S1 & S2 & S3 & S4 & S5 & S6 & S7 & S8 & E).
  destruct (check_read_more_closed s1 S1)
    as (s3 & E3 & C2 & C3 & C4 & C5 & C6 & C7 & C8 & C9 & C10 & C11 & C12).
  subst s'. unfold result, exec. rewrite E, E3. cbn [fst snd].
  rewrite C3, C4, C5, C8, C9, C11, S2, S3, S4, S5, S6, S7, S8.
  repeat split; assumption.
Qed.

(** What [opened] and [reset_message] leave. *)
Lemma opened_and_reset (s : session) :
  m_socket s = sock_connected ->
  exists s1,
    reset_message (opened s) = (Ret tt, s1)
    /\ m_state s1 = state.OPEN /\ m_timer s1 = None
    /\ m_buf s1 = m_buf s /\ m_read_frame s1 = m_read_frame s
    /\ m_close s1 = m_close s /\ m_socket s1 = m_socket s
    /\ m_local_interface s1 = m_local_interface s
    /\ m_fragmented (m_message s1) = false
    /\ m_current_message (m_message s1) = []
    /\ m_utf8_state (m_message s1) = UTF8_ACCEPT
    /\ m_utf8_codepoint (m_message s1) = 0%Z
    /\ frames_written (trace s1) = frames_written (trace s)
    /\ messages (trace s1) = messages (trace s)
    /\ count_on_open (trace s1)
       = (count_on_open (trace s) + if m_local_interface s then 1 else 0)%nat
    /\ count_on_close (trace s1) = count_on_close (trace s).
Proof.
  intros Ek.
  unfold opened, reset_message, exec, log_open_result, socket_remote_endpoint.
  monad_unfold. rewrite Ek.
  eexists. split; [reflexivity|].
  destruct (m_local_interface s) eqn:El;
    cbn [snd m_state m_timer m_buf m_read_frame m_close m_socket m_local_interface
         m_message m_fragmented m_current_message m_utf8_state m_utf8_codepoint trace
         upd_message with_utf8 with_current_message with_fragmented with_error
         record with_timer with_state];
    trace_counts; repeat split; try assumption; lia.
Qed.

(** X15.  The completion of the handshake write opens the session, if the
    socket is still connected.  When the response with status 101 has
    been written without error on a connected socket, the session becomes
    OPEN whatever state it was in, the timer is cancelled, [on_open] is
    called once if there is a handler, the message assembler starts empty
    with the validator in its ACCEPT state, and the first read is started.
    On a socket that is closed (after a handshake time-out, say) or whose
    peer is gone, [remote_endpoint] throws while the result is logged:
    the handler is left by a [system_error] with the session as it was,
    not opened and not dropped, and [on_open] is not called. *)
Theorem handshake_completion_opens (s : session) :
  m_server_http_code (m_handshake s) = 101%Z ->
  m_buf s = [] ->
  (0 < get_bytes_needed (m_read_frame s))%Z ->
  let s' := exec (step (handshake_written ec_success)) s in
  match m_socket s with
  | sock_connected =>
      result (step (handshake_written ec_success)) s = Ret tt
      /\ m_state s' = state.OPEN
      /\ m_timer s' = None
      /\ count_on_open (trace s')
         = (count_on_open (trace s) + if m_local_interface s then 1 else 0)%nat
      /\ count_on_close (trace s') = count_on_close (trace s)
      /\ frames_written (trace s') = frames_written (trace s)
      /\ messages (trace s') = messages (trace s)
      /\ m_fragmented (m_message s') = false
      /\ m_current_message (m_message s') = []
      /\ m_utf8_state (m_message s') = UTF8_ACCEPT
      /\ m_utf8_codepoint (m_message s') = 0%Z
      /\ last (trace s') = Some Easync_read
  | _ =>
      result (step (handshake_written ec_success)) s
      = Raise (system_error (endpoint_error s))
      /\ s' = s
  end.
Proof.
  intros Hc Hb Hn s'.
  destruct (m_socket s) eqn:Ek.
  1, 3: subst s'; unfold result, exec; cbn [step];
    rewrite handshake_write_unconnected by (rewrite ?Ek; first [reflexivity | discriminate]);
    split; reflexivity.
  destruct (opened_and_reset s Ek)
    as (s1 & E1 & O1 & O2 & O3 & O4 & O5 & O6 & O7 & O8 & O9 & O10 & O11 & O12 & O13
        & O14 & O15).
  destruct (check_read_more_active s1)
    as (s3 & E3 & C2 & C3 & C4 & C5 & C6 & C7 & C8 & C9 & C10 & C11 & C12);
    [unfold active; rewrite O1; reflexivity | rewrite O4; exact Hn |].
  assert (E : step (handshake_written ec_success) s = (Ret tt, s3)).
  { cbn [step]. rewrite handshake_write_succeeded;
      [| reflexivity | rewrite Hc; reflexivity | exact Ek].
    unfold bind. rewrite E1. unfold read_frame.
    rewrite handle_read_frame_success by (unfold active; rewrite O1; reflexivity).
    unfold bind. rewrite O3, Hb. exact E3. }
  subst s'. unfold result, exec. rewrite E. cbn [fst snd].
  rewrite C2, C6, C7, C8, C9, C10, C11, O12, O13, O14, O15.
  repeat split; assumption.
Qed.

(** X16.  A handshake that fails ends there.  When the write of the
    response completes with an error, or the response carried a status
    other than 101, the handler is not told anything: no [on_open], no
    [on_close].  After a write error the connection is dropped: unless the
    socket shutdown itself fails, the session is CLOSED, dropped by this
    endpoint, with no timer pending.  After a refusal that was written
    without error the connection is dropped in the same way if the socket
    is still connected; if it is closed or the peer is gone,
    [remote_endpoint] throws while the result is logged, and the handler
    is left by a [system_error] with the session as it was: the
    connection is not dropped. *)
Theorem failed_handshake_is_dropped (s : session) (error : error_code) :
  is_error error = true \/ (m_server_http_code (m_handshake s) =? 101)%Z = false ->
  let s' := exec (step (handshake_written error)) s in
  count_on_open (trace s') = count_on_open (trace s)
  /\ count_on_close (trace s') = count_on_close (trace s)
  /\ frames_written (trace s') = frames_written (trace s)
  /\ messages (trace s') = messages (trace s)
  /\ if is_error error || is_connected s then
       shutdown_succeeds s = true ->
       result (step (handshake_written error)) s = Ret tt
       /\ m_state s' = state.CLOSED
       /\ m_dropped_by_me (m_close s') = true
       /\ m_timer s' = None
     else
       result (step (handshake_written error)) s = Raise (system_error (endpoint_error s))
       /\ s' = s.
Proof.
  intros Hf s'.
  destruct (is_error error || is_connected s) eqn:Ec.
  2:{ apply orb_false_iff in Ec as [Ee Ek]. subst s'. unfold result, exec. cbn [step].
      rewrite handshake_write_unconnected;
        [repeat split | exact Ee
         | unfold is_connected in Ek; intros E; rewrite E in Ek; discriminate Ek]. }
  assert (E : exists s1,
             step (handshake_written error) s = drop_tcp true s1
             /\ m_socket s1 = m_socket s
             /\ frames_written (trace s1) = frames_written (trace s)
             /\ messages (trace s1) = messages (trace s)
             /\ count_on_open (trace s1) = count_on_open (trace s)
             /\ count_on_close (trace s1) = count_on_close (trace s)).
  { cbn [step].
    unfold handle_write_handshake, log_error, log_open_result, socket_remote_endpoint.
    monad_unfold.
    destruct (is_error error) eqn:Ee.
    - eexists. split; [reflexivity|]. cbn [m_socket trace record]. trace_counts.
      repeat split.
    - destruct Hf as [Hf|Hf]; [discriminate Hf|].
      cbn [orb] in Ec. unfold is_connected in Ec.
      destruct (m_socket s) eqn:Ek; try discriminate Ec.
      cbn [m_handshake record]. rewrite Hf. cbn [negb].
      eexists. split; [reflexivity|]. cbn [m_socket trace record]. trace_counts.
      rewrite Ek. repeat split. }
  destruct E as (s1 & E & S1 & S2 & S3 & S4 & S5).
  destruct (drop_tcp_quiet true s1) as (D1 & D2 & D3 & D4).
  subst s'. unfold result, exec. rewrite E.
  rewrite D1, D2, D3, D4, S2, S3, S4, S5.
  split; [reflexivity|split; [reflexivity|split; [reflexivity|split; [reflexivity|]]]].
  intros Hk.
  destruct (drop_tcp_succeeds true s1) as (s2 & E2 & F1 & F2 & F3 & F4 & F5 & _).
  { unfold shutdown_succeeds in *. rewrite S1. exact Hk. }
  rewrite E2. cbn [fst snd]. repeat split; assumption.
Qed.

Lemma logged_then_dropped (msg : string) (b : bool) (s : session) :
  shutdown_succeeds s = true ->
  result (log msg LOG_DEBUG;; drop_tcp b) s = Ret tt
  /\ dropped b s (exec (log msg LOG_DEBUG;; drop_tcp b) s).
Proof.
  intros Hk.
  destruct (drop_tcp_succeeds b (record (Elog msg LOG_DEBUG) s))
    as (s2 & E2 & F1 & F2 & F3 & F4 & F5 & F6 & F7 & F8 & F9 & F10); [exact Hk|].
  unfold result, exec, dropped, log, emit, bind, modify. cbv beta iota. rewrite E2.
  cbn [fst snd]. rewrite F7, F8, F9, F10. cbn [trace record]. trace_counts.
  repeat split; assumption.
Qed.

(** X17.  Timer completions.  A wait that was cancelled (operation_aborted)
    changes nothing but the log, for each of the four timer handlers.
    Otherwise the handshake timer and the error timer drop the connection
    whatever the state of the session, an OPEN one included, and the close
    timer drops it unless it expired normally on a session that is
    already CLOSED; the close timer records the drop as not made by this
    endpoint.  No timer handler writes a frame or calls the handler. *)
Theorem timer_completions (s : session) (error : error_code) :
  only_logged s (exec (handle_timer_expired error) s)
  /\ (error = ec_operation_aborted ->
      only_logged s (exec (handle_handshake_expired error) s)
      /\ only_logged s (exec (handle_close_expired error) s)
      /\ only_logged s (exec (handle_error_timer_expired error) s))
  /\ (error <> ec_operation_aborted -> shutdown_succeeds s = true ->
      dropped true s (exec (handle_handshake_expired error) s)
      /\ dropped true s (exec (handle_error_timer_expired error) s)
      /\ if negb (is_error error) && state.eqb (m_state s) state.CLOSED
         then exec (handle_close_expired error) s = s
         else dropped false s (exec (handle_close_expired error) s)).
Proof.
  split; [|split].
  - unfold only_logged, exec, handle_timer_expired, log, emit, modify.
    destruct error; cbn; right; eauto.
  - intros ->. unfold only_logged, exec, handle_handshake_expired, handle_close_expired,
      handle_error_timer_expired, log, emit, modify.
    cbn. repeat split; [left; reflexivity | right; eauto | right; eauto].
  - intros Hab Hk.
    unfold handle_handshake_expired, handle_close_expired, handle_error_timer_expired.
    destruct error; try contradiction; cbn [is_error negb andb];
      change (is_error ec_success) with false;
      change (is_error ec_eof) with true;
      change (is_error ec_not_connected) with true;
      try change (is_error (ec_other n)) with true;
      cbv iota; cbn [negb andb bool_decide decide_rel when];
      (split; [exact (proj2 (logged_then_dropped _ true s Hk))|]);
      (split; [exact (proj2 (logged_then_dropped _ true s Hk))|]).
    + unfold exec, bind, get. cbv beta iota.
      destruct (state.eqb (m_state s) state.CLOSED); cbn [negb when].
      * reflexivity.
      * exact (proj2 (logged_then_dropped _ false s Hk)).
    + exact (proj2 (logged_then_dropped _ false s Hk)).
    + exact (proj2 (logged_then_dropped _ false s Hk)).
    + exact (proj2 (logged_then_dropped _ false s Hk)).
Qed.

End Endings.

(** ** The opening handshake *)

Section Accepting.
Context `{endpoint_policy}.

(** When the six checks pass, the try block comes to the handler with
    the request recorded. *)
Lemma handshake_checks_pass (s : session) :
  first_failed_check s = None ->
  handshake_checks s
  = (delegate_validate;;
     modify (upd_handshake (with_server_http 101 "Switching Protocols"))) (checked s).
Proof.
  unfold first_failed_check.
  destruct (request_line_ok s) eqn:E1; [|discriminate].
  destruct (host_ok s) eqn:E2; [|discriminate].
  destruct (upgrade_ok s) eqn:E3; [|discriminate].
  destruct (connection_ok s) eqn:E4; [|discriminate].
  destruct (key_ok s) eqn:E5; [|discriminate].
  destruct (version_ok s) eqn:E6; [|discriminate].
  intros _.
  unfold request_line_ok in E1. apply andb_true_iff in E1 as [E1a E1b].
  apply bool_decide_eq_true in E1b. destruct E1b as [e E1b].
  unfold host_ok in E2. apply andb_true_iff in E2 as [E2a E2b].
  apply negb_true_iff in E2a.
  unfold upgrade_ok in E3. apply andb_true_iff in E3 as [E3a E3b].
  apply negb_true_iff in E3a.
  unfold connection_ok in E4. apply andb_true_iff in E4 as [E4a E4b].
  apply negb_true_iff in E4a.
  unfold key_ok in E5. apply negb_true_iff in E5.
  unfold version_ok in E6. apply andb_true_iff in E6 as [E6a E6b].
  apply negb_true_iff in E6a. rewrite version_in_list in E6b.
  apply negb_true_iff in E6b. unfold requested_version in E6b.
  unfold handshake_checks, check_request_line, check_host, check_upgrade,
    check_connection, check_key, check_version, record_origin, checked,
    requested_resource, origin_header, requested_version, get_client_header in *.
  monad_unfold. cbv zeta.
  rewrite E1a, E1b. cbn [negb]. cbv beta iota.
  repeat (first [ rewrite E2a | rewrite E2b | rewrite E3a | rewrite E3b | rewrite E4a
                | rewrite E4b | rewrite E5 | rewrite E6a | rewrite E6b
                | progress cbn [negb m_handshake upd_handshake record m_client_headers
                                with_resource with_version m_version] ];
          cbv beta iota).
  match goal with
  | |- context [negb (String.eqb ?h "")] => destruct (negb (String.eqb h ""))
  end; reflexivity.
Qed.

Lemma checked_facts (s : session) :
  m_local_interface (checked s) = m_local_interface s
  /\ m_resource (m_handshake (checked s)) = requested_resource s
  /\ m_version (m_handshake (checked s)) = requested_version s
  /\ m_client_origin (m_handshake (checked s))
     = (if negb (String.eqb (origin_header s) "") then origin_header s
        else m_client_origin (m_handshake s))
  /\ m_server_http_code (m_handshake (checked s)) = m_server_http_code (m_handshake s)
  /\ m_client_headers (m_handshake (checked s)) = m_client_headers (m_handshake s)
  /\ m_server_headers (m_handshake (checked s)) = m_server_headers (m_handshake s)
  /\ trace (checked s) = (trace s ++ [Evalidate_host (get_client_header "Host" s)])%list.
Proof.
  unfold checked. destruct (negb (String.eqb (origin_header s) "")); repeat split.
Qed.

(** X18.  The handler has the last word on an acceptable request.  When the
    six checks pass and a handler is attached, its [validate] is given the
    session with the request recorded, and what it does decides the
    status: if it returns, the status is 101; if it throws a
    [handshake_error], its message is logged up to the first NUL
    character and the status and its text are the ones of the exception,
    the code cut to 16 bits; any other exception leaves the handshake
    handler, and no response is written. *)
Theorem handler_decides_status (s : session) :
  first_failed_check s = None ->
  m_local_interface s = true ->
  let s' := exec validate_handshake s in
  match handler_validate (checked s) with
  | None =>
      result validate_handshake s = Ret tt
      /\ m_server_http_code (m_handshake s') = 101%Z
      /\ m_server_http_string (m_handshake s') = "Switching Protocols"
  | Some (handshake_error msg code str) =>
      result validate_handshake s = Ret tt
      /\ m_server_http_code (m_handshake s') = to_uint16 code
      /\ m_server_http_string (m_handshake s') = str
      /\ last (trace s')
         = Some (Elog ("Caught handshake exception: " +:+ handshake_what msg) LOG_ERROR)
  | Some e =>
      result validate_handshake s = Raise e
      /\ result (validate_handshake;; write_handshake) s = Raise e
      /\ trace (exec (validate_handshake;; write_handshake) s)
         = (trace s ++ [Evalidate_host (get_client_header "Host" s); Evalidate])%list
  end.
Proof.
  intros Hc Hl s'. subst s'.
  destruct (checked_facts s) as (F1 & F2 & F3 & F4 & F5 & F6 & F7 & F8).
  unfold result, exec, bind, validate_handshake, try_catch.
  rewrite (handshake_checks_pass s Hc).
  unfold delegate_validate. monad_unfold. rewrite F1, Hl.
  destruct (handler_validate (checked s)) as [[what code|msg code str|code]|];
    cbn [fst snd m_handshake upd_handshake record with_server_http m_server_http_code
         m_server_http_string trace];
    rewrite ?F8, ?last_snoc, <- ?app_assoc; repeat split.
Qed.

(** X19.  What an accepted request leaves in the session.  When the six checks
    pass and the handler, if there is one, accepts, the status is 101 and
    the session holds the resource (the text between "GET " and the first
    " HTTP/1.1"), the version read from Sec-WebSocket-Version, and as
    origin the header Sec-WebSocket-Origin for a version below 13 and
    Origin otherwise, if that header is not empty.  The endpoint's
    [validate_host] has been asked once, and then the handler. *)
Theorem accepted_request_is_recorded (s : session) :
  first_failed_check s = None ->
  m_local_interface s = false \/ handler_validate (checked s) = None ->
  let s' := exec validate_handshake s in
  result validate_handshake s = Ret tt
  /\ m_server_http_code (m_handshake s') = 101%Z
  /\ get_resource s' = requested_resource s
  /\ get_version s' = requested_version s
  /\ get_origin s'
     = (if negb (String.eqb (origin_header s) "") then origin_header s else get_origin s)
  /\ trace s'
     = (trace s ++ Evalidate_host (get_client_header "Host" s)
                   :: if m_local_interface s then [Evalidate] else [])%list.
Proof.
  intros Hc Hv s'. subst s'.
  destruct (checked_facts s) as (F1 & F2 & F3 & F4 & F5 & F6 & F7 & F8).
  unfold result, exec, validate_handshake, try_catch, get_resource, get_version, get_origin.
  rewrite (handshake_checks_pass s Hc).
  unfold delegate_validate. monad_unfold. rewrite F1.
  destruct (m_local_interface s) eqn:El.
  - destruct Hv as [Hv|Hv]; [discriminate Hv|]. rewrite Hv.
    cbn [fst snd m_handshake upd_handshake record with_server_http m_server_http_code
         m_resource m_version m_client_origin trace].
    rewrite F2, F3, F4, F8, <- app_assoc. repeat split.
  - cbn [fst snd m_handshake upd_handshake record with_server_http m_server_http_code
         m_resource m_version m_client_origin trace].
    rewrite F2, F3, F4, F8. repeat split.
Qed.

End Accepting.

Section Responding.
Context `{endpoint_policy}.

Lemma in_key_order_singleton (k v : string) :
  in_key_order {[ k := v ]} = [(k, v)].
Proof. unfold in_key_order. rewrite map_to_list_singleton. reflexivity. Qed.

(** X20.  The response to an accepted request, byte for byte.  With status
    101, the text "Switching Protocols", a key without a NUL character and
    no header set by the handler, the response handed to the socket, and
    kept in the session, is the status line, the four headers in the order
    of their keys (Connection, Sec-WebSocket-Accept, Server, Upgrade) and
    an empty line. *)
Theorem switching_protocols_response (s : session) :
  m_server_http_code (m_handshake s) = 101%Z ->
  m_server_http_string (m_handshake s) = "Switching Protocols" ->
  m_server_headers (m_handshake s) = ∅ ->
  c_str (get_client_header "Sec-WebSocket-Key" s) = get_client_header "Sec-WebSocket-Key" s ->
  (8 * Z.of_nat (String.length (get_client_header "Sec-WebSocket-Key" s +:+ GUID)) < 2 ^ 64)%Z ->
  let s' := exec write_handshake s in
  let raw :=
    "HTTP/1.1 101 Switching Protocols" +:+ CRLF
    +:+ "Connection: Upgrade" +:+ CRLF
    +:+ "Sec-WebSocket-Accept: " +:+ accept_key (get_client_header "Sec-WebSocket-Key" s)
    +:+ CRLF
    +:+ "Server: WebSocket++/2011-09-25" +:+ CRLF
    +:+ "Upgrade: websocket" +:+ CRLF
    +:+ CRLF in
  trace s' = (trace s ++ [Easync_write_handshake raw])%list
  /\ m_raw_server_handshake (m_handshake s') = raw.
Proof.
  intros Hc Hs Hh Hkey Hlen s' raw. subst s' raw.
  set (key := get_client_header "Sec-WebSocket-Key" s) in *.
  assert (Er : SHA1.Result (c_str (key +:+ GUID))
               = Some (SHA1.digest (byte_values (key +:+ GUID)))).
  { rewrite (c_str_app key GUID Hkey). change (c_str GUID) with GUID.
    unfold SHA1.Result. rewrite byte_values_length.
    apply Z.ltb_lt in Hlen. rewrite Hlen. reflexivity. }
  unfold result, exec, write_handshake, set_header. monad_unfold.
  rewrite Hc. change (101 =? 101)%Z with true. cbv iota. fold key. rewrite Er.
  cbn [fst snd upd_handshake m_handshake with_server_headers with_raw_server record
       m_server_http_code m_server_http_string m_server_headers m_raw_server_handshake
       trace].
  rewrite Hc, Hs, Hh. rewrite network_order_bytes by apply digest_range.
  fold (accept_key key). generalize (accept_key key). intros a.
  assert (El : in_key_order
                 (<["Server" := "WebSocket++/2011-09-25"]>
                    (<["Connection" := "Upgrade"]>
                       (<["Upgrade" := "websocket"]>
                          (<["Sec-WebSocket-Accept" := a]> ∅))))
               = [("Connection", "Upgrade"); ("Sec-WebSocket-Accept", a);
                  ("Server", "WebSocket++/2011-09-25"); ("Upgrade", "websocket")])
    by (vm_compute; reflexivity).
  rewrite El. split; reflexivity.
Qed.

(** X21.  The response to a refused request.  With a status other than 101
    and no header set by the handler, the response is the status line,
    with the text of the exception or, if that is empty, the endpoint's
    text for the code, followed by the Server header alone: no
    Sec-WebSocket-Accept, Upgrade or Connection header is sent. *)
Theorem refusal_response (s : session) :
  m_server_http_code (m_handshake s) <> 101%Z ->
  m_server_headers (m_handshake s) = ∅ ->
  let s' := exec write_handshake s in
  let code := m_server_http_code (m_handshake s) in
  let text := m_server_http_string (m_handshake s) in
  let raw :=
    "HTTP/1.1 " +:+ pretty code +:+ " "
    +:+ (if String.eqb text "" then lookup_http_error_string code else text) +:+ CRLF
    +:+ "Server: WebSocket++/2011-09-25" +:+ CRLF
    +:+ CRLF in
  result write_handshake s = Ret tt
  /\ trace s' = (trace s ++ [Easync_write_handshake raw])%list
  /\ m_raw_server_handshake (m_handshake s') = raw
  /\ m_server_http_code (m_handshake s') = code.
Proof.
  intros Hc Hh s' code text raw. subst s' code text raw.
  apply Z.eqb_neq in Hc.
  unfold result, exec, write_handshake, set_header. monad_unfold.
  rewrite Hc. cbv iota.
  cbn [fst snd upd_handshake m_handshake with_server_headers with_raw_server record
       m_server_http_code m_server_http_string m_server_headers m_raw_server_handshake
       trace ret].
  rewrite Hh. rewrite insert_empty, in_key_order_singleton.
  destruct (String.eqb (m_server_http_string (m_handshake s)) ""); repeat split.
Qed.

End Responding.

(** ** Sending, and completions that come late *)

Section Sending.
Context `{endpoint_policy}.

(** X22.  What the application sends on an OPEN session.  Each of [send]
    (text), [send] (binary), [ping] and [pong] writes exactly one frame:
    final, with the opcode TEXT, BINARY, PING or PONG and the caller's
    bytes as payload, masked on a client and with the writer's flag on a
    server.  Nothing of the previous frame is left in it, and the session
    stays as it was but for the pending write. *)
Theorem open_session_sends (s : session) (msg : string) (data : list byte) :
  m_state s = state.OPEN ->
  (result (send msg) s = Ret tt
   /\ sent opcode.TEXT (list_byte_of_string msg) s (exec (send msg) s))
  /\ (result (send_data data) s = Ret tt
      /\ sent opcode.BINARY data s (exec (send_data data) s))
  /\ (result (ping msg) s = Ret tt
      /\ sent opcode.PING (list_byte_of_string msg) s (exec (ping msg) s))
  /\ (result (pong msg) s = Ret tt
      /\ sent opcode.PONG (list_byte_of_string msg) s (exec (pong msg) s)).
Proof.
  intros Hs. open_session s. open_policy. unfold sent.
  destruct pserver; evaluate_all; trace_counts;
    repeat (split; [try reflexivity|]); try reflexivity;
    eexists; repeat split.
Qed.

(** X23.  The completion of a frame write.  Without error it only clears
    [m_writing].  With an error the connection is dropped and recorded as
    not dropped by this endpoint: the session is CLOSED with no timer
    pending, and the handler is not told, [on_close] is not called. *)
Theorem write_completion (s : session) (error : error_code) :
  let s' := exec (handle_write_frame error) s in
  if is_error error then
    count_on_close (trace s') = count_on_close (trace s)
    /\ (shutdown_succeeds s = true ->
        result (handle_write_frame error) s = Ret tt
        /\ dropped false s s' /\ m_writing s' = false)
  else
    result (handle_write_frame error) s = Ret tt
    /\ m_writing s' = false
    /\ m_state s' = m_state s /\ m_close s' = m_close s /\ m_timer s' = m_timer s
    /\ m_socket s' = m_socket s
    /\ trace s' = (trace s ++ [Eaccess_log "handle_write_frame complete" ALOG_FRAME])%list.
Proof.
  intros s'. subst s'. destruct (is_error error) eqn:Ee.
  - unfold handle_write_frame, exec, result. rewrite Ee. unfold when, log_error.
    split.
    + destruct (drop_tcp_quiet false (record (Elog ("[Connection " +:+ this_ptr +:+ "] "
                  +:+ "Error writing frame data" +:+ " (" +:+ show_error_code error +:+ ")")
                  LOG_ERROR) s)) as (_ & _ & _ & Q).
      monad_unfold. 
      destruct (drop_tcp false _) as [[[]|e] s1] eqn:Ed; cbn [snd] in Q |- *;
        cbn [trace record with_writing]; trace_counts;
        rewrite ?Q; cbn [trace record]; trace_counts; reflexivity.
    + intros Hk.
      destruct (drop_tcp_succeeds false (record (Elog ("[Connection " +:+ this_ptr +:+ "] "
                  +:+ "Error writing frame data" +:+ " (" +:+ show_error_code error +:+ ")")
                  LOG_ERROR) s))
        as (s1 & E1 & D1 & D2 & D3 & D4 & D5 & D6 & D7 & D8 & D9 & D10); [exact Hk|].
      monad_unfold. rewrite E1. cbn [fst snd]. unfold dropped.
      cbn [m_state m_close m_timer trace with_writing record m_writing].
      trace_counts. cbn [trace record] in D7, D8, D9, D10. 
      rewrite frames_written_app, frames_written_one, app_nil_r in D7.
      rewrite messages_app, messages_one in D8. cbn [is_message] in D8. 
      rewrite app_nil_r in D8.
      rewrite count_on_open_app, count_on_open_one in D9. cbn [is_on_open] in D9.
      rewrite count_on_close_app, count_on_close_one in D10. cbn [is_on_close] in D10.
      rewrite Nat.add_0_r in D9, D10.
      repeat split; assumption.
  - unfold handle_write_frame, exec, result. rewrite Ee. monad_unfold.
    repeat split.
Qed.

(** X24.  A read that completes too late.  On a session that is neither OPEN
    nor CLOSING the completion of a read, with or without error, only logs
    an error; on an OPEN or CLOSING session a read that was aborted
    changes nothing at all.  In both cases the bytes stay in the buffer
    and the handler is not called. *)
Theorem stale_read_is_ignored (s : session) (error : error_code) (incoming : list chunk) :
  (active s = false ->
   step (frames_read error incoming) s
   = (Ret tt, record (Elog "handle_read_frame called in invalid state" LOG_ERROR)
                (with_buf (m_buf s ++ incoming) s)))
  /\ (active s = true ->
      step (frames_read ec_operation_aborted incoming) s
      = (Ret tt, with_buf (m_buf s ++ incoming) s)).
Proof.
  unfold active. split; intros Ha; cbn [step]; unfold handle_read_frame; monad_unfold;
    cbn [m_state with_buf].
  - apply orb_false_iff in Ha as [-> ->]. reflexivity.
  - assert (Hg : negb (state.eqb (m_state s) state.OPEN)
                 && negb (state.eqb (m_state s) state.CLOSING) = false).
    { apply orb_true_iff in Ha as [-> | ->]; [reflexivity | apply andb_false_r]. }
    rewrite Hg. reflexivity.
Qed.

End Sending.

Section EndOfFile.
Context `{endpoint_policy}.



End EndOfFile.

(** ** Frames that are refused *)

Section Rejected.
Context `{endpoint_policy}.

(** One iteration of the read loop on bytes the parser rejects. *)
Lemma read_loop_rejected (s : session) (c : chunk) (what : string) (code : error.value)
    (rest : list chunk) :
  chunk_result c = consume_throws what code ->
  m_state s <> state.CLOSED ->
  (0 < get_bytes_needed (m_read_frame s))%Z ->
  read_loop (c :: rest) s =
    match catch_frame_exception what code (with_buf rest s) with
    | (Ret loop_continue, s2) => read_loop rest s2
    | (Ret loop_break, s2) => (Ret tt, s2)
    | (Raise e, s2) => (Raise e, s2)
    end.
Proof.
  intros Hc Hs Hn. apply state_eqb_neq in Hs.
  assert (Hz : (get_bytes_needed (m_read_frame s) =? 0)%Z = false) by (apply Z.eqb_neq; lia).
  cbn [read_loop]. unfold read_frame_body, consume.
  monad_unfold. rewrite Hs, Hz, Hc. unfold throw. cbv beta iota.
  destruct (catch_frame_exception what code (with_buf rest s)) as [[[]|e] s3]; reflexivity.
Qed.

(** The catch block on a violation, in an OPEN session. *)
Lemma catch_violation (s : session) (what : string) (code : error.value) :
  m_state s = state.OPEN ->
  code = error.PROTOCOL_VIOLATION \/ code = error.PAYLOAD_VIOLATION ->
  (ready (m_read_frame s) = false -> (0 < get_bytes_needed (m_read_frame s))%Z) ->
  exists s1,
    catch_frame_exception what code s = (Ret loop_break, s1)
    /\ closing_with
         (if error.eqb code error.PROTOCOL_VIOLATION then close_status.PROTOCOL_ERROR
          else close_status.INVALID_PAYLOAD) what s s1
    /\ m_buf s1 = m_buf s
    /\ (0 < get_bytes_needed (m_read_frame s1))%Z
    /\ messages (trace s1) = messages (trace s)
    /\ count_on_close (trace s1) = count_on_close (trace s).
Proof.
  intros Hs Hcode Hn. unfold catch_frame_exception. monad_unfold.
  cbn [m_read_frame record].
  destruct (ready (m_read_frame s)) eqn:Er;
    destruct Hcode as [-> | ->]; cbn [error.eqb]; cbv iota;
    match goal with
    | |- context [send_close ?c ?w ?x] =>
        destruct (close_in_open x c w Hs)
          as (s1 & E1 & (K1 & K2 & K3 & K4 & f & K5 & K6) & B1 & B2 & _ & _ & _ & B3 & _ & B4);
        rewrite close_is_send_close in E1; rewrite E1
    end;
    (exists s1; split; [reflexivity|]);
    cbn [trace record upd_read_frame m_buf m_read_frame reset get_bytes_needed]
      in K5, B1, B2, B3, B4;
    rewrite !frames_written_app, !frames_written_one, ?app_nil_r in K5;
    rewrite !messages_app, !messages_one in B3; cbn [is_message] in B3;
    rewrite ?app_nil_r in B3;
    rewrite !count_on_close_app, !count_on_close_one in B4; cbn [is_on_close] in B4;
    rewrite ?Nat.add_0_r in B4;
    (split; [repeat split; try assumption; exists f; split; assumption|]);
    rewrite B1, B2, B3, B4; cbn [get_bytes_needed]; repeat split; try assumption;
    first [lia | exact (Hn eq_refl)].
Qed.

(** X26.  A frame the parser rejects.  When the parser throws a protocol
    violation or a payload violation on bytes read by an OPEN session,
    the session starts the close handshake with PROTOCOL_ERROR or
    INVALID_PAYLOAD and the parser's text as reason; the read loop stops,
    so what is behind in the buffer stays there; nothing is delivered and
    [on_close] is not called; the session goes on reading in CLOSING. *)
Theorem rejected_frame_starts_close (s : session) (c : chunk) (what : string)
    (code : error.value) (rest : list chunk) :
  m_state s = state.OPEN ->
  m_buf s = [] ->
  (0 < get_bytes_needed (m_read_frame s))%Z ->
  chunk_result c = consume_throws what code ->
  code = error.PROTOCOL_VIOLATION \/ code = error.PAYLOAD_VIOLATION ->
  let s' := exec (step (frames_read ec_success (c :: rest))) s in
  result (step (frames_read ec_success (c :: rest))) s = Ret tt
  /\ closing_with
       (if error.eqb code error.PROTOCOL_VIOLATION then close_status.PROTOCOL_ERROR
        else close_status.INVALID_PAYLOAD) what s s'
  /\ m_buf s' = rest
  /\ messages (trace s') = messages (trace s)
  /\ count_on_close (trace s') = count_on_close (trace s)
  /\ last (trace s') = Some Easync_read.
Proof.
  intros Hs Hb Hn Hc Hcode s'. subst s'.
  set (s0 := with_buf (c :: rest) s).
  assert (E0 : step (frames_read ec_success (c :: rest)) s
               = (read_loop (m_buf s0);; check_read_more) s0).
  { cbn [step]. unfold bind at 1. unfold modify at 1. cbv beta iota.
    rewrite Hb. cbn [app]. apply handle_read_frame_success.
    unfold active, s0. cbn [m_state with_buf]. rewrite Hs. reflexivity. }
  destruct (catch_violation (with_buf rest s0) what code Hs Hcode (fun _ => Hn))
    as (s1 & E1 & (K1 & K2 & K3 & K4 & f & K5 & K6) & B1 & B2 & B3 & B4).
  assert (E2 : read_loop (m_buf s0) s0 = (Ret tt, s1)).
  { change (m_buf s0) with (c :: rest).
    rewrite (read_loop_rejected s0 c what code rest Hc);
      [rewrite E1; reflexivity | unfold s0; cbn [m_state with_buf]; rewrite Hs; discriminate
      | exact Hn]. }
  destruct (check_read_more_active s1)
    as (s3 & E3 & C2 & C3 & C4 & C5 & C6 & C7 & C8 & C9 & C10 & C11 & C12);
    [unfold active; rewrite K1; reflexivity | exact B2 |].
  unfold result, exec. rewrite E0. unfold bind. rewrite E2, E3. cbn [fst snd].
  unfold closing_with. rewrite C2, C3, C4, C7, C8, C9, C11, C12, K1, K2, K3, K4, B1, B3, B4.
  unfold s0 in K5 |- *. cbn [trace m_buf with_buf] in K5 |- *.
  repeat split. exists f. split; assumption.
Qed.

(** A frame of an unknown opcode in the parser of an OPEN session. *)
Lemma process_unknown (s : session) (n : Z) :
  m_state s = state.OPEN ->
  get_opcode (m_read_frame s) = opcode.RESERVED n ->
  process_frame s
  = (Raise (frame_exception "Invalid Opcode" error.PROTOCOL_VIOLATION),
     record (Elog "process_frame" LOG_DEBUG) s).
Proof.
  intros Hs Ho. unfold process_frame. monad_unfold.
  cbn [m_state m_read_frame record]. rewrite Hs, Ho. reflexivity.
Qed.

(** X27.  A frame of an unknown opcode.  An OPEN session that reads a
    complete frame whose opcode is none of CONTINUATION, TEXT, BINARY,
    CLOSE, PING and PONG starts the close handshake with PROTOCOL_ERROR
    and the reason "Invalid Opcode"; the read loop stops, so what is
    behind in the buffer stays there; nothing is delivered, [on_close] is
    not called, and the session goes on reading in CLOSING. *)
Theorem unknown_opcode_starts_close (s : session) (c : chunk) (f : in_frame) (n : Z)
    (rest : list chunk) :
  m_state s = state.OPEN ->
  m_buf s = [] ->
  (0 < get_bytes_needed (m_read_frame s))%Z ->
  chunk_result c = consumed f ->
  ready f = true ->
  get_opcode f = opcode.RESERVED n ->
  let s' := exec (step (frames_read ec_success (c :: rest))) s in
  result (step (frames_read ec_success (c :: rest))) s = Ret tt
  /\ closing_with close_status.PROTOCOL_ERROR "Invalid Opcode" s s'
  /\ m_buf s' = rest
  /\ messages (trace s') = messages (trace s)
  /\ count_on_close (trace s') = count_on_close (trace s)
  /\ last (trace s') = Some Easync_read.
Proof.
  intros Hs Hb Hn Hc Hr Ho s'. subst s'.
  destruct (arrival_facts f rest s)
    as (A1 & A2 & A3 & A4 & A5 & A6 & A7 & A8 & A9 & A10 & A11 & A12 & A13).
  set (s2 := record (Elog "process_frame" LOG_DEBUG) (arrival f rest s)).
  assert (Hs2 : m_state s2 = state.OPEN) by (unfold s2; cbn [m_state record]; congruence).
  assert (Hr2 : ready (m_read_frame s2) = false ->
                (0 < get_bytes_needed (m_read_frame s2))%Z).
  { unfold s2. cbn [m_read_frame record]. rewrite A7, Hr. discriminate. }
  destruct (catch_violation s2 "Invalid Opcode" error.PROTOCOL_VIOLATION Hs2
              (or_introl eq_refl) Hr2)
    as (s1 & E1 & (K1 & K2 & K3 & K4 & w & K5 & K6) & B1 & B2 & B3 & B4).
  destruct (check_read_more_active s1)
    as (s3 & E3 & C2 & C3 & C4 & C5 & C6 & C7 & C8 & C9 & C10 & C11 & C12);
    [unfold active; rewrite K1; reflexivity | exact B2 |].
  assert (E : step (frames_read ec_success (c :: rest)) s = (Ret tt, s3)).
  { rewrite (step_frames_read_consumed s c f rest) by
      first [assumption | unfold active; rewrite Hs; reflexivity].
    rewrite (process_unknown (arrival f rest s) n) by congruence.
    fold s2. rewrite E1. exact E3. }
  unfold result, exec. rewrite E. cbn [fst snd].
  cbn [error.eqb] in K1, K2, K3, K4, K5, K6.
  unfold closing_with. rewrite C2, C3, C4, C7, C8, C9, C11, C12, K1, K2, K3, K4, B1, B3, B4.
  unfold s2 in K5 |- *. cbn [trace m_buf record] in K5 |- *.
  rewrite frames_written_app, frames_written_one, app_nil_r, A10 in K5.
  rewrite messages_app, messages_one, count_on_close_app, count_on_close_one.
  cbn [is_message is_on_close]. rewrite app_nil_r, Nat.add_0_r, A8, A11, A13.
  repeat split. exists w. split; assumption.
Qed.

End Rejected.

(** ** Reading the request *)

Lemma string_app_cons (x : ascii) (a b : string) : String x a +:+ b = String x (a +:+ b).
Proof. reflexivity. Qed.

Lemma string_app_assoc (a b c : string) : (a +:+ b) +:+ c = a +:+ (b +:+ c).
Proof.
  induction a as [|x a IH]; [reflexivity|]. rewrite !string_app_cons, IH. reflexivity.
Qed.

Lemma string_app_length (a b : string) :
  String.length (a +:+ b) = (String.length a + String.length b)%nat.
Proof.
  induction a as [|x a IH]; [reflexivity|].
  rewrite string_app_cons. cbn [String.length]. rewrite IH. reflexivity.
Qed.

Lemma substring_skip (a b : string) (n : nat) :
  substring (String.length a) n (a +:+ b) = substring 0 n b.
Proof.
  induction a as [|x a IH]; [reflexivity|].
  rewrite string_app_cons. cbn [String.length substring]. exact IH.
Qed.

Lemma substring_head (a b : string) : substring 0 (String.length a) (a +:+ b) = a.
Proof.
  induction a as [|x a IH]; [destruct b; reflexivity|].
  rewrite string_app_cons. cbn [String.length substring]. rewrite IH. reflexivity.
Qed.

Lemma substring_all (a : string) : substring 0 (String.length a) a = a.
Proof.
  induction a as [|x a IH]; [reflexivity|].
  cbn [String.length substring]. rewrite IH. reflexivity.
Qed.

Lemma substr_from_skip (a b : string) : substr_from (a +:+ b) (String.length a) = b.
Proof.
  unfold substr_from. rewrite string_app_length.
  replace (String.length a + String.length b - String.length a)%nat
    with (String.length b) by lia.
  rewrite substring_skip. apply substring_all.
Qed.

(** A search that starts behind a prefix is a search in the rest. *)
Lemma index_skip (pat a b : string) (n : nat) :
  index (String.length a + n) pat (a +:+ b)
  = option_map (Nat.add (String.length a)) (index n pat b).
Proof.
  induction a as [|x a IH].
  - change (index n pat b = option_map (Nat.add 0) (index n pat b)).
    destruct (index n pat b); reflexivity.
  - rewrite string_app_cons. cbn [String.length Nat.add index]. rewrite IH.
  destruct (index n pat b); reflexivity.
Qed.

Lemma index_zero_cons (pat : string) (c : ascii) (s : string) :
  index 0 pat (String c s)
  = if String.prefix pat (String c s) then Some 0
    else match index 0 pat s with Some n => Some (S n) | None => None end.
Proof. reflexivity. Qed.

Lemma prefix_two (x y c : ascii) (s : string) :
  String.prefix (String x (String y "")) (String c s)
  = match s with
    | String d _ => bool_decide (x = c) && bool_decide (y = d)
    | EmptyString => false
    end.
Proof.
  cbn [String.prefix]. destruct (ascii_dec x c) as [E|N].
  - rewrite (bool_decide_eq_true_2 _ E). destruct s as [|d s]; [reflexivity|].
    cbn [String.prefix]. destruct (ascii_dec y d) as [E'|N'].
    + rewrite (bool_decide_eq_true_2 _ E'). destruct s; reflexivity.
    + rewrite (bool_decide_eq_false_2 _ N'). reflexivity.
  - rewrite (bool_decide_eq_false_2 _ N). destruct s; reflexivity.
Qed.

(** The first occurrence of a two-character pattern behind a text that
    has none. *)
Lemma index_first (x y : ascii) (l rest : string) :
  x <> y ->
  index 0 (String x (String y "")) l = None ->
  index 0 (String x (String y "")) (l +:+ String x (String y rest))
  = Some (String.length l).
Proof.
  intros Hxy. induction l as [|c l IH]; intros Hl.
  - change ("" +:+ String x (String y rest)) with (String x (String y rest)).
    rewrite index_zero_cons, prefix_two, !bool_decide_eq_true_2 by reflexivity.
    reflexivity.
  - rewrite string_app_cons. rewrite index_zero_cons in Hl |- *.
    rewrite prefix_two in Hl |- *.
    destruct (index 0 (String x (String y "")) l) eqn:Ei;
      [destruct l; [|destruct (_ && _)]; discriminate Hl|].
    rewrite (IH eq_refl). cbn [String.length].
    destruct l as [|d l].
    + change ("" +:+ String x (String y rest)) with (String x (String y rest)).
      cbv beta iota.
      rewrite (bool_decide_eq_false_2 (y = x)) by (intros E; apply Hxy; symmetry; exact E).
      rewrite andb_false_r. reflexivity.
    + rewrite string_app_cons. cbv beta iota.
      destruct (bool_decide (x = c) && bool_decide (y = d)); [discriminate Hl|reflexivity].
Qed.

Lemma find_crlf (l rest : string) :
  free_of CRLF l -> find CRLF 0 (l +:+ CRLF +:+ rest) = Some (String.length l).
Proof. intros Hl. apply (index_first CR LF l rest); [discriminate | exact Hl]. Qed.

Lemma find_colon (k v : string) :
  free_of ": " k -> find ": " 0 (k +:+ ": " +:+ v) = Some (String.length k).
Proof. intros Hk. apply (index_first ":" " " k v); [discriminate | exact Hk]. Qed.

Lemma lines_text_length (lines : list string) :
  (2 * length lines <= String.length (lines_text lines))%nat.
Proof.
  induction lines as [|l lines IH]; [cbn; lia|].
  cbn [lines_text foldr length]. fold (lines_text lines).
  rewrite !string_app_length. cbn [String.length CRLF]. lia.
Qed.

Lemma tokenize_lines (lines : list string) (tail pre : string) (fuel : nat) :
  Forall (free_of CRLF) lines ->
  free_of CRLF tail ->
  (length lines < fuel)%nat ->
  tokenize fuel (pre +:+ lines_text lines +:+ tail) (String.length pre) = lines.
Proof.
  intros Hl Ht. revert pre fuel.
  induction Hl as [|l lines Hl _ IH]; intros pre fuel Hf.
  - destruct fuel as [|fuel]; [cbn in Hf; lia|]. cbn [tokenize lines_text foldr].
    unfold find. rewrite <- (Nat.add_0_r (String.length pre)), index_skip.
    change ("" +:+ tail) with tail. unfold free_of, find in Ht. rewrite Ht. reflexivity.
  - destruct fuel as [|fuel]; [cbn in Hf; lia|]. cbn [tokenize lines_text foldr].
    fold (lines_text lines).
    unfold find. rewrite <- (Nat.add_0_r (String.length pre)) at 1.
    rewrite index_skip, !string_app_assoc.
    fold (find CRLF 0 (l +:+ CRLF +:+ lines_text lines +:+ tail)).
    rewrite (find_crlf l (lines_text lines +:+ tail) Hl). cbn [option_map].
    replace (String.length pre + String.length l - String.length pre)%nat
      with (String.length l) by lia.
    unfold substr. rewrite substring_skip, substring_head. f_equal.
    specialize (IH (pre +:+ l +:+ CRLF) fuel ltac:(cbn in Hf; lia)).
    rewrite !string_app_length in IH. cbn [String.length CRLF] in IH.
    rewrite !string_app_assoc in IH.
    replace (String.length pre + String.length l + 2)%nat
      with (String.length pre + (String.length l + 2))%nat by lia.
    exact IH.
Qed.

(** X28.  The lines of a request are recovered.  A text made of lines that
    have no CRLF in them, each one ended by CRLF, is cut into exactly
    these lines, empty ones included; what follows the last CRLF is in no
    line. *)
Theorem request_lines_are_recovered (lines : list string) (tail : string) :
  Forall (free_of CRLF) lines ->
  free_of CRLF tail ->
  tokens_of (lines_text lines +:+ tail) = lines.
Proof.
  intros Hl Ht. unfold tokens_of.
  apply (tokenize_lines lines tail "" _ Hl Ht).
  rewrite string_app_length. pose proof (lines_text_length lines). lia.
Qed.

Lemma add_header_line_plain (hs : gmap string string) (line : string) :
  free_of ": " line -> add_header_line hs line = hs.
Proof. intros Hl. unfold add_header_line. unfold free_of in Hl. rewrite Hl. reflexivity. Qed.

Lemma get_header_insert (k k' v : string) (hs : gmap string string) :
  get_header k (<[k' := v]> hs) = if String.eqb k' k then v else get_header k hs.
Proof.
  unfold get_header. destruct (String.eqb k' k) eqn:E.
  - apply String.eqb_eq in E. subst k'. rewrite lookup_insert_eq. reflexivity.
  - apply String.eqb_neq in E. rewrite lookup_insert_ne by exact E. reflexivity.
Qed.

Lemma add_header_line_value (hs : gmap string string) (kv : string * string) (k : string) :
  free_of ": " (fst kv) ->
  get_header k (add_header_line hs (header_line kv))
  = if String.eqb (fst kv) k then joined (get_header k hs) [snd kv] else get_header k hs.
Proof.
  destruct kv as [k0 v0]. cbn [fst snd]. intros Hk.
  unfold add_header_line, header_line. cbn [fst snd].
  rewrite (find_colon k0 v0 Hk). unfold substr. rewrite substring_head.
  replace (String.length k0 + 2)%nat with (String.length (k0 +:+ ": "))
    by (rewrite string_app_length; reflexivity).
  replace (k0 +:+ ": " +:+ v0) with ((k0 +:+ ": ") +:+ v0) by apply string_app_assoc.
  rewrite substr_from_skip.
  unfold joined. cbn [foldl].
  destruct (String.eqb k0 k) eqn:E.
  - apply String.eqb_eq in E. subst k0.
    destruct (String.eqb (get_header k hs) ""); rewrite get_header_insert, String.eqb_refl;
      reflexivity.
  - destruct (String.eqb (get_header k0 hs) ""); rewrite get_header_insert, E; reflexivity.
Qed.

Lemma headers_fold (kvs : list (string * string)) (hs : gmap string string) (k : string) :
  Forall (fun kv => free_of ": " (fst kv)) kvs ->
  get_header k (foldl add_header_line hs (map header_line kvs))
  = joined (get_header k hs) (values_of k kvs).
Proof.
  intros Hk. revert hs. induction Hk as [|kv kvs Hkv _ IH]; intros hs; [reflexivity|].
  cbn [map foldl]. rewrite IH, (add_header_line_value hs kv k Hkv).
  change (values_of k (kv :: kvs))
    with (match (if String.eqb (fst kv) k then Some (snd kv) else None) with
          | Some v => v :: values_of k kvs
          | None => values_of k kvs
          end).
  destruct (String.eqb (fst kv) k); reflexivity.
Qed.

(** X29.  The headers of a request are read back.  For a request line and
    header lines "key: value" (no CRLF in a line, no ": " in the request
    line or in a key), followed by the empty line, a session that has read
    nothing yet records the request line, and [get_client_header] gives
    for every key the values of its lines in order, joined by ", " (a
    value that follows only empty ones replaces them), and the empty
    string for a key that has no line.  Keys are compared byte for
    byte. *)
Theorem headers_are_read (s : session) (request : string)
    (kvs : list (string * string)) (tail : string) :
  m_raw_client_handshake (m_handshake s) = "" ->
  m_client_headers (m_handshake s) = ∅ ->
  free_of CRLF request -> free_of ": " request ->
  Forall (fun kv => free_of ": " (fst kv) /\ free_of CRLF (header_line kv)) kvs ->
  free_of CRLF tail ->
  let s' := exec (parse_handshake
                    (lines_text (request :: map header_line kvs ++ [""]) +:+ tail)) s in
  result (parse_handshake (lines_text (request :: map header_line kvs ++ [""]) +:+ tail)) s
  = Ret tt
  /\ m_client_http_request (m_handshake s') = request
  /\ forall k, get_client_header k s' = joined "" (values_of k kvs).
Proof.
  intros Hraw Hhs Hr1 Hr2 Hkvs Ht s'. subst s'.
  unfold result, exec, parse_handshake, get_client_header. monad_unfold.
  cbn [fst snd m_handshake upd_handshake record with_client m_client_http_request
       m_client_headers].
  rewrite Hraw, Hhs. change ("" +:+ ?x) with x.
  set (lines := request :: map header_line kvs ++ [""]).
  assert (Hl : Forall (free_of CRLF) lines).
  { constructor; [exact Hr1|]. apply Forall_app. split.
    - apply Forall_map. eapply Forall_impl; [exact Hkvs|]. intros kv [_ Hl]. exact Hl.
    - constructor; [reflexivity | constructor]. }
  assert (Et : tokens_of (lines_text lines +:+ tail) = lines).
  { unfold tokens_of. apply (tokenize_lines lines tail "" _ Hl Ht).
    rewrite string_app_length. pose proof (lines_text_length lines). lia. }
  rewrite Et. subst lines.
  split; [reflexivity|]. split; [reflexivity|]. intros k.
  cbn [foldl]. rewrite (add_header_line_plain _ request Hr2).
  rewrite foldl_app. cbn [foldl].
  rewrite (add_header_line_plain _ "" eq_refl).
  rewrite headers_fold; [reflexivity|].
  eapply Forall_impl; [exact Hkvs|]. intros kv [Hk _]. exact Hk.
Qed.

(** ** Selecting a subprotocol and extensions *)

Lemma select_within_offer (c : selection) (n : negotiation) :
  within_offer n ->
  match select c n with
  | inr n' =>
      within_offer n'
      /\ m_client_subprotocols n' = m_client_subprotocols n
      /\ m_client_extensions n' = m_client_extensions n
  | inl _ => True
  end.
Proof.
  intros [Hs He]. destruct c as [val|val]; cbn [select].
  - unfold select_subprotocol. destruct (String.eqb val "") eqn:Ev; cbn [negb andb].
    + apply String.eqb_eq in Ev. subst val.
      split; [split; [left; reflexivity | exact He]|]. split; reflexivity.
    + destruct (bool_decide (val ∈ m_client_subprotocols n)) eqn:Ei; cbn [negb]; [|exact I].
      apply bool_decide_eq_true in Ei.
      split; [split; [right; exact Ei | exact He]|]. split; reflexivity.
  - unfold select_extension. destruct (String.eqb val "") eqn:Ev.
    + split; [split; assumption|]. split; reflexivity.
    + destruct (bool_decide (val ∈ m_client_extensions n)) eqn:Ei; cbn [negb]; [|exact I].
      apply bool_decide_eq_true in Ei. apply String.eqb_neq in Ev.
      split; [split; [exact Hs|]|split; reflexivity].
      cbn [m_server_extensions m_client_extensions]. apply Forall_app. split; [exact He|].
      constructor; [split; assumption | constructor].
Qed.

(** X30.  Only what the client proposed can be selected.  After any series of
    calls of [select_subprotocol] and [select_extension], the selected
    subprotocol is empty or one of those the client proposed, and every
    selected extension is a non-empty one the client proposed; a call with
    anything else throws and leaves the selection as it was (a call with
    the empty string never throws), and the client's lists are never
    changed. *)
Theorem selection_within_offer (cs : list selection) (n : negotiation) :
  within_offer n ->
  within_offer (selected cs n)
  /\ m_client_subprotocols (selected cs n) = m_client_subprotocols n
  /\ m_client_extensions (selected cs n) = m_client_extensions n
  /\ (forall val,
        (val <> "" -> val ∉ m_client_subprotocols n ->
         exists e, select_subprotocol val (selected cs n) = inl e)
        /\ (val <> "" -> val ∉ m_client_extensions n ->
            exists e, select_extension val (selected cs n) = inl e)
        /\ (exists n', select_subprotocol "" (selected cs n) = inr n')
        /\ select_extension "" (selected cs n) = inr (selected cs n)).
Proof.
  intros Hn.
  assert (K : within_offer (selected cs n)
              /\ m_client_subprotocols (selected cs n) = m_client_subprotocols n
              /\ m_client_extensions (selected cs n) = m_client_extensions n).
  { revert n Hn. induction cs as [|c cs IH]; intros n Hn; [repeat split; apply Hn|].
    change (selected (c :: cs) n)
      with (selected cs (match select c n with inr n' => n' | inl _ => n end)).
    pose proof (select_within_offer c n Hn) as Hc.
    destruct (select c n) as [e|n1]; [exact (IH n Hn)|].
    destruct Hc as (H1 & H2 & H3). destruct (IH n1 H1) as (I1 & I2 & I3).
    rewrite I2, I3, H2, H3. repeat split; apply I1. }
  destruct K as (K1 & K2 & K3). split; [exact K1|]. split; [exact K2|]. split; [exact K3|].
  intros val. split; [|split; [|split]].
  - intros Hv Hi. unfold select_subprotocol. rewrite K2.
    apply String.eqb_neq in Hv. rewrite Hv, (bool_decide_eq_false_2 _ Hi).
    eexists. reflexivity.
  - intros Hv Hi. unfold select_extension. rewrite K3.
    apply String.eqb_neq in Hv. rewrite Hv, (bool_decide_eq_false_2 _ Hi).
    eexists. reflexivity.
  - eexists. reflexivity.
  - reflexivity.
Qed.

(** ** The properties at concrete sessions *)

Lemma state_never_moves_back_witness :
  (state_rank (m_state open_session)
   <= state_rank
        (m_state
           (@after example_policy
              [frames_read ec_success [arrives (decoded_close close_status.NORMAL "bye")];
               app_send "late"; close_timer ec_success]
              open_session)))%Z.
Proof.
  apply (@state_never_moves_back example_policy). vm_compute. reflexivity.
Defined.

Lemma nothing_sent_or_delivered_outside_open_witness :
  frames_written
    (trace (@after example_policy
              [app_send "late";
               frames_read ec_success [arrives (decoded true opcode.TEXT hel)]]
              closing_session))
  = frames_written (trace closing_session).
Proof.
  refine (proj1 (proj2 (@nothing_sent_or_delivered_outside_open example_policy _
                          closing_session _ _))).
  - vm_compute. discriminate.
  - vm_compute. reflexivity.
Defined.

Lemma no_handler_no_callbacks_witness :
  m_local_interface
    (@after example_policy
       [frames_read ec_success [arrives (decoded true opcode.TEXT hel)];
        frames_read ec_success [arrives (decoded_close close_status.NORMAL "")]]
       headless_session)
  = false.
Proof.
  refine (proj1 (@no_handler_no_callbacks example_policy _ headless_session _)).
  vm_compute. reflexivity.
Defined.

Lemma on_close_at_most_once_witness :
  (count_on_close
     (trace (@after example_policy
               [frames_read ec_success [arrives (decoded_close close_status.NORMAL "bye")];
                frames_read ec_eof []; close_timer ec_success]
               open_session))
   <= count_on_close (trace open_session) + 1)%nat.
Proof.
  refine (proj1 (@on_close_at_most_once example_policy _ open_session _)).
  vm_compute. reflexivity.
Defined.

Lemma frame_error_closes_witness :
  @closing_with example_policy close_status.PROTOCOL_ERROR "bad frame" open_session
    (exec (@catch_frame_exception example_policy "bad frame" error.PROTOCOL_VIOLATION)
       open_session).
Proof.
  refine (proj2 (proj2 (@frame_error_closes example_policy open_session "bad frame"
                          error.PROTOCOL_VIOLATION _))).
  vm_compute. reflexivity.
Defined.

Lemma remote_close_is_acknowledged_witness :
  m_state
    (exec (@step example_policy
             (frames_read ec_success [arrives (decoded_close close_status.NORMAL "bye")]))
       open_session)
  = state.CLOSED.
Proof.
  refine (proj1 (proj2 (@remote_close_is_acknowledged example_policy open_session
                          (arrives (decoded_close close_status.NORMAL "bye"))
                          (decoded_close close_status.NORMAL "bye") [] _ _ _ _ _ _)));
    vm_compute; reflexivity.
Defined.

Lemma local_close_handshake_witness :
  m_closed_by_me
    (m_close
       (@after example_policy
          [app_close close_status.NORMAL "bye";
           frames_read ec_success [arrives (decoded_close close_status.NORMAL "bye")]]
          open_session))
  = true.
Proof.
  refine (proj1 (proj2 (proj2 (@local_close_handshake example_policy open_session
                          close_status.NORMAL "bye"
                          (arrives (decoded_close close_status.NORMAL "bye"))
                          (decoded_close close_status.NORMAL "bye") [] _ _ _ _ _ _))));
    vm_compute; reflexivity.
Defined.

Lemma ping_is_answered_witness :
  last (trace (exec (@step example_policy
                       (frames_read ec_success [arrives (decoded true opcode.PING hel)]))
                 open_session))
  = Some Easync_read.
Proof.
  refine (proj2 (proj2 (proj2 (proj2 (proj2 (proj2
            (@ping_is_answered example_policy open_session
               (arrives (decoded true opcode.PING hel))
               (decoded true opcode.PING hel) _ _ _ _ _ _)))))));
    vm_compute; reflexivity.
Defined.

Lemma frame_while_closing_cancels_timer_witness :
  m_timer closing_session = Some close_expired
  /\ m_timer
       (exec (@step example_policy
                (frames_read ec_success [arrives (decoded true opcode.TEXT hel)]))
          closing_session)
     = None.
Proof.
  split; [vm_compute; reflexivity|].
  refine (proj1 (proj2 (proj2
            (@frame_while_closing_cancels_timer example_policy closing_session
               (arrives (decoded true opcode.TEXT hel))
               (decoded true opcode.TEXT hel) _ _ _ _ _ _)))).
  all: vm_compute; first [reflexivity | discriminate].
Defined.

Lemma failed_read_ends_session_witness :
  m_state (exec (@step example_policy (frames_read (ec_other 104) [])) open_session)
  = state.CLOSED.
Proof.
  refine (proj1 (proj2 (@failed_read_ends_session example_policy open_session
                          (ec_other 104) [] _ _ _ _))).
  - vm_compute. reflexivity.
  - vm_compute. reflexivity.
  - discriminate.
  - discriminate.
Defined.

Lemma handshake_completion_opens_witness :
  m_state (exec (@step example_policy (handshake_written ec_success)) answered_session)
  = state.OPEN
  /\ m_state expired_session = state.CLOSED
  /\ exec (@step example_policy (handshake_written ec_success)) expired_session
     = expired_session.
Proof.
  assert (H1 : m_server_http_code (m_handshake answered_session) = 101%Z)
    by (vm_compute; reflexivity).
  assert (H2 : m_buf answered_session = []) by (vm_compute; reflexivity).
  assert (H3 : (0 < get_bytes_needed (m_read_frame answered_session))%Z)
    by (vm_compute; reflexivity).
  assert (K1 : m_server_http_code (m_handshake expired_session) = 101%Z)
    by (vm_compute; reflexivity).
  assert (K2 : m_buf expired_session = []) by (vm_compute; reflexivity).
  assert (K3 : (0 < get_bytes_needed (m_read_frame expired_session))%Z)
    by (vm_compute; reflexivity).
  pose proof (@handshake_completion_opens example_policy answered_session H1 H2 H3) as Ha.
  pose proof (@handshake_completion_opens example_policy expired_session K1 K2 K3) as Hx.
  change (m_socket answered_session) with sock_connected in Ha.
  change (m_socket expired_session) with sock_closed in Hx.
  split; [exact (proj1 (proj2 Ha))|]. split; [vm_compute; reflexivity|].
  exact (proj2 Hx).
Defined.

Lemma failed_handshake_is_dropped_witness :
  m_state (exec (@step example_policy (handshake_written ec_success)) refused_session)
  = state.CLOSED.
Proof.
  assert (Hf : is_error ec_success = true
               \/ (m_server_http_code (m_handshake refused_session) =? 101)%Z = false)
    by (right; vm_compute; reflexivity).
  pose proof (@failed_handshake_is_dropped example_policy refused_session ec_success Hf)
    as (_ & _ & _ & _ & H).
  change (is_error ec_success || is_connected refused_session) with true in H.
  cbv iota in H.
  exact (proj1 (proj2 (H eq_refl))).
Defined.

Lemma handler_decides_status_witness :
  m_server_http_code (m_handshake (exec (@validate_handshake refusing_policy)
                                     parsed_by_refusing))
  = 403%Z.
Proof.
  assert (Hc : @first_failed_check refusing_policy parsed_by_refusing = None)
    by (vm_compute; reflexivity).
  assert (Hl : m_local_interface parsed_by_refusing = true) by (vm_compute; reflexivity).
  exact (proj1 (proj2 (@handler_decides_status refusing_policy parsed_by_refusing Hc Hl))).
Defined.

Lemma accepted_request_is_recorded_witness :
  get_resource (exec (@validate_handshake example_policy) parsed_session) = "/chat".
Proof.
  assert (Hc : @first_failed_check example_policy parsed_session = None)
    by (vm_compute; reflexivity).
  assert (Hv : m_local_interface parsed_session = false
               \/ @handler_validate example_policy (checked parsed_session) = None)
    by (right; reflexivity).
  destruct (@accepted_request_is_recorded example_policy parsed_session Hc Hv)
    as (_ & _ & Hr & _).
  rewrite Hr. vm_compute. reflexivity.
Defined.

Lemma switching_protocols_response_witness :
  m_raw_server_handshake
    (m_handshake (exec (@write_handshake example_policy) validated_session))
  = "HTTP/1.1 101 Switching Protocols" +:+ CRLF
    +:+ "Connection: Upgrade" +:+ CRLF
    +:+ "Sec-WebSocket-Accept: s3pPLMBiTxaQ9kYGzzhZRbK+xOo=" +:+ CRLF
    +:+ "Server: WebSocket++/2011-09-25" +:+ CRLF
    +:+ "Upgrade: websocket" +:+ CRLF
    +:+ CRLF.
Proof.
  assert (Hc : m_server_http_code (m_handshake validated_session) = 101%Z)
    by (vm_compute; reflexivity).
  assert (Hs : m_server_http_string (m_handshake validated_session) = "Switching Protocols")
    by (vm_compute; reflexivity).
  assert (Hh : m_server_headers (m_handshake validated_session) = ∅)
    by (vm_compute; reflexivity).
  assert (Hk : c_str (get_client_header "Sec-WebSocket-Key" validated_session)
               = get_client_header "Sec-WebSocket-Key" validated_session)
    by (vm_compute; reflexivity).
  assert (Hl : (8 * Z.of_nat (String.length
                   (get_client_header "Sec-WebSocket-Key" validated_session +:+ GUID))
                < 2 ^ 64)%Z)
    by (vm_compute; reflexivity).
  destruct (@switching_protocols_response example_policy validated_session Hc Hs Hh Hk Hl)
    as [_ Hr].
  rewrite Hr. vm_compute. reflexivity.
Defined.

Lemma refusal_response_witness :
  m_raw_server_handshake
    (m_handshake (exec (@step example_policy (handshake_read no_upgrade_request))
                    (example_run true [connected])))
  = "HTTP/1.1 400 Bad Request" +:+ CRLF
    +:+ "Server: WebSocket++/2011-09-25" +:+ CRLF
    +:+ CRLF.
Proof.
  set (s := exec (parse_handshake no_upgrade_request;;
                  @validate_handshake example_policy)
              (example_run true [connected])).
  assert (Hc : m_server_http_code (m_handshake s) <> 101%Z) by (vm_compute; discriminate).
  assert (Hh : m_server_headers (m_handshake s) = ∅) by (vm_compute; reflexivity).
  destruct (@refusal_response example_policy s Hc Hh) as (_ & _ & Hr & _).
  transitivity (m_raw_server_handshake
                  (m_handshake (exec (@write_handshake example_policy) s)));
    [vm_compute; reflexivity|].
  rewrite Hr. vm_compute. reflexivity.
Defined.

Lemma open_session_sends_witness :
  @sent example_policy opcode.TEXT (list_byte_of_string "hello") open_session
    (exec (@send example_policy "hello") open_session).
Proof.
  refine (proj2 (proj1 (@open_session_sends example_policy open_session "hello" [] _))).
  vm_compute. reflexivity.
Defined.


Lemma request_lines_are_recovered_witness :
  tokens_of canonical_request
  = ["GET /chat HTTP/1.1"; "Host: server.example.com"; "Upgrade: websocket";
     "Connection: Upgrade"; "Sec-WebSocket-Key: dGhlIHNhbXBsZSBub25jZQ==";
     "Origin: http://example.com"; "Sec-WebSocket-Version: 13"; ""].
Proof.
  refine (eq_trans _ (request_lines_are_recovered
                        ["GET /chat HTTP/1.1"; "Host: server.example.com";
                         "Upgrade: websocket"; "Connection: Upgrade";
                         "Sec-WebSocket-Key: dGhlIHNhbXBsZSBub25jZQ==";
                         "Origin: http://example.com"; "Sec-WebSocket-Version: 13"; ""]
                        "" _ _)).
  - vm_compute. reflexivity.
  - repeat constructor.
  - reflexivity.
Defined.

Lemma headers_are_read_witness :
  get_client_header "Accept"
    (exec (parse_handshake
             (lines_text ("GET / HTTP/1.1"
                          :: map header_line
                               [("Accept", "text/html"); ("Host", "a"); ("Accept", "*/*")]
                          ++ [""])
              +:+ ""))
       (@new_session example_policy true example_junk))
  = "text/html, */*".
Proof.
  refine (eq_trans
            (proj2 (proj2 (headers_are_read (@new_session example_policy true example_junk)
                             "GET / HTTP/1.1"
                             [("Accept", "text/html"); ("Host", "a"); ("Accept", "*/*")]
                             "" _ _ _ _ _ _)) "Accept") _).
  - reflexivity.
  - reflexivity.
  - vm_compute. reflexivity.
  - vm_compute. reflexivity.
  - repeat constructor.
  - reflexivity.
  - vm_compute. reflexivity.
Defined.

Lemma rejected_frame_starts_close_witness :
  @closing_with example_policy close_status.PROTOCOL_ERROR "Reserved bits used"
    open_session
    (exec (@step example_policy
             (frames_read ec_success
                [{| chunk_size := 2;
                    chunk_result :=
                      consume_throws "Reserved bits used" error.PROTOCOL_VIOLATION |}]))
       open_session).
Proof.
  refine (proj1 (proj2 (@rejected_frame_starts_close example_policy open_session
                          {| chunk_size := 2;
                             chunk_result :=
                               consume_throws "Reserved bits used"
                                 error.PROTOCOL_VIOLATION |}
                          "Reserved bits used" error.PROTOCOL_VIOLATION [] _ _ _ _ _))).
  - vm_compute. reflexivity.
  - vm_compute. reflexivity.
  - vm_compute. reflexivity.
  - reflexivity.
  - left. reflexivity.
Defined.
Lemma unknown_opcode_starts_close_witness :
  @closing_with example_policy close_status.PROTOCOL_ERROR "Invalid Opcode" open_session
    (exec (@step example_policy
             (frames_read ec_success [arrives (decoded true (opcode.RESERVED 3) hel)]))
       open_session).
Proof.
  refine (proj1 (proj2 (@unknown_opcode_starts_close example_policy open_session
                          (arrives (decoded true (opcode.RESERVED 3) hel))
                          (decoded true (opcode.RESERVED 3) hel) 3 [] _ _ _ _ _ _)));
    vm_compute; reflexivity.
Defined.

Lemma selection_within_offer_witness :
  within_offer
    (selected [choose_subprotocol "chat"; choose_subprotocol "mqtt";
               choose_extension "x-frame"; choose_extension "deflate"]
       offered_session).
Proof.
  refine (proj1 (selection_within_offer _ offered_session _)).
  split; [left; reflexivity | constructor].
Defined.
